(* ===== verification/_CoqProject ===== *)
-Q . S2P
Prelude.v
JsValue.v
Validate.v
Dynamo.v
Url.v
Api.v
Race.v
RaceApi.v
Csv.v
Dashboard.v
Client.v
Stats.v
StatsQr.v
Pages.v
Sync.v
