(* ===== verification/Prelude.v ===== *)
(** * TinyLink: a verification development of the shorten-url-web-app

    The program is a Next.js URL shortener ("TinyLink").  Its parts:

    - [src/lib/dynamo.js]: the record-store adapter.  Five async functions
      ([createLink], [getLink], [listLinks], [deleteLink], [incrementClick])
      each build one DynamoDB command and send it.
    - [src/pages/api/links/index.js]: [GET /api/links] lists every record;
      [POST /api/links] validates [{url, code}] ([validUrl], [validCode]),
      generates a code from 6 random bytes when none is given, and creates
      the record, mapping the conditional-put failure to 409.
    - [src/pages/api/links/[code].js]: [GET] and [DELETE] of one record; the
      delete first reads the record and answers 404 when it is absent.
    - [src/pages/[code].js]: the redirect; reads the record, fires
      [incrementClick] without awaiting it, answers 302 to the stored url.
    - [src/pages/index.js]: the dashboard: its state, form validation,
      search, sort, pagination, totals, CSV export, and the optimistic
      create and delete that call the API.
    - [src/pages/code/[code].js]: the statistics page of one link.
    - [src/pages/healthz.js]: a health page; [src/app.js]: the theme.

    The server handlers share only the DynamoDB table, and run concurrently;
    the two pages talk to them through the JSON API.

    ** Files, and what they model

    - [Prelude] (this file): the [tinylink_scope] notation [===] (JS string
      equality), the hint databases [tinylink] and [tinylink_rw], the tactic
      [bool_prop], and the lemmas on strings, lists and the integer division
      of [Math.round] that the components share.
    - [JsValue]: the JSON values a handler receives ([JsValue], arrays
      included, as a nested inductive with its own induction principle),
      [!!v], [String(v)] (an array joins its elements with commas), and [trim], [toLowerCase], [includes] and string [<].
    - [Validate]: [validCode] and the code generator of [POST /api/links];
      the dashboard's [CODE_REGEX] and [URL_REGEX].
    - [Dynamo]: the table as a [gmap] from code to [Item], whose attribute
      values include DynamoDB lists, with [marshall] and [unmarshall] of
      [@aws-sdk/util-dynamodb]; the five
      commands and their effect ([exec_op]); [Prog], the handlers' language
      (a free monad over the commands, with [Spawn] for a promise nobody
      awaits) run sequentially by [run]; the adapter functions of
      [src/lib/dynamo.js]; and an abstract store [Spec] (the spec's
      record-store contract) with refinement theorems.
    - [Url]: [validUrl], i.e. the WHATWG URL parser without a base.
    - [Api]: the three server handlers as [Prog] values, written against
      the [LinkStore] class (the five adapter functions) and proved against
      its laws [LinkStoreLaws], which [Dynamo]'s adapter satisfies.
    - [Race]: concurrent threads as a step relation [step] over the shared
      table, each step one atomic store command of one thread (or a store
      fault, a [Spawn], a clock tick), with a ghost log of the committed
      commands; invariants of the log by rule induction for any threads,
      and concrete schedules for the races.
    - [RaceApi]: the threads are the five requests the server answers
      ([ApiCall], run by [call_prog]: the handlers of [Api] on the adapter
      of [Dynamo]).  Predicates on programs ([never], [guarded], [incs])
      say what a handler can still commit; a ghost weight per thread
      carries a count across interleavings, and the invariants of [Race]
      turn it into facts about the answers and the table.
    - [Csv]: [downloadCsv] and a reference CSV parser.
    - [Dashboard]: the dashboard's derived data ([normalize], [filtered],
      [pageData], [totalClicks], [avgClicks], [relativeTimeFrom]) and what
      its rows and cards render.
    - [Client]: the dashboard's handlers as a state machine, each [async]
      handler split at its [await fetch]; a [Session] pairs the browser with
      the server and the requests in flight, answered in any order.
    - [Stats]: the statistics page's fetch, delete and screen.
    - [StatsQr]: the same page's QR preview effect, with the [cancelled]
      flag of each run and generations that settle in any order, and its
      download, copy and share handlers; the page's events form a step
      relation [pstep].
    - [Pages]: Next.js's routes of the page files and the health page.
    - [Sync]: the [Client] sessions restricted to one request at a time
      ([seq_step], [run_seq]), with the invariant [seq_inv] that relates
      the list, the store and the request in flight.

    ** What the theorems show

    - Store and handlers ([Dynamo], [Api]): the conditional put never
      overwrites; create and increment refine the spec's record store on
      well-formed tables; the branches of the handlers (201, 400, 404,
      409, 500, 302) with their effect on the table; the scenario of
      spec section 8; a click increment on a deleted code creates a record
      without url.
    - Validation ([Validate], [Url]): [validCode] is the 6-8 characters
      of the generator's alphabet; generated codes always pass it; the
      generator is biased ([b % 62]); [validUrl] parses [String(v)], so
      it needs a string or an array whose text has a scheme, and accepts
      [javascript:] urls.
    - Concurrency ([Race], [RaceApi]): whatever the interleaving and the
      store faults, at most one of any concurrent requests answers 201 for
      a code, none if it was stored, unless one of them deletes it; without
      faults, once all requests and their increments have finished, the
      clicks of a stored code are its initial clicks plus the redirects of
      it; and schedules that resurrect a
      deleted code, let two deletes both succeed, move [lastClickedAt]
      back in time, or lose a click silently.
    - Dashboard ([Csv], [Dashboard], [Client], [Stats]): the export
      round-trips through a CSV reader; the list is the table while it
      fits one Scan page and misses stored links past it; rows are the
      matches, ordered by the chosen column and direction in an order
      written independently of the comparator, ties kept in server order;
      pages cover the rows; the average and the
      relative time are bounded; a create shows the new link; the stats
      page never shows or saves the QR of another link ([StatsQr]); and
      interleavings in which the list disagrees with the store, or a page
      is empty while links remain; without such interleavings ([Sync])
      the list is exactly the stored codes whenever nothing is in flight.
    - Routes ([Pages]): the custom code "healthz" can be created but
      never redirects; the health page never reports a healthy server.

    ** Bounds and fuel

    Most definitions are structural.  [parse_record] and [parse_rows] take
    fuel, and [parse_csv] gives them the length of the text plus one; every
    record and field takes at least one character, so that is enough, and
    [downloadCsv_roundtrip] proves the parse succeeds.  The concurrency
    theorems hold in every reachable state, so they need no bound on the
    number of requests or steps; [redirects_all_counted] is stated for
    states where every thread has finished, and its witness reaches one.
    [run_sched] and
    [run_actions] and [run_seq] follow a finite schedule and skip impossible steps; every
    state they reach is reachable in [step], [cstep] or [seq_step].  Facts about all 62
    generator characters or all 256 byte values are proved by case
    analysis or [vm_compute] over that finite range.

    ** Modelling choices

    - Strings are Stdlib [string]s of 8-bit characters.  The code only
      tests ASCII classes, and every test is on the character code.
    - Timestamps are millisecond counts.  [toISOString] and
      [new Date(iso).getTime()] are the identity on them.  The server clock
      is part of the world; the browser clock is part of the client.
    - JSON transport is elided: a response is the value the handler passes
      to [res.json], and the browser reads that value.
    - A Scan returns one page: the items in the table's order until 1 MB
      has been read, counted with DynamoDB's item size (attribute names
      plus values, ISO dates as 24 characters); [listLinks] ignores the
      [LastEvaluatedKey].  The table's order is [map_to_list]'s.
    - The search box's 300 ms debounce is elided: a search event sets the
      debounced text.
    - React reruns an effect when a dependency changed by [Object.is]:
      every [setLink({...})] stores a new object, [setLink(null)] changes
      only a link that was not [null].  An effect runs before the next
      event is handled.

    ** Not modelled

    - Rendering details: MUI layout, [formatDate]'s [toLocaleString],
      the loading bar and snack timeouts.
    - The [qrcode] encoder and the clipboard themselves: [StatsQr] takes
      the encoder as a parameter and the clipboard's outcome as an input.
      The dashboard's QR drawer and copy button, and [window.open].
    - [src/app.js], which only sets the theme.
    - The AWS SDK's retries, and network cancellation of a request.
    - IPv4, IPv6 and IDNA host parsing inside [new URL].
*)

From Stdlib Require Export String Ascii ZArith List Lia.
From stdpp Require Export base list option gmap strings.

Declare Scope tinylink_scope.
Delimit Scope tinylink_scope with tl.

(** JavaScript's [===] on two strings. *)
Notation "a === b" := (String.eqb a b) (at level 70, no associativity) : tinylink_scope.

Open Scope tinylink_scope.

Create HintDb tinylink.
Create Rewrite HintDb tinylink_rw.

(** ** Booleans *)

(** Turns the boolean tests of the code into propositions. *)
Ltac bool_prop :=
  repeat match goal with
  | H : (_ && _)%bool = true |- _ => apply andb_true_iff in H as [? ?]
  | H : (_ || _)%bool = false |- _ => apply orb_false_iff in H as [? ?]
  | H : negb _ = true |- _ => apply negb_true_iff in H
  | H : negb _ = false |- _ => apply negb_false_iff in H
  | H : (_ <=? _)%nat = true |- _ => apply Nat.leb_le in H
  | H : (_ <=? _)%nat = false |- _ => apply Nat.leb_gt in H
  | H : (_ <? _)%nat = true |- _ => apply Nat.ltb_lt in H
  | H : (_ <? _)%nat = false |- _ => apply Nat.ltb_ge in H
  | H : (_ =? _)%nat = true |- _ => apply Nat.eqb_eq in H
  | H : (_ =? _)%nat = false |- _ => apply Nat.eqb_neq in H
  | H : (_ <=? _)%Z = true |- _ => apply Z.leb_le in H
  | H : (_ <=? _)%Z = false |- _ => apply Z.leb_gt in H
  | H : (_ <? _)%Z = true |- _ => apply Z.ltb_lt in H
  | H : (_ <? _)%Z = false |- _ => apply Z.ltb_ge in H
  | H : (_ =? _)%Z = true |- _ => apply Z.eqb_eq in H
  | H : (_ =? _)%Z = false |- _ => apply Z.eqb_neq in H
  | H : String.eqb _ _ = true |- _ => apply String.eqb_eq in H
  | H : String.eqb _ _ = false |- _ => apply String.eqb_neq in H
  end.

(** ** Strings as character lists *)

(** [every c in s, f c]: the shape of a character-class regex. *)
Fixpoint string_forallb (f : ascii -> bool) (s : string) : bool :=
  match s with
  | EmptyString => true
  | String c s' => f c && string_forallb f s'
  end.

(** Number of characters of [s] satisfying [f]. *)
Fixpoint string_count (f : ascii -> bool) (s : string) : nat :=
  match s with
  | EmptyString => 0
  | String c s' => (if f c then 1 else 0) + string_count f s'
  end.

(** The character at index [i], as [s[i]] in JavaScript. *)
Definition char_at (s : string) (i : nat) : option ascii := String.get i s.

Lemma string_app_nil_r (s : string) : s +:+ "" = s.
Proof. induction s as [|c s IH]; [done|]. exact (f_equal (String c) IH). Qed.

(** [+:+] does not unfold under [simpl] once stdpp is loaded; these are
    its two defining equations. *)
Lemma string_app_nil_l (s : string) : "" +:+ s = s.
Proof. reflexivity. Qed.

Lemma string_app_cons c (r s : string) : String c r +:+ s = String c (r +:+ s).
Proof. reflexivity. Qed.

Lemma string_app_assoc (a b c : string) : a +:+ (b +:+ c) = (a +:+ b) +:+ c.
Proof. induction a as [|x a IH]; [done|]. exact (f_equal (String x) IH). Qed.

Lemma string_app_length (a b : string) :
  String.length (a +:+ b) = String.length a + String.length b.
Proof. induction a as [|x a IH]; [done|]. exact (f_equal S IH). Qed.

Lemma string_forallb_spec f s :
  string_forallb f s = true <-> Forall (fun c => f c = true) (list_ascii_of_string s).
Proof.
  induction s as [|c s IH]; simpl; [split; constructor|].
  rewrite andb_true_iff, IH, Forall_cons. tauto.
Qed.

Lemma string_forallb_append f s t :
  string_forallb f (s +:+ t) = string_forallb f s && string_forallb f t.
Proof. induction s as [|c s IH]; simpl; [done|]. by rewrite IH, andb_assoc. Qed.

Lemma string_of_list_length (l : list ascii) :
  String.length (string_of_list_ascii l) = length l.
Proof. induction l; simpl; auto. Qed.

Lemma string_forallb_of_list f (l : list ascii) :
  string_forallb f (string_of_list_ascii l) = forallb f l.
Proof. induction l as [|c l IH]; simpl; [done|]. by rewrite IH. Qed.

Lemma string_count_le f s : string_count f s <= String.length s.
Proof. induction s as [|c s IH]; simpl; [lia|]. destruct (f c); lia. Qed.

#[export] Hint Rewrite string_app_nil_l string_app_cons string_app_nil_r string_app_length string_forallb_append string_of_list_length
  string_forallb_of_list : tinylink_rw.

(** ** Lists *)

Lemma length_filter_le {A} (p : A -> bool) (l : list A) :
  length (List.filter p l) <= length l.
Proof. induction l as [|x l IH]; simpl; [lia|]. destruct (p x); simpl; lia. Qed.

Lemma filter_all {A} (p : A -> bool) (l : list A) :
  forallb p l = true -> List.filter p l = l.
Proof.
  induction l as [|x l IH]; simpl; [done|].
  intros H. bool_prop. rewrite H, IH by done. done.
Qed.

(** The Standard Library's [map] is stdpp's [fmap] on lists. *)
Lemma list_map_fmap {A B} (f : A -> B) (l : list A) : map f l = f <$> l.
Proof. induction l as [|x l IH]; simpl; [done|]. by rewrite IH. Qed.

(** [xs.slice(a, b)] of JavaScript, for [0 <= a <= b]. *)
Definition js_slice {A} (a b : nat) (l : list A) : list A := take (b - a) (drop a l).

Lemma js_slice_length {A} a b (l : list A) :
  length (js_slice a b l) = min (b - a) (length l - a).
Proof. unfold js_slice. rewrite length_take, length_drop. lia. Qed.

#[export] Hint Resolve length_filter_le string_count_le : tinylink.

(** ** Integers *)

(** JavaScript's [Math.round(p / q)] for [q > 0]: the nearest integer,
    halves rounded towards +infinity. *)
Definition js_round_div (p q : Z) : Z := ((2 * p + q) / (2 * q))%Z.

Lemma js_round_div_bounds p q :
  (0 < q)%Z -> (2 * q * js_round_div p q <= 2 * p + q < 2 * q * js_round_div p q + 2 * q)%Z.
Proof.
  intros Hq. unfold js_round_div.
  pose proof (Z.mul_div_le (2 * p + q) (2 * q)) as H1.
  pose proof (Z.div_mod (2 * p + q) (2 * q)) as H2.
  pose proof (Z.mod_pos_bound (2 * p + q) (2 * q)) as H3.
  lia.
Qed.

Lemma js_round_div_nonneg p q : (0 <= p)%Z -> (0 < q)%Z -> (0 <= js_round_div p q)%Z.
Proof. intros Hp Hq. unfold js_round_div. apply Z.div_pos; lia. Qed.

Lemma js_round_div_le_mono p p' q :
  (0 < q)%Z -> (p <= p')%Z -> (js_round_div p q <= js_round_div p' q)%Z.
Proof. intros Hq Hp. unfold js_round_div. apply Z.div_le_mono; lia. Qed.

#[export] Hint Resolve js_round_div_nonneg js_round_div_le_mono : tinylink.
