(* ===== verification/JsValue.v ===== *)
(** * JavaScript values and the string operations of the code

    What a field of [req.body] can be after JSON parsing (arrays with their
    elements, other objects kept opaque: the code never looks inside them),
    the truthiness test
    of [if (c && ...)] and [if (!c)], the conversion [String(v)] that a regex
    [.test(v)] and [new URL(v)] apply to their argument, and the string
    methods [trim], [toLowerCase], [includes] and the comparison [<] used by
    [src/pages/index.js].  Characters are 8-bit; the whitespace set of
    [trim] and the case mapping of [toLowerCase] are those of Latin-1. *)

From S2P Require Import Prelude.
From Stdlib Require Import DecimalString.

(** ** Values *)

Local Unset Elimination Schemes.
Inductive JsValue :=
  | JUndef
  | JNull
  | JBool (b : bool)
  | JNum (n : Z)        (** integral numbers below 1e21 *)
  | JStr (s : string)
  | JArr (vs : list JsValue)  (** an array *)
  | JObj.               (** any other object, which the code does not inspect *)
Local Set Elimination Schemes.

(** Induction with a hypothesis for every element of an array. *)
Definition JsValue_ind (P : JsValue -> Prop)
    (fundef : P JUndef) (fnull : P JNull) (fbool : forall b, P (JBool b))
    (fnum : forall n, P (JNum n)) (fstr : forall s, P (JStr s))
    (farr : forall vs, Forall P vs -> P (JArr vs)) (fobj : P JObj) : forall v, P v :=
  fix F (v : JsValue) : P v :=
    match v with
    | JUndef => fundef
    | JNull => fnull
    | JBool b => fbool b
    | JNum n => fnum n
    | JStr s => fstr s
    | JArr vs =>
        farr vs ((fix G (l : list JsValue) : Forall P l :=
                    match l with
                    | [] => Forall_nil_2 P
                    | x :: l' => Forall_cons_2 P x l' (F x) (G l')
                    end) vs)
    | JObj => fobj
    end.

(** Equality is decided through the elements of arrays, as the nested
    [ejarray] of qcert's EJson. *)
#[export] Instance JsValue_eq_dec : EqDecision JsValue.
Proof.
  refine (fix go (x y : JsValue) {struct x} : Decision (x = y) :=
    match x, y with
    | JUndef, JUndef | JNull, JNull | JObj, JObj => left eq_refl
    | JBool a, JBool b => cast_if (decide (a = b))
    | JNum a, JNum b => cast_if (decide (a = b))
    | JStr a, JStr b => cast_if (decide (a = b))
    | JArr xs, JArr ys => cast_if (@list_eq_dec _ go xs ys)
    | _, _ => right _
    end); congruence.
Defined.

(** [!!v] *)
Definition truthy (v : JsValue) : bool :=
  match v with
  | JUndef | JNull => false
  | JBool b => b
  | JNum n => negb (n =? 0)%Z
  | JStr s => negb (String.eqb s "")
  | JArr _ | JObj => true
  end.

(** A value [JSON.parse] can produce: [undefined] appears in a request
    body only as a missing field, never inside an array. *)
Fixpoint json_value (v : JsValue) : bool :=
  match v with
  | JUndef => false
  | JArr vs => forallb json_value vs
  | _ => true
  end.

(** Decimal text of an integral number, as [Number.prototype.toString]. *)
Definition number_to_string (n : Z) : string := NilZero.string_of_int (Z.to_int n).

(** [String(v)]: an array is [Array.prototype.toString], its elements
    joined by commas, [null] and [undefined] as the empty string. *)
Fixpoint js_to_string (v : JsValue) : string :=
  match v with
  | JUndef => "undefined"
  | JNull => "null"
  | JBool true => "true"
  | JBool false => "false"
  | JNum n => number_to_string n
  | JStr s => s
  | JArr vs =>
      String.concat ","
        (map (fun e => match e with JUndef | JNull => "" | _ => js_to_string e end) vs)
  | JObj => "[object Object]"
  end.

(** ** Character classes *)

Definition code_of (c : ascii) : N := N_of_ascii c.

Definition in_range (lo hi : N) (c : ascii) : bool :=
  (lo <=? code_of c)%N && (code_of c <=? hi)%N.

Definition is_upper (c : ascii) : bool := in_range 65 90 c.
Definition is_lower (c : ascii) : bool := in_range 97 122 c.
Definition is_digit (c : ascii) : bool := in_range 48 57 c.

(** The class [[A-Za-z0-9]]. *)
Definition is_alnum (c : ascii) : bool := is_upper c || is_lower c || is_digit c.

(** WhiteSpace and LineTerminator code points below 256, the set [trim]
    removes: TAB, LF, VT, FF, CR, SPACE and NBSP. *)
Definition is_js_space (c : ascii) : bool :=
  in_range 9 13 c || (code_of c =? 32)%N || (code_of c =? 160)%N.

(** [c.toLowerCase()] on Latin-1: A-Z and the accented capitals
    U+00C0..U+00DE except U+00D7 move down by 32. *)
Definition to_lower_char (c : ascii) : ascii :=
  if is_upper c || (in_range 192 222 c && negb (code_of c =? 215)%N)
  then ascii_of_N (code_of c + 32) else c.

(** ** String methods *)

Fixpoint drop_spaces (l : list ascii) : list ascii :=
  match l with
  | [] => []
  | c :: l' => if is_js_space c then drop_spaces l' else l
  end.

(** [s.trim()] *)
Definition js_trim (s : string) : string :=
  string_of_list_ascii (rev (drop_spaces (rev (drop_spaces (list_ascii_of_string s))))).

(** [s.toLowerCase()] *)
Fixpoint js_to_lower (s : string) : string :=
  match s with
  | EmptyString => EmptyString
  | String c s' => String (to_lower_char c) (js_to_lower s')
  end.

(** [s.startsWith(q)] *)
Fixpoint starts_with (s q : string) {struct q} : bool :=
  match q with
  | EmptyString => true
  | String c q' =>
      match s with
      | String d s' => Ascii.eqb c d && starts_with s' q'
      | EmptyString => false
      end
  end.

(** [s.includes(q)] *)
Fixpoint js_includes (s q : string) : bool :=
  starts_with s q ||
  match s with
  | EmptyString => false
  | String _ s' => js_includes s' q
  end.

(** [a < b] on two strings: lexicographic order of the code units. *)
Fixpoint js_str_ltb (a b : string) : bool :=
  match a, b with
  | EmptyString, String _ _ => true
  | String x a', String y b' =>
      if Ascii.eqb x y then js_str_ltb a' b' else (code_of x <? code_of y)%N
  | _, _ => false
  end.

(** ** Lemmas *)

Lemma truthy_str s : truthy (JStr s) = true <-> s <> "".
Proof.
  simpl. rewrite negb_true_iff.
  destruct (String.eqb_spec s ""); split; congruence.
Qed.

Lemma starts_with_spec s q : starts_with s q = true <-> exists r, s = q +:+ r.
Proof.
  revert s. induction q as [|c q IH]; intros s; simpl.
  - split; [eauto | intros; reflexivity].
  - destruct s as [|d s].
    + split; [discriminate|]. intros [r Hr]. discriminate.
    + rewrite andb_true_iff, IH, Ascii.eqb_eq. split.
      * intros [-> [r ->]]. eauto.
      * intros [r Hr]. injection Hr as -> ->. eauto.
Qed.

Lemma js_includes_spec s q :
  js_includes s q = true <-> exists a b, s = a +:+ q +:+ b.
Proof.
  induction s as [|d s IH]; simpl; rewrite orb_true_iff, starts_with_spec.
  - split.
    + intros [[r Hr] | H]; [exists "", r; done | discriminate].
    + intros [[|c a] [b Hb]]; [left; eauto | discriminate].
  - rewrite IH. split.
    + intros [[r Hr] | [a [b ->]]].
      * exists "", r. done.
      * exists (String d a), b. done.
    + intros [[|c a] [b Hb]]; simpl in Hb; [left; eauto|].
      injection Hb as -> ->. right. eauto.
Qed.

(** Every string contains itself: a search for the whole code or url finds it. *)
Lemma js_includes_refl s : js_includes s s = true.
Proof. apply js_includes_spec. exists "", "". by rewrite string_app_nil_r. Qed.

Lemma js_includes_empty s : js_includes s "" = true.
Proof. destruct s; reflexivity. Qed.

Lemma ascii_code_inj x y : code_of x = code_of y -> x = y.
Proof.
  intros H. rewrite <- (ascii_N_embedding x), <- (ascii_N_embedding y).
  unfold code_of in H. by rewrite H.
Qed.

Lemma js_str_ltb_irrefl a : js_str_ltb a a = false.
Proof. induction a as [|c a IH]; simpl; [done|]. by rewrite Ascii.eqb_refl. Qed.

Lemma js_str_ltb_trans a b c :
  js_str_ltb a b = true -> js_str_ltb b c = true -> js_str_ltb a c = true.
Proof.
  revert b c. induction a as [|x a IH]; intros [|y b] [|z c]; simpl; try done.
  destruct (Ascii.eqb_spec x y), (Ascii.eqb_spec y z), (Ascii.eqb_spec x z);
    subst; rewrite ?N.ltb_lt; intros; eauto; try congruence; lia.
Qed.

(** JavaScript's [<] on strings of 8-bit characters is the Standard
    Library's lexicographic [String.compare]. *)
Lemma js_str_ltb_compare a b : js_str_ltb a b = true <-> String.compare a b = Lt.
Proof.
  revert b. induction a as [|x a IH]; intros [|y b]; simpl; try (split; congruence).
  unfold Ascii.compare. destruct (Ascii.eqb_spec x y) as [<-|Hne].
  - rewrite N.compare_refl. apply IH.
  - rewrite N.ltb_lt. destruct (N.compare_spec (N_of_ascii x) (N_of_ascii y)) as [E|E|E].
    + exfalso. apply Hne, ascii_code_inj. exact E.
    + split; [done|]. intros _. exact E.
    + split; [unfold code_of in *; lia | discriminate].
Qed.

Lemma js_str_ltb_total a b :
  js_str_ltb a b = false -> js_str_ltb b a = false -> a = b.
Proof.
  revert b. induction a as [|x a IH]; intros [|y b]; simpl; try done.
  destruct (Ascii.eqb_spec x y), (Ascii.eqb_spec y x); subst; try congruence.
  - intros H1 H2. f_equal. auto.
  - rewrite !N.ltb_ge. intros H1 H2. exfalso. apply n, ascii_code_inj. lia.
Qed.

Lemma to_lower_char_idem c : to_lower_char (to_lower_char c) = to_lower_char c.
Proof. destruct c as [[] [] [] [] [] [] [] []]; reflexivity. Qed.

Lemma js_to_lower_idem s : js_to_lower (js_to_lower s) = js_to_lower s.
Proof. induction s as [|c s IH]; simpl; [done|]. by rewrite to_lower_char_idem, IH. Qed.

Lemma js_to_lower_length s : String.length (js_to_lower s) = String.length s.
Proof. induction s; simpl; auto. Qed.

Lemma drop_spaces_head l :
  match drop_spaces l with [] => True | c :: _ => is_js_space c = false end.
Proof. induction l as [|c l IH]; simpl; [done|]. destruct (is_js_space c) eqn:E; [done|]. done. Qed.

#[export] Hint Resolve js_includes_refl js_includes_empty js_str_ltb_irrefl : tinylink.
#[export] Hint Rewrite js_to_lower_idem js_to_lower_length : tinylink_rw.
