(* ===== verification/Validate.v ===== *)
(** * Code validation and code generation

    [validCode] of [src/pages/api/links/index.js] line 4 is the regex test
    [/^[A-Za-z0-9]{6,8}$/.test(c)], which converts its argument with
    [String(c)] first; [genCode] is lines 17-18, which map six random bytes
    to [chars[b % 62]] and join them.  The dashboard's client-side checks
    [CODE_REGEX] and [URL_REGEX] (lines 23-24 of [src/pages/index.js]) are
    here as well, because they are the same kind of regex test. *)

From S2P Require Import Prelude JsValue.

(** ** Server-side [validCode] *)

(** [^[A-Za-z0-9]{6,8}$]: without the [m] flag [$] only matches at the end. *)
Definition code_regex_test (s : string) : bool :=
  (6 <=? String.length s) && (String.length s <=? 8) && string_forallb is_alnum s.

Definition validCode (c : JsValue) : bool := code_regex_test (js_to_string c).

(** ** Code generation *)

Definition chars : string :=
  "abcdefghijklmnopqrstuvwxyzABCDEFGHIJKLMNOPQRSTUVWXYZ0123456789".

(** [b % 62] *)
Definition char_index (b : Byte.byte) : nat := Byte.to_nat b mod 62.

(** [chars[b % 62]]: [undefined] when the index is out of range, which
    [join("")] would print as the empty string. *)
Definition gen_char (b : Byte.byte) : string :=
  match String.get (char_index b) chars with
  | Some c => String c EmptyString
  | None => EmptyString
  end.

(** [[...bytes].map(b => chars[b % 62]).join("")] *)
Fixpoint genCode (bytes : list Byte.byte) : string :=
  match bytes with
  | [] => EmptyString
  | b :: bs => gen_char b +:+ genCode bs
  end.

(** Every byte value, in order: the sample space of [getRandomValues]. *)
Definition all_bytes : list Byte.byte := omap Byte.of_nat (seq 0 256).

(** How many of the 256 byte values produce the character [chars[i]]. *)
Definition preimage_count (i : nat) : nat :=
  length (List.filter (fun b => Nat.eqb (char_index b) i) all_bytes).

(** ** Client-side checks of the dashboard *)

(** [CODE_REGEX.test(s)]: the same pattern as the server's. *)
Definition CODE_REGEX_test (s : string) : bool := code_regex_test s.

Definition is_line_terminator (c : ascii) : bool :=
  (code_of c =? 10)%N || (code_of c =? 13)%N.

(** [/^(https?:\/\/).+/i.test(s)]: a case-insensitive [http://] or
    [https://] prefix followed by at least one character that [.] matches
    (anything but a line terminator). *)
Definition URL_REGEX_test (s : string) : bool :=
  let after (p : string) :=
    starts_with (js_to_lower s) p &&
    match String.get (String.length p) s with
    | Some c => negb (is_line_terminator c)
    | None => false
    end in
  after "http://" || after "https://".

(** ** Lemmas *)

Lemma gen_char_length b : String.length (gen_char b) = 1.
Proof.
  unfold gen_char.
  assert (char_index b < 62) as Hlt by (apply Nat.mod_upper_bound; lia).
  destruct (String.get _ chars) eqn:E; [done|].
  exfalso. revert E Hlt. generalize (char_index b) as i. intros i E Hlt.
  do 62 (destruct i as [|i]; [discriminate|]). lia.
Qed.

Lemma gen_char_alnum b : string_forallb is_alnum (gen_char b) = true.
Proof.
  unfold gen_char.
  assert (char_index b < 62) as Hlt by (apply Nat.mod_upper_bound; lia).
  revert Hlt. generalize (char_index b) as i. intros i Hlt.
  do 62 (destruct i as [|i]; [reflexivity|]). lia.
Qed.

Lemma genCode_length bs : String.length (genCode bs) = length bs.
Proof.
  induction bs as [|b bs IH]; [done|]. simpl genCode.
  rewrite string_app_length, gen_char_length, IH. done.
Qed.

Lemma genCode_alnum bs : string_forallb is_alnum (genCode bs) = true.
Proof.
  induction bs as [|b bs IH]; [done|]. simpl genCode.
  rewrite string_forallb_append, gen_char_alnum, IH. done.
Qed.

Lemma code_regex_test_spec s :
  code_regex_test s = true <->
  6 <= String.length s <= 8 /\ Forall (fun c => is_alnum c = true) (list_ascii_of_string s).
Proof.
  unfold code_regex_test. rewrite !andb_true_iff, Nat.leb_le, Nat.leb_le,
    string_forallb_spec. tauto.
Qed.

#[export] Hint Resolve gen_char_length gen_char_alnum genCode_length genCode_alnum : tinylink.

(** [[A-Za-z0-9]] is exactly the 62-character alphabet [chars]. *)
Lemma is_alnum_chars c : is_alnum c = js_includes chars (String c EmptyString).
Proof. destruct c as [[] [] [] [] [] [] [] []]; reflexivity. Qed.

Lemma preimage_count_table :
  forallb (fun i => Nat.eqb (preimage_count i) (if i <? 8 then 5 else 4)) (seq 0 62) = true.
Proof. vm_compute. reflexivity. Qed.

(** ** Properties *)

(** C2: [validCode] accepts a string exactly when it has 6 to 8
    characters, each of which occurs in the generator's alphabet [chars]:
    the server accepts the codes it could have generated and the longer
    custom ones, and nothing else. *)
Theorem validCode_alphabet s :
  validCode (JStr s) = true <->
  6 <= String.length s <= 8 /\
  Forall (fun c => js_includes chars (String c EmptyString) = true) (list_ascii_of_string s).
Proof.
  unfold validCode. simpl js_to_string. rewrite code_regex_test_spec.
  setoid_rewrite is_alnum_chars. done.
Qed.

(** C3: a code generated from six random bytes always has six characters
    and always passes [validCode]: the index [b % 62] never leaves [chars],
    so [join] never drops an [undefined]. *)
Theorem genCode_valid bs :
  length bs = 6 -> String.length (genCode bs) = 6 /\ validCode (JStr (genCode bs)) = true.
Proof.
  intros Hlen. rewrite genCode_length, Hlen. split; [done|].
  unfold validCode, code_regex_test. simpl js_to_string.
  rewrite genCode_length, Hlen, genCode_alnum. done.
Qed.

Lemma genCode_valid_witness :
  length [Byte.x00; Byte.x3e; Byte.x7f; Byte.xc0; Byte.xf7; Byte.xff] = 6 /\
  String.length (genCode [Byte.x00; Byte.x3e; Byte.x7f; Byte.xc0; Byte.xf7; Byte.xff]) = 6 /\
  validCode (JStr (genCode [Byte.x00; Byte.x3e; Byte.x7f; Byte.xc0; Byte.xf7; Byte.xff])) = true.
Proof. split; [reflexivity|]. apply genCode_valid. reflexivity. Defined.

(** C4: the generator is not uniform: of the 256 byte values, five map to
    each of the first eight characters [a..h] and only four to each of the
    other 54, because [256 = 4 * 62 + 8]. *)
Theorem genCode_bias i :
  i < 62 -> preimage_count i = if i <? 8 then 5 else 4.
Proof.
  intros Hi. pose proof preimage_count_table as H.
  rewrite forallb_forall in H. specialize (H i).
  rewrite in_seq in H. apply Nat.eqb_eq, H. lia.
Qed.

Lemma genCode_bias_witness :
  0 < 62 /\ 8 < 62 /\ preimage_count 0 = 5 /\ preimage_count 8 = 4.
Proof.
  split; [lia|]. split; [lia|].
  split; [apply (genCode_bias 0); lia | apply (genCode_bias 8); lia].
Defined.
