(* ===== verification/Dynamo.v ===== *)
(** * The DynamoDB table and the record-store adapter

    [src/lib/dynamo.js] builds one command per operation and sends it with
    [client.send].  This file holds
    - the table: a [gmap] from the key [code] to the item's other
      attributes ([Item]); the attributes the adapter writes are [url],
      [clicks], [createdAt] and [lastClickedAt];
    - the commands as they reach DynamoDB ([Op]) and their effect on the
      table ([exec_op]): PutItem with [attribute_not_exists(code)], GetItem,
      Scan, DeleteItem, and UpdateItem with
      [SET lastClickedAt = :t ADD clicks :inc], which creates the item when
      the key is absent;
    - [Prog], the language of request handlers: a free monad over these
      commands, with [Spawn] for a call whose promise nobody awaits;
    - the five adapter functions and their sequential laws, packaged as the
      [LinkStore]/[LinkStoreLaws] classes of [Api]. *)

From S2P Require Import Prelude JsValue.

(** ** Attribute values and items *)

(** What [marshall] produces for a JavaScript value: an array becomes a
    list attribute [L] of its marshalled elements. *)
Local Unset Elimination Schemes.
Inductive AttrVal :=
  | AS (s : string)
  | AN (n : Z)
  | ABOOL (b : bool)
  | ANULL
  | AL (vs : list AttrVal)
  | AM.
Local Set Elimination Schemes.

Definition AttrVal_ind (P : AttrVal -> Prop)
    (fs : forall s, P (AS s)) (fn : forall n, P (AN n)) (fb : forall b, P (ABOOL b))
    (fnull : P ANULL) (fl : forall vs, Forall P vs -> P (AL vs)) (fm : P AM) : forall a, P a :=
  fix F (a : AttrVal) : P a :=
    match a with
    | AS s => fs s
    | AN n => fn n
    | ABOOL b => fb b
    | ANULL => fnull
    | AL vs =>
        fl vs ((fix G (l : list AttrVal) : Forall P l :=
                  match l with
                  | [] => Forall_nil_2 P
                  | x :: l' => Forall_cons_2 P x l' (F x) (G l')
                  end) vs)
    | AM => fm
    end.

#[export] Instance AttrVal_eq_dec : EqDecision AttrVal.
Proof.
  refine (fix go (x y : AttrVal) {struct x} : Decision (x = y) :=
    match x, y with
    | ANULL, ANULL | AM, AM => left eq_refl
    | AS a, AS b => cast_if (decide (a = b))
    | AN a, AN b => cast_if (decide (a = b))
    | ABOOL a, ABOOL b => cast_if (decide (a = b))
    | AL xs, AL ys => cast_if (@list_eq_dec _ go xs ys)
    | _, _ => right _
    end); congruence.
Defined.

(** The non-key attributes of a stored item; [None] is an absent attribute. *)
Record Item := mkItem {
  it_url : option AttrVal;
  it_clicks : option Z;
  it_createdAt : option Z;
  it_lastClickedAt : option Z
}.

#[export] Instance Item_eq_dec : EqDecision Item.
Proof. solve_decision. Defined.

(** An unmarshalled record as the handlers see it: the key and the item. *)
Definition Link : Type := string * Item.

Inductive DynErr :=
  | ConditionalCheckFailed
  | ValidationException
  | MarshallError        (** [marshall] throws on [undefined] *)
  | ServiceError.        (** any other failure of the call *)

#[export] Instance DynErr_eq_dec : EqDecision DynErr.
Proof. solve_decision. Defined.

(** The settled state of a promise: fulfilled or rejected. *)
Inductive res (A : Type) :=
  | Ok (a : A)
  | Err (e : DynErr).
Arguments Ok {A} a.
Arguments Err {A} e.

Record World := mkWorld {
  w_table : gmap string Item;
  w_clock : Z               (** [Date.now()] in milliseconds *)
}.

Definition set_table (t : gmap string Item) (w : World) : World :=
  mkWorld t (w_clock w).

(** ** Commands *)

Inductive Op : Type -> Type :=
  | OpNow : Op Z
  | PutItem (key : AttrVal) (it : Item) (if_absent : bool) : Op (res unit)
  | GetItem (key : AttrVal) : Op (res (option Item))
  | ScanTable : Op (res (list Link * option string))
  | DeleteItem (key : AttrVal) : Op (res unit)
  | UpdateClick (key : AttrVal) (t : Z) : Op (res unit).

(** A key attribute must be a non-empty string. *)
Definition key_of (k : AttrVal) : res string :=
  match k with
  | AS s => if String.eqb s "" then Err ValidationException else Ok s
  | _ => Err ValidationException
  end.

(** [SET lastClickedAt = :t ADD clicks :inc]: ADD on an absent attribute
    starts from 0, and UpdateItem on an absent key creates the item. *)
Definition bump (t : Z) (o : option Item) : Item :=
  match o with
  | Some it =>
      mkItem (it_url it) (Some (default 0 (it_clicks it) + 1)%Z)
             (it_createdAt it) (Some t)
  | None => mkItem None (Some 1%Z) None (Some t)
  end.

(** ** Scan pages *)

(** The size DynamoDB counts for a number: one byte per two significant
    digits, plus one. *)
Definition num_size (n : Z) : Z :=
  ((Z.of_nat (String.length (number_to_string (Z.abs n))) + 1) / 2 + 1)%Z.

(** A list costs 3 bytes and one byte per element beside the elements. *)
Fixpoint attr_size (v : AttrVal) : Z :=
  match v with
  | AS s => Z.of_nat (String.length s)
  | AN n => num_size n
  | ABOOL _ | ANULL => 1
  | AL vs => (3 + fold_right (fun e acc => 1 + attr_size e + acc) 0 vs)%Z
  | AM => 3
  end.

(** The size of an item: each attribute's name plus its value.
    [createdAt] and [lastClickedAt] are stored as the 24 characters of an
    ISO date. *)
Definition link_size (l : Link) : Z :=
  let '(c, it) := l in
  (4 + Z.of_nat (String.length c)
   + match it_url it with Some v => 3 + attr_size v | None => 0 end
   + match it_clicks it with Some n => 6 + num_size n | None => 0 end
   + match it_createdAt it with Some _ => 9 + 24 | None => 0 end
   + match it_lastClickedAt it with Some _ => 13 + 24 | None => 0 end)%Z.

Definition table_size (l : list Link) : Z := fold_right (fun x acc => link_size x + acc)%Z 0%Z l.

(** A Scan reads at most 1 MB; an item is at most 400 KB. *)
Definition scan_limit : Z := 1048576.
Definition item_limit : Z := 409600.

(** One Scan page: the items in the table's order while less than
    [budget] bytes have been read; the item that crosses it is returned. *)
Fixpoint scan_page_from (budget : Z) (l : list Link) : list Link :=
  match l with
  | [] => []
  | x :: r => if (0 <? budget)%Z then x :: scan_page_from (budget - link_size x)%Z r else []
  end.

Definition scan_page (l : list Link) : list Link := scan_page_from scan_limit l.

(** The page and its [LastEvaluatedKey], the key of its last item when
    the scan stopped before the end of the table. *)
Definition scan_result (l : list Link) : list Link * option string :=
  let page := scan_page l in
  (page, if length page <? length l then option_map fst (last page) else None).

Definition exec_op {R} (o : Op R) (w : World) : R * World :=
  let tbl := w_table w in
  match o in Op R return R * World with
  | OpNow => (w_clock w, w)
  | PutItem k it if_absent =>
      match key_of k with
      | Err e => (Err e, w)
      | Ok s =>
          if if_absent && bool_decide (is_Some (tbl !! s))
          then (Err ConditionalCheckFailed, w)
          else (Ok tt, set_table (<[s := it]> tbl) w)
      end
  | GetItem k =>
      match key_of k with
      | Err e => (Err e, w)
      | Ok s => (Ok (tbl !! s), w)
      end
  | ScanTable => (Ok (scan_result (map_to_list tbl)), w)
  | DeleteItem k =>
      match key_of k with
      | Err e => (Err e, w)
      | Ok s => (Ok tt, set_table (delete s tbl) w)
      end
  | UpdateClick k t =>
      match key_of k with
      | Err e => (Err e, w)
      | Ok s => (Ok tt, set_table (<[s := bump t (tbl !! s)]> tbl) w)
      end
  end.

(** ** Handler programs *)

Inductive Prog : Type -> Type :=
  | Ret {A} (a : A) : Prog A
  | Call {A R} (o : Op R) (k : R -> Prog A) : Prog A
  | Spawn {A} (p : Prog unit) (k : Prog A) : Prog A.

Fixpoint bind {A B} (p : Prog A) (f : A -> Prog B) : Prog B :=
  match p in Prog A0 return (A0 -> Prog B) -> Prog B with
  | Ret a => fun f => f a
  | Call o k => fun f => Call o (fun r => bind (k r) f)
  | Spawn q k => fun f => Spawn q (bind k f)
  end f.

Definition call {R} (o : Op R) : Prog R := Call o Ret.

Declare Scope prog_scope.
Delimit Scope prog_scope with prog.
Notation "x <- p ;; k" := (bind p (fun x => k))
  (at level 100, p at next level, right associativity) : prog_scope.
Open Scope prog_scope.

(** Sequential execution: no other request runs in between, no call fails
    but by its own semantics, and a spawned program runs to completion at
    the point where it is spawned. *)
Fixpoint run {A} (p : Prog A) (w : World) : A * World :=
  match p in Prog A0 return A0 * World with
  | Ret a => (a, w)
  | Call o k => let '(r, w') := exec_op o w in run (k r) w'
  | Spawn q k => run k (snd (run q w))
  end.

Lemma run_bind {A B} (p : Prog A) (f : A -> Prog B) w :
  run (bind p f) w = let '(a, w') := run p w in run (f a) w'.
Proof.
  revert w. induction p as [A a|A R o k IH|A q IHq k IHk]; intros w; simpl.
  - done.
  - destruct (exec_op o w) as [r w']. apply IH.
  - apply IHk.
Qed.

#[export] Hint Rewrite @run_bind : tinylink_rw.

(** ** The adapter, [src/lib/dynamo.js] *)

(** [marshall(v)] of one attribute value; an array is marshalled element
    by element, and [undefined] anywhere throws. *)
Fixpoint marshall (v : JsValue) : res AttrVal :=
  match v with
  | JUndef => Err MarshallError
  | JNull => Ok ANULL
  | JBool b => Ok (ABOOL b)
  | JNum n => Ok (AN n)
  | JStr s => Ok (AS s)
  | JArr vs =>
      match fold_right (fun e acc =>
              match marshall e, acc with
              | Ok a, Ok l => Ok (a :: l)
              | Err e, _ | _, Err e => Err e
              end) (Ok []) vs with
      | Ok l => Ok (AL l)
      | Err e => Err e
      end
  | JObj => Ok AM
  end.

(** [unmarshall] of an attribute value. *)
Fixpoint unmarshall_attr (a : AttrVal) : JsValue :=
  match a with
  | AS s => JStr s
  | AN n => JNum n
  | ABOOL b => JBool b
  | ANULL => JNull
  | AL vs => JArr (map unmarshall_attr vs)
  | AM => JObj
  end.

(** Every value [JSON.parse] produces can be marshalled. *)
Lemma marshall_json v : json_value v = true -> exists a, marshall v = Ok a.
Proof.
  induction v as [| |b|n|s|vs IH|] using JsValue_ind; simpl; intros Hj; try discriminate; eauto.
  enough (exists l, fold_right (fun e acc =>
              match marshall e, acc with
              | Ok a, Ok l => Ok (a :: l)
              | Err e, _ | _, Err e => Err e
              end) (Ok []) vs = Ok l) as [l ->] by eauto.
  induction IH as [|x vs Hx IH' IHl]; simpl in *; [eauto|].
  apply andb_true_iff in Hj as [Hx' Hvs].
  destruct (Hx Hx') as [a ->]. destruct (IHl Hvs) as [l ->]. eauto.
Qed.

(** [marshall] only throws on [undefined]. *)
Lemma marshall_err v e : marshall v = Err e -> e = MarshallError.
Proof.
  revert e. induction v as [| |b|n|s|vs IH|] using JsValue_ind; simpl; intros e He;
    try discriminate; [by injection He|].
  enough (forall l, fold_right (fun e acc =>
              match marshall e, acc with
              | Ok a, Ok l => Ok (a :: l)
              | Err e, _ | _, Err e => Err e
              end) (Ok []) vs = Err l -> l = MarshallError) as Hf
    by (destruct (fold_right _ _ vs) eqn:E; [discriminate|]; injection He as <-; eauto).
  clear He. induction IH as [|x vs Hx IH' IHl]; simpl; intros l Hl; [discriminate|].
  destruct (marshall x) eqn:Ex, (fold_right _ _ vs) eqn:Evs; try discriminate;
    injection Hl as <-; eauto.
Qed.

(** The item [createLink] writes: [{ code, url, clicks: 0, createdAt: now }]. *)
Definition new_item (url : AttrVal) (now : Z) : Item :=
  mkItem (Some url) (Some 0%Z) (Some now) None.

Definition createLink (code url : JsValue) : Prog (res unit) :=
  now <- call OpNow ;;
  match marshall code, marshall url with
  | Ok k, Ok u => call (PutItem k (new_item u now) true)
  | Err e, _ | _, Err e => Ret (Err e)
  end.

Definition getLink (code : string) : Prog (res (option Item)) :=
  call (GetItem (AS code)).

(** [(res.Items || []).map(unmarshall)] of one Scan: [LastEvaluatedKey]
    is ignored. *)
Definition listLinks : Prog (res (list Link)) :=
  r <- call ScanTable ;;
  Ret (match r with Ok (items, _) => Ok items | Err e => Err e end).

Definition deleteLink (code : string) : Prog (res unit) :=
  call (DeleteItem (AS code)).

Definition incrementClick (code : string) : Prog (res unit) :=
  now <- call OpNow ;;
  call (UpdateClick (AS code) now).

(** ** Sequential behaviour of the adapter *)

Ltac run_simpl := cbn [run bind call exec_op key_of marshall createLink getLink
  listLinks deleteLink incrementClick fst snd w_table w_clock set_table].

Lemma key_of_AS s : s <> "" -> key_of (AS s) = Ok s.
Proof. intros Hs. simpl. destruct (String.eqb_spec s ""); congruence. Qed.

Lemma run_getLink c w :
  c <> "" -> run (getLink c) w = (Ok (w_table w !! c), w).
Proof. intros Hc. unfold getLink, call. cbn [run]. unfold exec_op. by rewrite key_of_AS. Qed.

Lemma run_listLinks w : run listLinks w = (Ok (scan_page (map_to_list (w_table w))), w).
Proof. done. Qed.

Lemma run_deleteLink c w :
  c <> "" -> run (deleteLink c) w = (Ok tt, set_table (delete c (w_table w)) w).
Proof. intros Hc. unfold deleteLink, call. cbn [run]. unfold exec_op. by rewrite key_of_AS. Qed.

Lemma run_incrementClick c w :
  c <> "" ->
  run (incrementClick c) w =
    (Ok tt, set_table (<[c := bump (w_clock w) (w_table w !! c)]> (w_table w)) w).
Proof.
  intros Hc. unfold incrementClick, call. cbn [run bind]. unfold exec_op at 2.
  rewrite key_of_AS by done. reflexivity.
Qed.

Lemma run_createLink_str c u w :
  c <> "" ->
  run (createLink (JStr c) (JStr u)) w =
    if bool_decide (is_Some (w_table w !! c)) then (Err ConditionalCheckFailed, w)
    else (Ok tt, set_table (<[c := new_item (AS u) (w_clock w)]> (w_table w)) w).
Proof.
  intros Hc. unfold createLink, call. cbn [run bind marshall]. unfold exec_op at 2.
  rewrite key_of_AS by done. simpl. by destruct (bool_decide _).
Qed.

Lemma set_table_id w : set_table (w_table w) w = w.
Proof. by destruct w. Qed.

Lemma set_table_table t w : w_table (set_table t w) = t.
Proof. done. Qed.

#[export] Hint Rewrite run_listLinks set_table_id set_table_table : tinylink_rw.

(** ** Scan pages *)

Lemma num_size_pos n : (0 < num_size n)%Z.
Proof. unfold num_size. pose proof (Z.div_pos (Z.of_nat (String.length (number_to_string (Z.abs n))) + 1) 2). lia. Qed.

Lemma attr_size_nonneg v : (0 <= attr_size v)%Z.
Proof.
  induction v as [s|n|b| |vs IH|] using AttrVal_ind; simpl; try lia; [pose proof (num_size_pos n); lia|].
  enough (0 <= fold_right (fun e acc => 1 + attr_size e + acc) 0 vs)%Z by lia.
  induction IH; simpl; lia.
Qed.

Lemma link_size_pos x : (4 <= link_size x)%Z.
Proof.
  destruct x as [c [u k cr lc]]. unfold link_size. cbn [it_url it_clicks it_createdAt it_lastClickedAt].
  destruct u, k, cr, lc; try (pose proof (num_size_pos z)); try (pose proof (attr_size_nonneg a)); lia.
Qed.

(** A table smaller than the budget is read in one page. *)
Lemma scan_page_from_all b l : (table_size l <= b)%Z -> scan_page_from b l = l.
Proof.
  revert b. induction l as [|x l IH]; intros b Hb; [done|]. simpl in Hb |- *.
  pose proof (link_size_pos x). assert (table_size l >= 0)%Z.
  { clear -l. induction l as [|y l IH]; simpl; [lia|]. pose proof (link_size_pos y). lia. }
  replace (0 <? b)%Z with true by lia. f_equal. apply IH. lia.
Qed.

Lemma scan_page_from_prefix b l : scan_page_from b l `prefix_of` l.
Proof.
  revert b. induction l as [|x l IH]; intros b; simpl; [done|].
  case_match; [by apply prefix_cons|apply prefix_nil].
Qed.

(** The item-size bound as a boolean check, and its soundness. *)
Definition items_within_limit (l : list Link) : bool :=
  forallb (fun x => link_size x <=? item_limit)%Z l.

Lemma items_within_limit_sound l :
  items_within_limit l = true -> Forall (fun x => link_size x <= item_limit)%Z l.
Proof.
  unfold items_within_limit. rewrite forallb_forall. intros H.
  apply Forall_forall. intros x Hx%list_elem_of_In. apply Z.leb_le, H, Hx.
Qed.

(** A page reads at most the budget and one more item. *)
Lemma scan_page_from_size b l M :
  (1 <= M)%Z -> Forall (fun x => link_size x <= M)%Z l ->
  (table_size (scan_page_from b l) <= Z.max 0 b + M - 1)%Z.
Proof.
  intros HM HF. revert b. induction HF as [|x l Hx _ IH]; intros b; simpl; [lia|].
  destruct (Z.ltb_spec 0 b); simpl; [|lia].
  specialize (IH (b - link_size x)%Z). destruct (Z.ltb_spec 0 (b - link_size x)).
  - lia.
  - destruct l as [|y l]; simpl; [lia|]. replace (0 <? b - link_size x)%Z with false by lia. simpl. lia.
Qed.

(** ** The contract of the record store (spec section 4.1) *)

Module Spec.
Record LinkRecord := mkRecord {
    url : string;
    clicks : Z;
    createdAt : Z;
    lastClickedAt : option Z
  }.

Inductive Error := Conflict | NotFound.

Definition create (c u : string) (now : Z) (m : gmap string LinkRecord)
      : Error + gmap string LinkRecord :=
    match m !! c with
    | Some _ => inl Conflict
    | None => inr (<[c := mkRecord u 0 now None]> m)
    end.

Definition get (c : string) (m : gmap string LinkRecord) : Error + LinkRecord :=
    match m !! c with Some r => inr r | None => inl NotFound end.

Definition remove (c : string) (m : gmap string LinkRecord)
      : Error + gmap string LinkRecord :=
    match m !! c with Some _ => inr (delete c m) | None => inl NotFound end.

Definition increment (c : string) (now : Z) (m : gmap string LinkRecord)
      : Error + gmap string LinkRecord :=
    match m !! c with
    | Some r =>
        inr (<[c := mkRecord (url r) (clicks r + 1) (createdAt r) (Some now)]> m)
    | None => inl NotFound
    end.
End Spec.

(** An item is a record of the contract when it has a string url, a click
    count and a creation time. *)
Definition abs_item (it : Item) : option Spec.LinkRecord :=
  match it_url it, it_clicks it, it_createdAt it with
  | Some (AS u), Some n, Some t => Some (Spec.mkRecord u n t (it_lastClickedAt it))
  | _, _, _ => None
  end.

Definition wf_table (t : gmap string Item) : Prop :=
  map_Forall (fun _ it => is_Some (abs_item it)) t.

Definition abs_table (t : gmap string Item) : gmap string Spec.LinkRecord :=
  omap abs_item t.

Lemma abs_table_lookup t c : abs_table t !! c = t !! c ≫= abs_item.
Proof. apply lookup_omap. Qed.

Lemma wf_abs_lookup t c :
  wf_table t -> is_Some (t !! c) <-> is_Some (abs_table t !! c).
Proof.
  intros Hwf. rewrite abs_table_lookup. destruct (t !! c) as [it|] eqn:E; simpl.
  - split; [intros _; exact (Hwf c it E) | eauto].
  - split; intros [? ?]; discriminate.
Qed.

Lemma abs_item_bump it r t :
  abs_item it = Some r ->
  abs_item (bump t (Some it)) =
    Some (Spec.mkRecord (Spec.url r) (Spec.clicks r + 1) (Spec.createdAt r) (Some t)).
Proof.
  destruct it as [[[u| | | | |]|] [n|] [c|] l]; simpl; try discriminate.
  intros [= <-]. done.
Qed.

#[export] Hint Resolve abs_item_bump : tinylink.

Lemma abs_new_item u t : abs_item (new_item (AS u) t) = Some (Spec.mkRecord u 0 t None).
Proof. done. Qed.

Lemma wf_table_insert t c it :
  wf_table t -> is_Some (abs_item it) -> wf_table (<[c := it]> t).
Proof. intros Hwf Hit. by apply map_Forall_insert_2. Qed.

Lemma wf_lookup_abs t c it :
  wf_table t -> t !! c = Some it -> exists r, abs_item it = Some r.
Proof. intros Hwf Hc. destruct (Hwf c it Hc) as [r Hr]. eauto. Qed.

#[export] Hint Resolve wf_table_insert map_Forall_delete : tinylink.

(** A world with one record, used by the witnesses. *)
Definition w_example : World :=
  mkWorld {[ "abc123" := new_item (AS "https://example.com") 1000 ]} 2000.

Lemma wf_w_example : wf_table (w_table w_example).
Proof. apply map_Forall_singleton. eexists. reflexivity. Qed.

(** ** Properties *)

(** C1: [createLink] on a code that is already stored fails with
    [ConditionalCheckFailed] and leaves the whole world unchanged: the
    first writer wins and a record is never overwritten. *)
Theorem createLink_no_overwrite c u w it :
  c <> "" -> w_table w !! c = Some it ->
  run (createLink (JStr c) (JStr u)) w = (Err ConditionalCheckFailed, w).
Proof. intros Hc Hit. rewrite run_createLink_str by done. rewrite Hit. done. Qed.

Lemma createLink_no_overwrite_witness :
  "abc123" <> "" /\
  w_table w_example !! "abc123" = Some (new_item (AS "https://example.com") 1000) /\
  run (createLink (JStr "abc123") (JStr "https://other.org")) w_example =
    (Err ConditionalCheckFailed, w_example).
Proof.
  split; [discriminate|]. split; [reflexivity|].
  apply (createLink_no_overwrite "abc123" "https://other.org" w_example
           (new_item (AS "https://example.com") 1000)); [discriminate | reflexivity].
Defined.

(** C5: on a table of well-formed records, [createLink] implements the
    contract's [create]: it reports the conflict without a change when the
    contract does, and otherwise stores exactly the record [create] adds
    ([clicks = 0], [createdAt = now]), keeping the table well formed. *)
Theorem createLink_refines c u w :
  c <> "" -> wf_table (w_table w) ->
  let '(r, w') := run (createLink (JStr c) (JStr u)) w in
  match Spec.create c u (w_clock w) (abs_table (w_table w)) with
  | inl _ => r = Err ConditionalCheckFailed /\ w' = w
  | inr m' => r = Ok tt /\ wf_table (w_table w') /\ abs_table (w_table w') = m'
  end.
Proof.
  intros Hc Hwf. rewrite run_createLink_str by done.
  unfold Spec.create. rewrite abs_table_lookup.
  destruct (w_table w !! c) as [it|] eqn:E; simpl.
  - destruct (wf_lookup_abs _ _ _ Hwf E) as [r Hr]. by rewrite Hr.
  - split; [done|]. split; [apply wf_table_insert; eauto|].
    unfold abs_table. by rewrite (omap_insert_Some _ _ _ _ _ (abs_new_item u (w_clock w))).
Qed.

Lemma createLink_refines_witness :
  "fresh01" <> "" /\ wf_table (w_table w_example) /\
  (let '(r, w') := run (createLink (JStr "fresh01") (JStr "https://a.io")) w_example in
   match Spec.create "fresh01" "https://a.io" (w_clock w_example)
           (abs_table (w_table w_example)) with
   | inl _ => r = Err ConditionalCheckFailed /\ w' = w_example
   | inr m' => r = Ok tt /\ wf_table (w_table w') /\ abs_table (w_table w') = m'
   end).
Proof.
  split; [discriminate|]. split; [exact wf_w_example|].
  exact (createLink_refines "fresh01" "https://a.io" w_example ltac:(discriminate) wf_w_example).
Defined.

(** C6: for a stored code, [incrementClick] implements the contract's
    [increment]: one atomic update adds exactly one click, sets
    [lastClickedAt] to the current time and changes nothing else. *)
Theorem incrementClick_refines c w :
  c <> "" -> wf_table (w_table w) -> is_Some (w_table w !! c) ->
  let '(r, w') := run (incrementClick c) w in
  r = Ok tt /\ wf_table (w_table w') /\
  inr (abs_table (w_table w')) = Spec.increment c (w_clock w) (abs_table (w_table w)).
Proof.
  intros Hc Hwf [it Hit]. destruct (wf_lookup_abs _ _ _ Hwf Hit) as [r Hr].
  assert (Habs : abs_table (w_table w) !! c = Some r)
    by (rewrite abs_table_lookup, Hit; exact Hr).
  rewrite run_incrementClick by done. rewrite Hit, set_table_table.
  unfold Spec.increment. rewrite Habs.
  split; [done|]. split.
  - apply wf_table_insert; [done|]. rewrite (abs_item_bump it r) by done. eauto.
  - unfold abs_table. by rewrite (omap_insert_Some _ _ _ _ _ (abs_item_bump it r (w_clock w) Hr)).
Qed.

Lemma incrementClick_refines_witness :
  "abc123" <> "" /\ wf_table (w_table w_example) /\ is_Some (w_table w_example !! "abc123") /\
  (let '(r, w') := run (incrementClick "abc123") w_example in
   r = Ok tt /\ wf_table (w_table w') /\
   inr (abs_table (w_table w')) =
     Spec.increment "abc123" (w_clock w_example) (abs_table (w_table w_example))).
Proof.
  assert (Hin : is_Some (w_table w_example !! "abc123")) by (eexists; reflexivity).
  split; [discriminate|]. split; [exact wf_w_example|]. split; [exact Hin|].
  exact (incrementClick_refines "abc123" w_example ltac:(discriminate) wf_w_example Hin).
Defined.

(** C7: where the contract answers [NotFound], [incrementClick] does not:
    UpdateItem on an absent code succeeds and creates an item with one
    click, a [lastClickedAt] and no [url] and no [createdAt], so the table
    is no longer a table of records. *)
Theorem incrementClick_absent_creates_ghost c w :
  c <> "" -> w_table w !! c = None ->
  Spec.increment c (w_clock w) (abs_table (w_table w)) = inl Spec.NotFound /\
  let '(r, w') := run (incrementClick c) w in
  r = Ok tt /\
  w_table w' !! c = Some (mkItem None (Some 1%Z) None (Some (w_clock w))) /\
  ~ wf_table (w_table w').
Proof.
  intros Hc Habs. rewrite run_incrementClick by done. simpl.
  unfold Spec.increment. rewrite abs_table_lookup, Habs. simpl.
  split; [done|]. split; [done|]. split; [by rewrite lookup_insert_eq|].
  intros Hwf. destruct (Hwf c _ (lookup_insert_eq _ _ _)) as [? Hr]. discriminate.
Qed.

Lemma incrementClick_absent_creates_ghost_witness :
  "zzz999" <> "" /\ w_table w_example !! "zzz999" = None /\
  (Spec.increment "zzz999" (w_clock w_example) (abs_table (w_table w_example))
     = inl Spec.NotFound /\
   let '(r, w') := run (incrementClick "zzz999") w_example in
   r = Ok tt /\
   w_table w' !! "zzz999" = Some (mkItem None (Some 1%Z) None (Some (w_clock w_example))) /\
   ~ wf_table (w_table w')).
Proof.
  split; [discriminate|]. split; [reflexivity|].
  apply incrementClick_absent_creates_ghost; [discriminate | reflexivity].
Defined.
