(* ===== verification/Url.v ===== *)
(** * [validUrl]: the WHATWG URL parser without a base URL

    [validUrl] ([src/pages/api/links/index.js] line 5) is
    [try { new URL(u); return true } catch { return false }]: it accepts
    exactly the strings [String(u)] on which the basic URL parser of the
    WHATWG URL standard, run without a base URL, does not return failure.
    The model follows the parser's states up to the points where it can
    fail: leading and trailing C0-or-space removal and tab/newline removal,
    the scheme state (failure without a scheme, since there is no base),
    the authority state (an [@] followed by an empty host), the host state
    (a special scheme needs a non-empty host without forbidden domain code
    points after percent-decoding; an opaque host must not contain a
    forbidden host code point) and the port state (digits only, at most
    65535).  Path, query and fragment states never fail.  IPv4 number
    parsing, IPv6 literals and IDNA (punycode) validation of the host are
    not modelled: a bracketed host is accepted as soon as it is closed, and
    every label is accepted as UTS 46 would map it. *)

From S2P Require Import Prelude JsValue Validate.
From Stdlib Require Import DecimalString.

Definition is_alpha (c : ascii) : bool := is_upper c || is_lower c.

Definition chr_is (n : N) (c : ascii) : bool := (code_of c =? n)%N.

Definition is_scheme_char (c : ascii) : bool :=
  is_alnum c || chr_is 43 c || chr_is 45 c || chr_is 46 c.     (* + - . *)

Definition is_c0_or_space (c : ascii) : bool := (code_of c <=? 32)%N.
Definition is_tab_or_newline (c : ascii) : bool := chr_is 9 c || chr_is 10 c || chr_is 13 c.

(** Forbidden host code points: NUL TAB LF CR SPACE # / : < > ? @ [ \ ] ^ |. *)
Definition forbidden_host (c : ascii) : bool :=
  existsb (fun n => chr_is n c) [0; 9; 10; 13; 32; 35; 47; 58; 60; 62; 63; 64; 91; 92; 93; 94; 124]%N.

(** Forbidden domain code points add the C0 controls, [%] and DEL. *)
Definition forbidden_domain (c : ascii) : bool :=
  forbidden_host c || (code_of c <=? 31)%N || chr_is 37 c || chr_is 127 c.

Definition is_special (scheme : list ascii) : bool :=
  existsb (fun s => bool_decide (scheme = list_ascii_of_string s))
          ["http"; "https"; "ws"; "wss"; "ftp"].

Fixpoint drop_while (p : ascii -> bool) (l : list ascii) : list ascii :=
  match l with
  | c :: l' => if p c then drop_while p l' else l
  | [] => []
  end.

(** Removal of leading and trailing C0 control or space, then of every
    ASCII tab or newline. *)
Definition preprocess (s : string) : list ascii :=
  List.filter (fun c => negb (is_tab_or_newline c))
    (rev (drop_while is_c0_or_space (rev (drop_while is_c0_or_space (list_ascii_of_string s))))).

(** The scheme state: scheme characters up to the first [:]. *)
Fixpoint scheme_state (l acc : list ascii) : option (list ascii * list ascii) :=
  match l with
  | [] => None
  | c :: l' =>
      if chr_is 58 c then Some (rev acc, l')
      else if is_scheme_char c then scheme_state l' (to_lower_char c :: acc)
      else None
  end.

(** The scheme start state: the first character must be an ASCII letter. *)
Definition split_scheme (l : list ascii) : option (list ascii * list ascii) :=
  match l with
  | c :: _ => if is_alpha c then scheme_state l [] else None
  | [] => None
  end.

(** Characters up to the first one satisfying [stop], and the rest. *)
Fixpoint break_at (stop : ascii -> bool) (l : list ascii) : list ascii * list ascii :=
  match l with
  | [] => ([], [])
  | c :: l' => if stop c then ([], l) else let '(a, b) := break_at stop l' in (c :: a, b)
  end.

Definition hex_val (c : ascii) : option N :=
  if is_digit c then Some (code_of c - 48)%N
  else if in_range 65 70 c then Some (code_of c - 55)%N
  else if in_range 97 102 c then Some (code_of c - 87)%N
  else None.

(** Percent-decoding: [%XX] with two hex digits becomes that byte. *)
Fixpoint percent_decode (l : list ascii) : list ascii :=
  match l with
  | c :: ((h :: k :: l'') as l') =>
      if chr_is 37 c then
        match hex_val h, hex_val k with
        | Some a, Some b => ascii_of_N (16 * a + b) :: percent_decode l''
        | _, _ => c :: percent_decode l'
        end
      else c :: percent_decode l'
  | _ => l
  end.

Definition digits_value (l : list ascii) : N :=
  fold_left (fun acc c => 10 * acc + (code_of c - 48))%N l 0%N.

(** The port state: an empty port, or digits whose value is at most 65535. *)
Definition port_ok (p : list ascii) : bool :=
  forallb is_digit p && (digits_value p <=? 65535)%N.

(** The host parser. *)
Definition host_ok (special : bool) (h : list ascii) : bool :=
  match h with
  | c :: _ =>
      if chr_is 91 c then bool_decide (last h = Some (ascii_of_N 93))
      else if special then negb (existsb forbidden_domain (percent_decode h))
      else negb (existsb forbidden_host h)
  | [] => negb special
  end.

(** Splits [host:port] at the first colon outside brackets. *)
Definition split_port (hp : list ascii) : list ascii * option (list ascii) :=
  match hp with
  | c :: _ =>
      if chr_is 91 c then
        let '(h, rest) := break_at (chr_is 93) hp in
        match rest with
        | b :: (col :: p) => if chr_is 58 col then (h ++ [b], Some p) else (h ++ [b] ++ col :: p, None)
        | b :: [] => (h ++ [b], None)
        | [] => (h, None)
        end
      else let '(h, rest) := break_at (chr_is 58) hp in
           match rest with _ :: p => (h, Some p) | [] => (h, None) end
  | [] => ([], None)
  end.

(** The authority, host and port states on the text up to the first
    [/], [?], [#] (and [\] for special schemes). *)
Definition authority_ok (special : bool) (auth : list ascii) : bool :=
  let at_signs := List.filter (chr_is 64) auth in
  let hp := match at_signs with
            | [] => auth
            | _ => rev (fst (break_at (chr_is 64) (rev auth)))
            end in
  let '(h, port) := split_port hp in
  match at_signs, hp with
  | _ :: _, [] => false
  | _, _ =>
      host_ok special h &&
      match port with
      | None => true
      | Some p => if special && bool_decide (h = []) then false else port_ok p
      end
  end.

Definition ends_authority (special : bool) (c : ascii) : bool :=
  chr_is 47 c || chr_is 63 c || chr_is 35 c || (special && chr_is 92 c).

Definition is_slash (c : ascii) : bool := chr_is 47 c || chr_is 92 c.

(** Does the basic URL parser, without a base, succeed on [s]? *)
Definition url_parses (s : string) : bool :=
  match split_scheme (preprocess s) with
  | None => false
  | Some (scheme, rest) =>
      if bool_decide (scheme = list_ascii_of_string "file") then
        match rest with
        | a :: b :: r =>
            if is_slash a && is_slash b then
              let host := fst (break_at (ends_authority true) r) in
              match host with [] => true | _ => host_ok true host end
            else true
        | _ => true
        end
      else if is_special scheme then
        authority_ok true (fst (break_at (ends_authority true) (drop_while is_slash rest)))
      else
        match rest with
        | a :: b :: r =>
            if chr_is 47 a && chr_is 47 b
            then authority_ok false (fst (break_at (ends_authority false) r))
            else true
        | _ => true
        end
  end.

(** [function validUrl(u){try{new URL(u);return true;}catch{return false;}}] *)
Definition validUrl (u : JsValue) : bool := url_parses (js_to_string u).

(** ** Lemmas on the preprocessing *)

Lemma drop_while_app p (a b : list ascii) c :
  p c = false -> drop_while p (a ++ c :: b) = drop_while p a ++ c :: b.
Proof. intros Hc. induction a as [|x a IH]; simpl; [by rewrite Hc|]. by destruct (p x). Qed.

Lemma drop_while_suffix p l : exists pre, l = pre ++ drop_while p l.
Proof.
  induction l as [|x l [pre IH]]; simpl; [by exists []|].
  destruct (p x); [exists (x :: pre); simpl; congruence | by exists []].
Qed.

(** Trailing removal keeps a prefix of its input. *)
Lemma strip_end_prefix p l : exists suf, l = rev (drop_while p (rev l)) ++ suf.
Proof.
  destruct (drop_while_suffix p (rev l)) as [pre Hpre]. exists (rev pre).
  rewrite <- rev_app_distr, <- Hpre, rev_involutive. done.
Qed.

Lemma preprocess_incl s x : In x (preprocess s) -> In x (list_ascii_of_string s).
Proof.
  unfold preprocess. rewrite filter_In. intros [Hx _].
  destruct (strip_end_prefix is_c0_or_space
              (drop_while is_c0_or_space (list_ascii_of_string s))) as [suf Hsuf].
  destruct (drop_while_suffix is_c0_or_space (list_ascii_of_string s)) as [pre Hpre].
  rewrite Hpre, Hsuf. apply in_or_app. right. apply in_or_app. by left.
Qed.

Lemma scheme_state_colon l acc r :
  scheme_state l acc = Some r -> In (ascii_of_N 58) l.
Proof.
  revert acc. induction l as [|c l IH]; intros acc; simpl; [discriminate|].
  destruct (chr_is 58 c) eqn:Hc.
  - intros _. left. unfold chr_is in Hc. apply N.eqb_eq in Hc.
    apply ascii_code_inj. rewrite Hc. reflexivity.
  - destruct (is_scheme_char c); [|discriminate]. intros H. right. eauto.
Qed.

(** A string whose first character is neither a letter nor removable has no
    scheme. *)

(** A string whose first character is neither removable space nor a tab
    keeps that character first. *)
Lemma preprocess_head c s :
  is_c0_or_space c = false -> is_tab_or_newline c = false ->
  exists l, preprocess (String c s) = c :: l.
Proof.
  intros Hsp Htab. unfold preprocess. simpl list_ascii_of_string. simpl drop_while.
  rewrite Hsp. simpl rev.
  rewrite (drop_while_app _ (rev (list_ascii_of_string s)) [] c Hsp).
  rewrite rev_app_distr. simpl. rewrite Htab. simpl. eauto.
Qed.

Lemma number_to_string_head n :
  exists c s, number_to_string n = String c s /\ is_alpha c = false /\
              is_c0_or_space c = false /\ is_tab_or_newline c = false.
Proof.
  unfold number_to_string, NilZero.string_of_int, NilZero.string_of_uint.
  destruct (Z.to_int n) as [d|d]; [destruct d | ]; simpl; eauto 10.
Qed.

Lemma list_ascii_of_string_app (a b : string) :
  list_ascii_of_string (a +:+ b) = list_ascii_of_string a ++ list_ascii_of_string b.
Proof. induction a as [|c a IH]; [done|]. exact (f_equal (cons c) IH). Qed.

(** After the trailing removal and the tab removal, a list that started
    with a non-tab character [c] is empty or still starts with [c]. *)
Lemma strip_filter_head c r :
  is_tab_or_newline c = false ->
  List.filter (fun x => negb (is_tab_or_newline x))
    (rev (drop_while is_c0_or_space (rev (c :: r)))) = [] \/
  exists t, List.filter (fun x => negb (is_tab_or_newline x))
    (rev (drop_while is_c0_or_space (rev (c :: r)))) = c :: t.
Proof.
  intros Hc. destruct (strip_end_prefix is_c0_or_space (c :: r)) as [suf Hsuf].
  destruct (rev (drop_while is_c0_or_space (rev (c :: r)))) as [|x t] eqn:E.
  - by left.
  - right. simpl in Hsuf. injection Hsuf as -> _. simpl. rewrite Hc. simpl. eauto.
Qed.

(** The scheme of [javascript:] URLs is parsed from a fixed prefix. *)
Lemma preprocess_javascript rest :
  preprocess ("javascript:" +:+ rest) =
    list_ascii_of_string "javascript:" ++
    List.filter (fun x => negb (is_tab_or_newline x))
      (rev (drop_while is_c0_or_space (rev (list_ascii_of_string rest)))).
Proof.
  unfold preprocess. rewrite list_ascii_of_string_app. simpl drop_while.
  rewrite <- !app_assoc. simpl app.
  rewrite (drop_while_app _ _ _ _ (eq_refl : is_c0_or_space ":" = false)).
  rewrite rev_app_distr. simpl. reflexivity.
Qed.

(** ** Properties *)

Lemma url_parses_colon s : url_parses s = true -> In (ascii_of_N 58) (list_ascii_of_string s).
Proof.
  unfold url_parses. destruct (split_scheme (preprocess s)) as [r|] eqn:Es; [intros _|discriminate].
  unfold split_scheme in Es. destruct (preprocess s) as [|c l] eqn:Ep; [discriminate|].
  destruct (is_alpha c); [|discriminate].
  apply preprocess_incl. rewrite Ep. eapply scheme_state_colon. exact Es.
Qed.

(** C8: [validUrl] parses [String(v)]: it accepts only strings and arrays,
    and only when that text contains a [:] (the end of a scheme), since
    the parser runs without a base URL.  [undefined], [null], numbers,
    booleans, other objects, relative paths and the empty string are all
    rejected; an array is parsed as its elements joined by commas, so
    [["https://a.io"]] is accepted (the witness). *)
Theorem validUrl_scheme v :
  validUrl v = true ->
  ((exists s, v = JStr s) \/ (exists vs, v = JArr vs)) /\
  In (ascii_of_N 58) (list_ascii_of_string (js_to_string v)).
Proof.
  intros H. split; [|exact (url_parses_colon _ H)]. revert H.
  destruct v as [| |b|n|s|vs|]; intros H; eauto; exfalso; revert H;
    unfold validUrl, url_parses; simpl js_to_string;
    [vm_compute; discriminate | vm_compute; discriminate | destruct b; vm_compute; discriminate | |
     vm_compute; discriminate].
  destruct (number_to_string_head n) as (c & s & -> & Ha & Hsp & Ht).
  destruct (preprocess_head c s Hsp Ht) as [l ->]. simpl. rewrite Ha. discriminate.
Qed.

Lemma validUrl_scheme_witness :
  validUrl (JArr [JStr "https://a.io"]) = true /\
  ((exists s, JArr [JStr "https://a.io"] = JStr s) \/ (exists vs, JArr [JStr "https://a.io"] = JArr vs)) /\
  In (ascii_of_N 58) (list_ascii_of_string (js_to_string (JArr [JStr "https://a.io"]))).
Proof.
  assert (H : validUrl (JArr [JStr "https://a.io"]) = true) by reflexivity.
  split; [exact H | exact (validUrl_scheme _ H)].
Defined.

(** C9: [validUrl] accepts every [javascript:] URL whose body does not
    start with [/] or a tab or newline: the server's check is "parses as a
    URL", not "is an http(s) URL", so such a target is stored and later
    served as a [Location] and rendered as a link on the dashboard. *)
Theorem validUrl_accepts_javascript rest :
  (forall c r, rest = String c r -> c <> "/"%char /\ is_tab_or_newline c = false) ->
  validUrl (JStr ("javascript:" +:+ rest)) = true.
Proof.
  intros Hrest. unfold validUrl, url_parses. simpl js_to_string.
  rewrite preprocess_javascript.
  remember (List.filter _ (rev (drop_while is_c0_or_space (rev (list_ascii_of_string rest)))))
    as t eqn:Ht.
  simpl. destruct rest as [|c r]; [by subst t|].
  destruct (Hrest c r eq_refl) as [Hslash Htab].
  destruct (strip_filter_head c (list_ascii_of_string r) Htab) as [E | [t' E]];
    simpl list_ascii_of_string in Ht; rewrite E in Ht; subst t; [reflexivity|].
  destruct t' as [|b t']; [reflexivity|].
  assert (chr_is 47 c = false) as ->.
  { destruct (chr_is 47 c) eqn:E47; [|done]. exfalso. apply Hslash.
    unfold chr_is in E47. apply N.eqb_eq in E47. apply ascii_code_inj. by rewrite E47. }
  reflexivity.
Qed.

Lemma validUrl_accepts_javascript_witness :
  (forall c r, "alert(1)" = String c r -> c <> "/"%char /\ is_tab_or_newline c = false) /\
  validUrl (JStr ("javascript:" +:+ "alert(1)")) = true.
Proof.
  assert (H : forall c r, "alert(1)" = String c r -> c <> "/"%char /\ is_tab_or_newline c = false).
  { intros c r [= <- <-]. split; [discriminate | reflexivity]. }
  split; [exact H | exact (validUrl_accepts_javascript _ H)].
Defined.
