(* ===== verification/Api.v ===== *)
(** * The request handlers

    The three server-side entry points, written against the [LinkStore]
    interface (the five functions of [src/lib/dynamo.js]) and proved against
    its laws [LinkStoreLaws]; [dynamo_store] and [dynamo_store_laws]
    discharge the interface with the DynamoDB model of [Dynamo].
    - [links_index]: [src/pages/api/links/index.js], [GET] and [POST];
    - [links_code]: [src/pages/api/links/[code].js], [GET] and [DELETE];
    - [redirect]: [getServerSideProps] of [src/pages/[code].js].
    An exception that escapes a handler (a rejected store call that is
    awaited outside a [try], or [res.writeHead] throwing) is Next.js's
    500 response, [RServerError]. *)

From S2P Require Import Prelude JsValue Validate Url Dynamo.

(** ** The interface between the handlers and the store *)

Class LinkStore := {
  store_createLink : JsValue -> JsValue -> Prog (res unit);
  store_getLink : string -> Prog (res (option Item));
  store_listLinks : Prog (res (list Link));
  store_deleteLink : string -> Prog (res unit);
  store_incrementClick : string -> Prog (res unit)
}.

(** The conditional put of [createLink], as a function of the world. *)
Definition create_outcome (c u : JsValue) (w : World) : res unit * World :=
  match marshall c, marshall u with
  | Ok k, Ok v => exec_op (PutItem k (new_item v (w_clock w)) true) w
  | Err e, _ | _, Err e => (Err e, w)
  end.

Class LinkStoreLaws `{LinkStore} := {
  law_create c u w : run (store_createLink c u) w = create_outcome c u w;
  law_get c w : c <> "" -> run (store_getLink c) w = (Ok (w_table w !! c), w);
  law_list w : run store_listLinks w = (Ok (scan_page (map_to_list (w_table w))), w);
  law_delete c w : c <> "" ->
    run (store_deleteLink c) w = (Ok tt, set_table (delete c (w_table w)) w);
  law_increment c w : c <> "" ->
    run (store_incrementClick c) w =
      (Ok tt, set_table (<[c := bump (w_clock w) (w_table w !! c)]> (w_table w)) w)
}.

#[export] Instance dynamo_store : LinkStore := {|
  store_createLink := createLink;
  store_getLink := getLink;
  store_listLinks := listLinks;
  store_deleteLink := deleteLink;
  store_incrementClick := incrementClick
|}.

#[export] Instance dynamo_store_laws : LinkStoreLaws.
Proof.
  split; simpl.
  - intros c u w. unfold createLink, create_outcome, call. cbn [run bind].
    destruct (marshall c), (marshall u); simpl; try done.
    destruct (key_of _); [destruct (bool_decide _)|]; done.
  - apply run_getLink.
  - apply run_listLinks.
  - apply run_deleteLink.
  - apply run_incrementClick.
Qed.

(** ** Requests and responses *)

Record Request := mkRequest {
  req_method : string;
  req_query_code : string;     (** [req.query.code] of the dynamic route *)
  req_body_url : JsValue;      (** [req.body.url] *)
  req_body_code : JsValue      (** [req.body.code] *)
}.

Inductive Body :=
  | BLinks (l : list Link)
  | BLink (l : Link)
  | BCreated (code url : JsValue)
  | BError (msg : string)
  | BSuccess.

Inductive Response :=
  | RJson (status : Z) (b : Body)      (** [res.status(s).json(b)] *)
  | REnd (status : Z)                  (** [res.status(s).end()] *)
  | RRedirect (status : Z) (locs : list string)
      (** [res.writeHead(s, {Location})], one header line per value *)
  | RNotFoundPage                      (** [{ notFound: true }] *)
  | RServerError.                      (** an exception escaped: 500 *)

(** [String(e)] of the errors the AWS SDK and [marshall] throw. *)
Definition err_message (e : DynErr) : string :=
  match e with
  | ConditionalCheckFailed => "ConditionalCheckFailedException: The conditional request failed"
  | ValidationException => "ValidationException: One or more parameter values were invalid"
  | MarshallError => "Error: Pass options.removeUndefinedValues=true to remove undefined values"
  | ServiceError => "ServiceUnavailable: Service Unavailable"
  end.

(** The [Location] header lines [res.writeHead] writes for
    [Location: link.url]: Node writes one line per element of an array and
    otherwise one line, each the [String] of the unmarshalled value. *)
Definition location_value (a : option AttrVal) : option (list string) :=
  match a with
  | None => None                                (** [undefined] *)
  | Some (AL vs) => Some (map (fun e => js_to_string (unmarshall_attr e)) vs)
  | Some v => Some [js_to_string (unmarshall_attr v)]
  end.

(** Node's header-value check: TAB, 0x20-0x7E and 0x80-0xFF only. *)
Definition header_char_ok (c : ascii) : bool :=
  (code_of c =? 9)%N || in_range 32 126 c || (128 <=? code_of c)%N.

Definition header_value_ok (s : string) : bool := string_forallb header_char_ok s.

Section Handlers.
Context `{LinkStore}.

  (** [src/pages/api/links/index.js]; [rand] holds the six values
      [crypto.getRandomValues(new Uint8Array(6))] returns. *)
Definition links_index (req : Request) (rand : list Byte.byte) : Prog Response :=
    if req_method req === "GET" then
      r <- store_listLinks ;;
      match r with
      | Ok l => Ret (RJson 200 (BLinks l))
      | Err _ => Ret RServerError
      end
    else if req_method req === "POST" then
      let url := req_body_url req in
      let code := req_body_code req in
      if negb (validUrl url) then Ret (RJson 400 (BError "Invalid URL"))
      else if truthy code && negb (validCode code) then Ret (RJson 400 (BError "Invalid code"))
      else
        let c := if truthy code then code else JStr (genCode rand) in
        r <- store_createLink c url ;;
        match r with
        | Ok _ => Ret (RJson 201 (BCreated c url))
        | Err e =>
            if js_includes (err_message e) "ConditionalCheckFailed"
            then Ret (RJson 409 (BError "Code exists"))
            else Ret (RJson 500 (BError "Internal"))
        end
    else Ret (REnd 405).

  (** [src/pages/api/links/[code].js] *)
Definition links_code (req : Request) : Prog Response :=
    let code := req_query_code req in
    if req_method req === "GET" then
      r <- store_getLink code ;;
      match r with
      | Err _ => Ret RServerError
      | Ok None => Ret (RJson 404 (BError "Not found"))
      | Ok (Some it) => Ret (RJson 200 (BLink (code, it)))
      end
    else if req_method req === "DELETE" then
      r <- store_getLink code ;;
      match r with
      | Err _ => Ret RServerError
      | Ok None => Ret (RJson 404 (BError "Not found"))
      | Ok (Some _) =>
          d <- store_deleteLink code ;;
          match d with
          | Err _ => Ret RServerError
          | Ok _ => Ret (RJson 200 BSuccess)
          end
      end
    else Ret (REnd 405).

  (** [getServerSideProps] of [src/pages/[code].js]: the increment is
      spawned before [writeHead], and its rejection is swallowed. *)
Definition redirect (code : string) : Prog Response :=
    r <- store_getLink code ;;
    match r with
    | Err _ => Ret RServerError
    | Ok None => Ret RNotFoundPage
    | Ok (Some link) =>
        Spawn (_ <- store_incrementClick code ;; Ret tt)
          (match location_value (it_url link) with
           | Some locs =>
               if forallb header_value_ok locs then Ret (RRedirect 302 locs) else Ret RServerError
           | None => Ret RServerError
           end)
    end.
End Handlers.

(** Can the stored [url] be sent as a [Location] header? *)
Definition sendable (it : Item) : bool :=
  match location_value (it_url it) with
  | Some locs => forallb header_value_ok locs
  | None => false
  end.

(** The table after one click on [c] at the world's time. *)
Definition clicked (c : string) (w : World) : World :=
  set_table (<[c := bump (w_clock w) (w_table w !! c)]> (w_table w)) w.

Section HandlerLaws.
Context `{LinkStoreLaws}.

Lemma run_get_bind {B} c (k : res (option Item) -> Prog B) w :
    c <> "" -> run (bind (store_getLink c) k) w = run (k (Ok (w_table w !! c))) w.
  Proof. intros Hc. rewrite run_bind, law_get by done. reflexivity. Qed.

Lemma run_delete_bind {B} c (k : res unit -> Prog B) w :
    c <> "" -> run (bind (store_deleteLink c) k) w =
               run (k (Ok tt)) (set_table (delete c (w_table w)) w).
  Proof. intros Hc. rewrite run_bind, law_delete by done. reflexivity. Qed.

Lemma run_create_bind {B} c u (k : res unit -> Prog B) w :
    run (bind (store_createLink c u) k) w =
      let '(r, w') := create_outcome c u w in run (k r) w'.
  Proof. rewrite run_bind, law_create. reflexivity. Qed.

Lemma run_spawn_increment {B} c (k : Prog B) w :
    c <> "" -> run (Spawn (_ <- store_incrementClick c ;; Ret tt) k) w = run k (clicked c w).
  Proof. intros Hc. simpl. rewrite run_bind, law_increment by done. reflexivity. Qed.

Lemma create_outcome_fresh_val c url a w :
    c <> "" -> marshall url = Ok a -> w_table w !! c = None ->
    create_outcome (JStr c) url w =
      (Ok tt, set_table (<[c := new_item a (w_clock w)]> (w_table w)) w).
  Proof. intros Hc Ha Hn. unfold create_outcome, exec_op. rewrite Ha. cbn [marshall]. rewrite key_of_AS by done. by rewrite Hn. Qed.

Lemma create_outcome_fresh c u w :
    c <> "" -> w_table w !! c = None ->
    create_outcome (JStr c) (JStr u) w =
      (Ok tt, set_table (<[c := new_item (AS u) (w_clock w)]> (w_table w)) w).
  Proof. intros Hc Hn. by apply create_outcome_fresh_val. Qed.

Lemma create_outcome_taken_val c url a w it :
    c <> "" -> marshall url = Ok a -> w_table w !! c = Some it ->
    create_outcome (JStr c) url w = (Err ConditionalCheckFailed, w).
  Proof. intros Hc Ha Hs. unfold create_outcome, exec_op. rewrite Ha. cbn [marshall]. rewrite key_of_AS by done. by rewrite Hs. Qed.

Lemma create_outcome_taken c u w it :
    c <> "" -> w_table w !! c = Some it ->
    create_outcome (JStr c) (JStr u) w = (Err ConditionalCheckFailed, w).
  Proof. intros Hc Hs. by eapply create_outcome_taken_val. Qed.
End HandlerLaws.

#[export] Hint Rewrite @run_get_bind @run_delete_bind @run_create_bind
  @run_spawn_increment using done : tinylink_rw.

Lemma genCode_nonempty rand : length rand = 6 -> genCode rand <> "".
Proof. intros Hlen He. pose proof (genCode_length rand) as Hl. rewrite He, Hlen in Hl. discriminate. Qed.

Lemma conditional_check_message e :
  js_includes (err_message e) "ConditionalCheckFailed" = true <-> e = ConditionalCheckFailed.
Proof. destruct e; vm_compute; split; congruence. Qed.

Definition post_req (url code : JsValue) : Request := mkRequest "POST" "" url code.
Definition delete_req (c : string) : Request := mkRequest "DELETE" c JUndef JUndef.
Definition get_req (c : string) : Request := mkRequest "GET" c JUndef JUndef.

Section HandlerRuns.
Context `{LinkStoreLaws}.

Lemma run_post_fresh u rand w :
    validUrl (JStr u) = true -> length rand = 6 -> w_table w !! genCode rand = None ->
    run (links_index (post_req (JStr u) JUndef) rand) w =
      (RJson 201 (BCreated (JStr (genCode rand)) (JStr u)),
       set_table (<[genCode rand := new_item (AS u) (w_clock w)]> (w_table w)) w).
  Proof.
    intros Hurl Hlen Hfresh.
    unfold links_index. cbn -[validUrl validCode genCode]. rewrite Hurl.
    cbn -[validUrl validCode genCode]. rewrite run_create_bind.
    rewrite create_outcome_fresh by auto using genCode_nonempty. reflexivity.
  Qed.

Lemma run_delete_present c it w :
    c <> "" -> w_table w !! c = Some it ->
    run (links_code (delete_req c)) w = (RJson 200 BSuccess, set_table (delete c (w_table w)) w).
  Proof.
    intros Hc Hit. unfold links_code. cbn -[String.eqb]. simpl String.eqb.
    cbv iota. rewrite run_get_bind, Hit by done. cbv beta iota.
    rewrite run_delete_bind by done. reflexivity.
  Qed.

Lemma run_code_absent meth c w :
    c <> "" -> w_table w !! c = None -> (meth = "GET" \/ meth = "DELETE") ->
    run (links_code (mkRequest meth c JUndef JUndef)) w = (RJson 404 (BError "Not found"), w).
  Proof.
    intros Hc Hn [-> | ->]; unfold links_code; cbn -[String.eqb]; simpl String.eqb;
      cbv iota; rewrite run_get_bind, Hn by done; reflexivity.
  Qed.

Lemma run_get_present c it w :
    c <> "" -> w_table w !! c = Some it ->
    run (links_code (get_req c)) w = (RJson 200 (BLink (c, it)), w).
  Proof.
    intros Hc Hit. unfold links_code. cbn -[String.eqb]. simpl String.eqb.
    cbv iota. rewrite run_get_bind, Hit by done. reflexivity.
  Qed.
End HandlerRuns.

Section HandlerProps.
Context `{LinkStoreLaws}.

  (** C10: [POST /api/links] without a code, with a string url [u] that
      [validUrl] accepts and a free generated code, answers 201 with the
      generated code, and a following [GET /api/links/{code}] returns the
      record [{url: u, clicks: 0, createdAt: now}] with no [lastClickedAt]
      (spec section 8, first scenario). *)
Theorem post_then_get u rand w :
    validUrl (JStr u) = true -> length rand = 6 -> w_table w !! genCode rand = None ->
    let '(r1, w1) := run (links_index (post_req (JStr u) JUndef) rand) w in
    r1 = RJson 201 (BCreated (JStr (genCode rand)) (JStr u)) /\
    fst (run (links_code (get_req (genCode rand))) w1) =
      RJson 200 (BLink (genCode rand, mkItem (Some (AS u)) (Some 0%Z) (Some (w_clock w)) None)).
  Proof.
    intros Hurl Hlen Hfresh.
    rewrite (run_post_fresh u rand w Hurl Hlen Hfresh). split; [done|].
    rewrite (run_get_present (genCode rand) (new_item (AS u) (w_clock w)));
      [done | auto using genCode_nonempty |].
    by rewrite set_table_table, lookup_insert_eq.
  Qed.

  (** C11: a [POST] whose url [validUrl] rejects is answered 400 before
      any store call: the handler is the constant program that answers
      [Invalid URL] (spec section 8, third scenario). *)
Theorem post_invalid_url url code rand :
    validUrl url = false ->
    links_index (post_req url code) rand = Ret (RJson 400 (BError "Invalid URL")).
  Proof. intros Hurl. unfold links_index. cbn -[validUrl]. by rewrite Hurl. Qed.
End HandlerProps.

Lemma validCode_str_nonempty c : validCode (JStr c) = true -> c <> "".
Proof. intros Hv ->. discriminate. Qed.

Lemma truthy_nonempty c : c <> "" -> truthy (JStr c) = true.
Proof. intros Hc. by apply truthy_str. Qed.

Lemma validCode_num_nonzero n : validCode (JNum n) = true -> n <> 0%Z.
Proof. intros Hv ->. discriminate. Qed.

Section HandlerProps2.
Context `{LinkStoreLaws}.

  (** C12: a [POST] with a well-formed custom code that is already stored
      is answered 409 [Code exists] and changes nothing, whatever url
      [validUrl] accepts in a JSON body. *)
Theorem post_existing_code url c rand w it :
    json_value url = true ->
    validUrl url = true -> validCode (JStr c) = true -> w_table w !! c = Some it ->
    run (links_index (post_req url (JStr c)) rand) w = (RJson 409 (BError "Code exists"), w).
  Proof.
    intros Hj Hurl Hcode Hit. pose proof (validCode_str_nonempty _ Hcode) as Hc.
    destruct (marshall_json url Hj) as [a Ha].
    unfold links_index. cbn -[validUrl validCode truthy]. rewrite Hurl, Hcode, truthy_nonempty by done.
    cbn -[validUrl validCode truthy]. rewrite run_create_bind.
    rewrite (create_outcome_taken_val c url a w it) by done. reflexivity.
  Qed.

  (** C13: [validCode] converts its argument with [String(c)], so a JSON
      number with six to eight digits passes the 400 check; [marshall]
      then makes the key a number, DynamoDB rejects it with a
      [ValidationException], and the client gets 500 instead of 400. *)
Theorem post_numeric_code url n rand w :
    validUrl url = true -> validCode (JNum n) = true ->
    run (links_index (post_req url (JNum n)) rand) w = (RJson 500 (BError "Internal"), w).
  Proof.
    intros Hurl Hcode. pose proof (validCode_num_nonzero _ Hcode) as Hn.
    unfold links_index. cbn -[validUrl validCode marshall]. rewrite Hurl, Hcode.
    rewrite (proj2 (Z.eqb_neq n 0) Hn). cbn -[validUrl validCode marshall].
    rewrite run_create_bind. unfold create_outcome. cbn [marshall].
    destruct (marshall url) as [a|e] eqn:Em; [reflexivity|].
    rewrite (marshall_err _ _ Em). reflexivity.
  Qed.

  (** C14: deleting a stored code twice in a row answers 200 then 404,
      and the second call changes nothing (spec section 8). *)
Theorem delete_twice c it w :
    c <> "" -> w_table w !! c = Some it ->
    let '(r1, w1) := run (links_code (delete_req c)) w in
    let '(r2, w2) := run (links_code (delete_req c)) w1 in
    r1 = RJson 200 BSuccess /\ r2 = RJson 404 (BError "Not found") /\
    w2 = set_table (delete c (w_table w)) w.
  Proof.
    intros Hc Hit. rewrite (run_delete_present c it w) by done. cbv beta iota.
    unfold delete_req. rewrite (run_code_absent "DELETE" c);
      [done | done | by rewrite set_table_table, lookup_delete_eq | by right].
  Qed.

  (** C15: the redirect of a stored code whose url can be sent as a
      header answers 302 to that url and, through the spawned increment,
      leaves the record with one more click and [lastClickedAt = now]. *)
Theorem redirect_found c it w :
    c <> "" -> w_table w !! c = Some it -> sendable it = true ->
    exists loc, location_value (it_url it) = Some loc /\
    run (redirect c) w = (RRedirect 302 loc, clicked c w).
  Proof.
    intros Hc Hit Hs. unfold sendable in Hs.
    destruct (location_value (it_url it)) as [loc|] eqn:Hloc; [|discriminate].
    exists loc. split; [done|]. unfold redirect.
    rewrite run_get_bind, Hit by done. cbv beta iota.
    rewrite run_spawn_increment by done. rewrite Hloc, Hs. reflexivity.
  Qed.

  (** C16: when the stored url cannot be a header value (a ghost item
      without url, or a url with a control character that [new URL]
      skipped), the redirect still counts the click but answers 500. *)
Theorem redirect_unsendable c it w :
    c <> "" -> w_table w !! c = Some it -> sendable it = false ->
    run (redirect c) w = (RServerError, clicked c w).
  Proof.
    intros Hc Hit Hs. unfold sendable in Hs. unfold redirect.
    rewrite run_get_bind, Hit by done. cbv beta iota.
    rewrite run_spawn_increment by done.
    destruct (location_value (it_url it)) as [loc|]; [rewrite Hs|]; reflexivity.
  Qed.

  (** C17: the redirect of a code that is not stored answers the
      not-found page, spawns no increment and changes nothing (spec
      section 8, second scenario). *)
Theorem redirect_missing c w :
    c <> "" -> w_table w !! c = None -> run (redirect c) w = (RNotFoundPage, w).
  Proof. intros Hc Hn. unfold redirect. rewrite run_get_bind, Hn by done. reflexivity. Qed.
End HandlerProps2.

(** ** Witnesses, on the DynamoDB instance *)

Definition rand_example : list Byte.byte :=
  [Byte.x07; Byte.x1a; Byte.x33; Byte.x3e; Byte.x40; Byte.x41].

(** A url [new URL] accepts (the newline is skipped by the parser) that is
    not a valid header value. *)
Definition url_with_newline : string :=
  "https://a.io/x" +:+ String (ascii_of_nat 10) "y".

Definition w_newline : World :=
  mkWorld {[ "nl0001" := new_item (AS url_with_newline) 1000 ]} 2000.

Lemma post_then_get_witness :
  validUrl (JStr "https://example.com") = true /\ length rand_example = 6 /\
  w_table w_example !! genCode rand_example = None /\
  let '(r1, w1) := run (links_index (post_req (JStr "https://example.com") JUndef) rand_example)
                       w_example in
  r1 = RJson 201 (BCreated (JStr (genCode rand_example)) (JStr "https://example.com")) /\
  fst (run (links_code (get_req (genCode rand_example))) w1) =
    RJson 200 (BLink (genCode rand_example,
                      mkItem (Some (AS "https://example.com")) (Some 0%Z) (Some (w_clock w_example)) None)).
Proof.
  assert (H1 : validUrl (JStr "https://example.com") = true) by reflexivity.
  assert (H2 : length rand_example = 6) by reflexivity.
  assert (H3 : w_table w_example !! genCode rand_example = None) by reflexivity.
  split; [exact H1|]. split; [exact H2|]. split; [exact H3|].
  exact (post_then_get _ _ _ H1 H2 H3).
Defined.

Lemma post_invalid_url_witness :
  validUrl (JStr "not-a-url") = false /\
  links_index (post_req (JStr "not-a-url") (JStr "abc123")) rand_example =
    Ret (RJson 400 (BError "Invalid URL")).
Proof.
  assert (H : validUrl (JStr "not-a-url") = false) by reflexivity.
  split; [exact H | exact (post_invalid_url _ _ _ H)].
Defined.

Lemma post_existing_code_witness :
  json_value (JStr "https://x.org") = true /\
  validUrl (JStr "https://x.org") = true /\ validCode (JStr "abc123") = true /\
  w_table w_example !! "abc123" = Some (new_item (AS "https://example.com") 1000) /\
  run (links_index (post_req (JStr "https://x.org") (JStr "abc123")) rand_example) w_example =
    (RJson 409 (BError "Code exists"), w_example).
Proof.
  assert (H1 : validUrl (JStr "https://x.org") = true) by reflexivity.
  assert (H2 : validCode (JStr "abc123") = true) by reflexivity.
  assert (H3 : w_table w_example !! "abc123" = Some (new_item (AS "https://example.com") 1000))
    by reflexivity.
  split; [reflexivity|]. split; [exact H1|]. split; [exact H2|]. split; [exact H3|].
  exact (post_existing_code (JStr "https://x.org") _ _ _ _ eq_refl H1 H2 H3).
Defined.

Lemma post_numeric_code_witness :
  validUrl (JStr "https://x.org") = true /\ validCode (JNum 1234567) = true /\
  run (links_index (post_req (JStr "https://x.org") (JNum 1234567)) rand_example) w_example =
    (RJson 500 (BError "Internal"), w_example).
Proof.
  assert (H1 : validUrl (JStr "https://x.org") = true) by reflexivity.
  assert (H2 : validCode (JNum 1234567) = true) by reflexivity.
  split; [exact H1|]. split; [exact H2|].
  exact (post_numeric_code _ _ _ _ H1 H2).
Defined.

Lemma delete_twice_witness :
  "abc123" <> "" /\
  w_table w_example !! "abc123" = Some (new_item (AS "https://example.com") 1000) /\
  let '(r1, w1) := run (links_code (delete_req "abc123")) w_example in
  let '(r2, w2) := run (links_code (delete_req "abc123")) w1 in
  r1 = RJson 200 BSuccess /\ r2 = RJson 404 (BError "Not found") /\
  w2 = set_table (delete "abc123" (w_table w_example)) w_example.
Proof.
  assert (H1 : "abc123" <> "") by discriminate.
  assert (H2 : w_table w_example !! "abc123" = Some (new_item (AS "https://example.com") 1000))
    by reflexivity.
  split; [exact H1|]. split; [exact H2|].
  exact (delete_twice _ _ _ H1 H2).
Defined.

Lemma redirect_found_witness :
  "abc123" <> "" /\
  w_table w_example !! "abc123" = Some (new_item (AS "https://example.com") 1000) /\
  sendable (new_item (AS "https://example.com") 1000) = true /\
  exists loc, location_value (it_url (new_item (AS "https://example.com") 1000)) = Some loc /\
  run (redirect "abc123") w_example = (RRedirect 302 loc, clicked "abc123" w_example).
Proof.
  assert (H1 : "abc123" <> "") by discriminate.
  assert (H2 : w_table w_example !! "abc123" = Some (new_item (AS "https://example.com") 1000))
    by reflexivity.
  assert (H3 : sendable (new_item (AS "https://example.com") 1000) = true) by reflexivity.
  split; [exact H1|]. split; [exact H2|]. split; [exact H3|].
  exact (redirect_found _ _ _ H1 H2 H3).
Defined.

Lemma redirect_unsendable_witness :
  validUrl (JStr url_with_newline) = true /\
  "nl0001" <> "" /\
  w_table w_newline !! "nl0001" = Some (new_item (AS url_with_newline) 1000) /\
  sendable (new_item (AS url_with_newline) 1000) = false /\
  run (redirect "nl0001") w_newline = (RServerError, clicked "nl0001" w_newline).
Proof.
  assert (H1 : "nl0001" <> "") by discriminate.
  assert (H2 : w_table w_newline !! "nl0001" = Some (new_item (AS url_with_newline) 1000))
    by reflexivity.
  assert (H3 : sendable (new_item (AS url_with_newline) 1000) = false) by reflexivity.
  split; [reflexivity|]. split; [exact H1|]. split; [exact H2|]. split; [exact H3|].
  exact (redirect_unsendable _ _ _ H1 H2 H3).
Defined.

Lemma redirect_missing_witness :
  "zzz999" <> "" /\ w_table w_example !! "zzz999" = None /\
  run (redirect "zzz999") w_example = (RNotFoundPage, w_example).
Proof.
  assert (H1 : "zzz999" <> "") by discriminate.
  assert (H2 : w_table w_example !! "zzz999" = None) by reflexivity.
  split; [exact H1|]. split; [exact H2|]. exact (redirect_missing _ _ H1 H2).
Defined.
