(* ===== verification/Race.v ===== *)
(** * Concurrent requests over the shared table

    Next.js runs every request's handler concurrently; the handlers share
    only the DynamoDB table, and each store call is one atomic command.  A
    system state holds the world, one thread per running handler (and one
    per spawned [incrementClick]) and a log of the commands committed so
    far, newest first, with the result each returned (ghost state: the code
    has no log).  A step runs one store call of one thread atomically, lets
    one store call fail with a service error, runs a [Spawn], or advances
    the clock.  [step] is that relation; [run_sched] is its executable
    version along an explicit schedule.

    The theorems: invariants of every reachable state by rule induction,
    for any threads (at most one conditional put of a code succeeds
    between deletes; every committed increment is counted), which
    [RaceApi] lifts to the answers of the request handlers, and concrete
    schedules that reach states the spec rules out (a deleted record resurrected without url by
    a racing redirect, two deletes that both succeed, a [lastClickedAt]
    that moves back in time, a failed increment that loses a click without
    a trace). *)

From S2P Require Import Prelude JsValue Validate Url Dynamo Api.

(** ** One step of a program *)

(** The first action of a program, with the result type as a parameter. *)
Inductive ProgView (A : Type) :=
  | VRet (a : A)
  | VCall {R} (o : Op R) (k : R -> Prog A)
  | VSpawn (q : Prog unit) (k : Prog A).
Arguments VRet {A} a.
Arguments VCall {A R} o k.
Arguments VSpawn {A} q k.

Definition view {A} (p : Prog A) : ProgView A :=
  match p in Prog A0 return ProgView A0 with
  | Ret a => VRet a
  | Call o k => VCall o k
  | Spawn q k => VSpawn q k
  end.

(** A committed command and the result it returned, or a clock tick. *)
Inductive Entry :=
  | ECommit {R} (o : Op R) (r : R)
  | ETick.

Inductive Mode := Normal | Fault.

(** The result a store call returns when the service fails. *)
Definition fault_result {R} (o : Op R) : option R :=
  match o in Op R return option R with
  | OpNow => None
  | PutItem _ _ _ | DeleteItem _ | UpdateClick _ _ => Some (Err ServiceError)
  | GetItem _ => Some (Err ServiceError)
  | ScanTable => Some (Err ServiceError)
  end.

Definition prog_step {A} (m : Mode) (p : Prog A) (w : World)
    : option (Prog A * option (Prog unit) * World * option Entry) :=
  match view p with
  | VRet _ => None
  | VCall o k =>
      match m with
      | Normal => let '(r, w') := exec_op o w in Some (k r, None, w', Some (ECommit o r))
      | Fault =>
          match fault_result o with
          | Some r => Some (k r, None, w, None)
          | None => None
          end
      end
  | VSpawn q k => Some (k, Some q, w, None)
  end.

(** ** Threads and systems *)

Inductive Thread :=
  | TReq (p : Prog Response)   (** a request handler *)
  | TBg (p : Prog unit).       (** a spawned call nobody awaits *)

Record Sys := mkSys {
  s_world : World;
  s_threads : list Thread;
  s_log : list Entry
}.

Definition thread_step (m : Mode) (t : Thread) (w : World)
    : option (Thread * option Thread * World * option Entry) :=
  match t with
  | TReq p =>
      match prog_step m p w with
      | Some (p', sp, w', e) => Some (TReq p', option_map TBg sp, w', e)
      | None => None
      end
  | TBg p =>
      match prog_step m p w with
      | Some (p', sp, w', e) => Some (TBg p', option_map TBg sp, w', e)
      | None => None
      end
  end.

Definition option_list {A} (o : option A) : list A :=
  match o with Some a => [a] | None => [] end.

(** Thread [i] takes one step; a spawned thread joins at the end. *)
Definition sys_step (i : nat) (m : Mode) (s : Sys) : option Sys :=
  match s_threads s !! i with
  | None => None
  | Some t =>
      match thread_step m t (s_world s) with
      | None => None
      | Some (t', sp, w', e) =>
          Some (mkSys w' (<[i := t']> (s_threads s) ++ option_list sp)
                      (option_list e ++ s_log s))
      end
  end.

Definition tick (s : Sys) : Sys :=
  mkSys (mkWorld (w_table (s_world s)) (w_clock (s_world s) + 1)) (s_threads s)
        (ETick :: s_log s).

Inductive step : Sys -> Sys -> Prop :=
  | step_thread i m s s' : sys_step i m s = Some s' -> step s s'
  | step_tick s : step s (tick s).

Definition init (w : World) (ts : list Thread) : Sys := mkSys w ts [].

(** A schedule: [Some (i, m)] steps thread [i] in mode [m], [None] ticks. *)
Fixpoint run_sched (sch : list (option (nat * Mode))) (s : Sys) : Sys :=
  match sch with
  | [] => s
  | None :: sch' => run_sched sch' (tick s)
  | Some (i, m) :: sch' =>
      match sys_step i m s with
      | Some s' => run_sched sch' s'
      | None => run_sched sch' s
      end
  end.

(** Every state a schedule reaches is reachable. *)
Lemma run_sched_reachable sch s : rtc step s (run_sched sch s).
Proof.
  revert s. induction sch as [|[[i m]|] sch IH]; intros s; simpl.
  - apply rtc_refl.
  - destruct (sys_step i m s) as [s'|] eqn:E; [|apply IH].
    eapply rtc_l; [by econstructor | apply IH].
  - eapply rtc_l; [apply step_tick | apply IH].
Qed.

(** ** What a step does to the world *)

(** A step leaves the world as it was unless it commits a command, and a
    committed command changes it as [exec_op] does. *)
Lemma prog_step_world {A} m (p : Prog A) w p' sp w' e :
  prog_step m p w = Some (p', sp, w', e) ->
  match e with
  | Some (ECommit o r) => exec_op o w = (r, w')
  | Some ETick => False
  | None => w' = w
  end.
Proof.
  unfold prog_step. destruct (view p) as [a|R o k|q k]; [discriminate| |].
  - destruct m.
    + destruct (exec_op o w) as [r w''] eqn:E. intros [= _ _ <- <-]. done.
    + destruct (fault_result o); [|discriminate]. intros [= _ _ <- <-]. done.
  - intros [= _ _ <- <-]. done.
Qed.

Lemma sys_step_world i m s s' :
  sys_step i m s = Some s' ->
  (s_log s' = s_log s /\ s_world s' = s_world s) \/
  exists R (o : Op R) r, s_log s' = ECommit o r :: s_log s /\ exec_op o (s_world s) = (r, s_world s').
Proof.
  unfold sys_step. destruct (s_threads s !! i) as [t|]; [|discriminate].
  destruct (thread_step m t (s_world s)) as [[[[t' sp] w'] e]|] eqn:Ht; [|discriminate].
  intros [= <-]. simpl.
  assert (He : match e with
               | Some (ECommit o r) => exec_op o (s_world s) = (r, w')
               | Some ETick => False
               | None => w' = s_world s
               end).
  { destruct t as [p|p]; simpl in Ht;
      destruct (prog_step m p (s_world s)) as [[[[p' sp'] w''] e']|] eqn:Hp; try discriminate;
      injection Ht as _ _ <- <-; exact (prog_step_world _ _ _ _ _ _ _ Hp). }
  destruct e as [[R o r|]|]; simpl; [right; eauto 6 | done | left; done].
Qed.

(** ** Invariants of the committed log, by rule induction *)

Section LogInvariant.
Variable Q : list Entry -> World -> Prop.
Hypothesis Q_tick : forall l w, Q l w -> Q (ETick :: l) (mkWorld (w_table w) (w_clock w + 1)).
Hypothesis Q_commit : forall l w R (o : Op R) r w',
    Q l w -> exec_op o w = (r, w') -> Q (ECommit o r :: l) w'.

  (** A property of the log and the world that holds at the start and is
      kept by ticks and by committed commands holds in every reachable
      state, whatever the threads and the interleaving. *)
Lemma log_invariant w0 ts s : Q [] w0 -> rtc step (init w0 ts) s -> Q (s_log s) (s_world s).
  Proof.
    intros H0 Hrtc. pattern s. revert s Hrtc. apply rtc_ind_r; [exact H0|].
    intros y z _ Hstep IH. destruct Hstep as [i m y z Hs|y].
    - destruct (sys_step_world _ _ _ _ Hs) as [[-> ->] | (R & o & r & -> & He)]; [done|].
      eapply Q_commit; eauto.
    - apply Q_tick. exact IH.
  Qed.
End LogInvariant.

(** Does the key attribute [k] designate the stored code [c]? *)
Definition key_is (c : string) (k : AttrVal) : bool :=
  match key_of k with Ok s => String.eqb s c | Err _ => false end.

Definition is_ok {A} (r : res A) : bool := match r with Ok _ => true | Err _ => false end.

(** A conditional put of [c] that succeeded. *)
Definition put_ok_on (c : string) (e : Entry) : bool :=
  match e with
  | ECommit o r =>
      match o in Op R0 return R0 -> bool with
      | PutItem k _ true => fun r => key_is c k && is_ok r
      | _ => fun _ => false
      end r
  | ETick => false
  end.

(** A command that removes or replaces the item of [c]: a delete, or an
    unconditional put that succeeded. *)
Definition disturbs (c : string) (e : Entry) : bool :=
  match e with
  | ECommit o r =>
      match o in Op R0 return R0 -> bool with
      | DeleteItem k => fun _ => key_is c k
      | PutItem k _ false => fun r => key_is c k && is_ok r
      | _ => fun _ => false
      end r
  | ETick => false
  end.

(** A committed increment of [c], with the timestamp it carried. *)
Definition update_on (c : string) (e : Entry) : option Z :=
  match e with
  | ECommit o r =>
      match o in Op R0 return R0 -> option Z with
      | UpdateClick k t => fun r => if key_is c k && is_ok r then Some t else None
      | _ => fun _ => None
      end r
  | ETick => None
  end.

Definition stored (c : string) (w : World) : nat :=
  if bool_decide (is_Some (w_table w !! c)) then 1 else 0.

Lemma key_is_spec c k : key_is c k = true -> key_of k = Ok c.
Proof. unfold key_is. destruct (key_of k); [|done]. intros H. bool_prop. by subst. Qed.

Lemma key_is_other c k s : key_of k = Ok s -> key_is c k = false -> s <> c.
Proof. unfold key_is. intros -> H ->. by rewrite String.eqb_refl in H. Qed.

(** Splits a committed command by its kind and by the outcome of its key. *)
Ltac op_cases o He :=
  destruct o as [|?k ?it ?b|?k| |?k|?k ?t]; cbn [exec_op] in He;
  try (destruct (key_of _) as [?s|?e] eqn:?Hk);
  try (destruct (_ && bool_decide _) eqn:?Hb);
  injection He as <- <-;
  unfold put_ok_on, disturbs, update_on, key_is, is_ok in *;
  repeat match goal with H : key_of _ = _ |- _ => rewrite H in * end;
  repeat match goal with b : bool |- _ => destruct b end;
  cbn [w_table set_table andb] in *.


(** A conditional put of [c] succeeds only on a table without [c], and
    leaves [c] stored. *)
Lemma commit_put_ok c R (o : Op R) r w w' :
  exec_op o w = (r, w') -> put_ok_on c (ECommit o r) = true ->
  w_table w !! c = None /\ is_Some (w_table w' !! c).
Proof.
  intros He. op_cases o He; intros H; bool_prop; try discriminate. subst.
  rewrite lookup_insert_eq. split; [|eauto].
  rewrite bool_decide_eq_false in Hb. destruct (w_table w !! c); [exfalso; eauto | done].
Qed.

(** A command that does not disturb [c] keeps it stored. *)
Lemma commit_keeps c R (o : Op R) r w w' :
  exec_op o w = (r, w') -> disturbs c (ECommit o r) = false ->
  is_Some (w_table w !! c) -> is_Some (w_table w' !! c).
Proof.
  intros He. op_cases o He; intros Hd Hs; try done;
    try (rewrite lookup_insert; case_decide; eauto; done).
  bool_prop. rewrite lookup_delete_ne by congruence. done.
Qed.

(** A committed increment of [c] bumps its item. *)
Lemma commit_update c R (o : Op R) r w w' t :
  exec_op o w = (r, w') -> update_on c (ECommit o r) = Some t ->
  w_table w' !! c = Some (bump t (w_table w !! c)).
Proof.
  intros He. op_cases o He; try discriminate.
  destruct (String.eqb_spec s c) as [<-|]; [|discriminate].
  intros [= <-]. by rewrite lookup_insert_eq.
Qed.


Definition no_disturb (c : string) (l : list Entry) : Prop :=
  Forall (fun e => disturbs c e = false) l.

Lemma stored_le_1 c w : stored c w <= 1.
Proof. unfold stored. case_bool_decide; lia. Qed.

#[export] Hint Resolve stored_le_1 : tinylink.

(** Any other command leaves a stored [c] as it is. *)
Lemma commit_other c R (o : Op R) r w w' :
  exec_op o w = (r, w') -> disturbs c (ECommit o r) = false ->
  update_on c (ECommit o r) = None -> is_Some (w_table w !! c) ->
  w_table w' !! c = w_table w !! c.
Proof.
  intros He. op_cases o He; intros Hd Hu Hs; try done;
    destruct (String.eqb_spec s c) as [<-|Hne];
    rewrite ?lookup_insert_ne, ?lookup_delete_ne by done; try done;
    rewrite ?String.eqb_refl in *; try discriminate.
  rewrite bool_decide_eq_false in Hb. done.
Qed.

(** ** Log invariants for any threads *)

(** In every state reachable from any set of concurrent threads, as
    long as no committed command deleted or overwrote [c], at most one
    conditional put of [c] has succeeded, and none if [c] was stored at
    the start: [attribute_not_exists(code)] is an atomic insert-if-absent,
    so concurrent creates of one code have a single winner (spec
    section 5). *)
Theorem at_most_one_create c w0 ts s :
  rtc step (init w0 ts) s -> no_disturb c (s_log s) ->
  length (List.filter (put_ok_on c) (s_log s)) + stored c w0 <= 1.
Proof.
  intros Hrtc.
  cut (no_disturb c (s_log s) ->
       length (List.filter (put_ok_on c) (s_log s)) + stored c w0 <= stored c (s_world s)).
  { intros H Hnd. specialize (H Hnd). pose proof (stored_le_1 c (s_world s)). lia. }
  refine (log_invariant
           (fun l w => no_disturb c l ->
                       length (List.filter (put_ok_on c) l) + stored c w0 <= stored c w)
           _ _ w0 ts s _ Hrtc); [| | simpl; lia].
  - intros l w IH Hnd. inversion Hnd; subst. simpl. apply IH. done.
  - intros l w R o r w' IH He Hnd. inversion Hnd as [|? ? Hd Hl]; subst.
    specialize (IH Hl).
    change (List.filter (put_ok_on c) (ECommit o r :: l)) with
      (if put_ok_on c (ECommit o r) then ECommit o r :: List.filter (put_ok_on c) l
       else List.filter (put_ok_on c) l).
    destruct (put_ok_on c (ECommit o r)) eqn:Hp; cbn [length].
    + destruct (commit_put_ok c R o r w w' He Hp) as [Hn Hs'].
      unfold stored in *. rewrite Hn in IH.
      rewrite (bool_decide_false (is_Some (None : option Item))) in IH by apply is_Some_None.
      rewrite (bool_decide_true (is_Some (w_table w' !! c))) by exact Hs'. lia.
    + pose proof (commit_keeps c R o r w w' He Hd) as Hk.
      unfold stored in *. repeat case_bool_decide; naive_solver lia.
Qed.

(** No committed increment is lost: in every reachable state, as
    long as nothing deleted or overwrote the stored code [c], its click
    count is the initial count plus the number of committed increments of
    [c], its [lastClickedAt] is the timestamp of the last increment to
    commit (or the initial one), and its [url] and [createdAt] are
    unchanged (spec section 8, fourth property). *)
Theorem increments_all_counted c w0 ts s it0 n0 :
  rtc step (init w0 ts) s -> w_table w0 !! c = Some it0 -> it_clicks it0 = Some n0 ->
  no_disturb c (s_log s) ->
  exists it, w_table (s_world s) !! c = Some it /\
    it_clicks it = Some (n0 + Z.of_nat (length (omap (update_on c) (s_log s))))%Z /\
    it_url it = it_url it0 /\ it_createdAt it = it_createdAt it0 /\
    it_lastClickedAt it =
      match head (omap (update_on c) (s_log s)) with
      | Some t => Some t
      | None => it_lastClickedAt it0
      end.
Proof.
  intros Hrtc H0 Hn0.
  refine (log_invariant
           (fun l w => no_disturb c l ->
              exists it, w_table w !! c = Some it /\
                it_clicks it = Some (n0 + Z.of_nat (length (omap (update_on c) l)))%Z /\
                it_url it = it_url it0 /\ it_createdAt it = it_createdAt it0 /\
                it_lastClickedAt it =
                  match head (omap (update_on c) l) with
                  | Some t => Some t
                  | None => it_lastClickedAt it0
                  end) _ _ w0 ts s _ Hrtc).
  - intros l w IH Hnd. inversion Hnd; subst. simpl. by apply IH.
  - intros l w R o r w' IH He Hnd. inversion Hnd as [|? ? Hd Hl]; subst.
    destruct (IH Hl) as (it & Hit & Hc & Hu & Hcr & Hlast).
    change (omap (update_on c) (ECommit o r :: l)) with
      (match update_on c (ECommit o r) with
       | Some y => y :: omap (update_on c) l
       | None => omap (update_on c) l
       end).
    destruct (update_on c (ECommit o r)) as [t|] eqn:Hup.
    + rewrite (commit_update c R o r w w' t He Hup), Hit.
      eexists. split; [reflexivity|].
      cbn [it_clicks it_url it_createdAt it_lastClickedAt bump length head].
      rewrite Hc. cbn [default]. split; [f_equal; simpl; lia | auto].
    + rewrite (commit_other c R o r w w' He Hd Hup) by (rewrite Hit; eauto).
      eauto 10.
  - intros _. exists it0. simpl. rewrite Z.add_0_r. auto.
Qed.

(** The answer of a finished request thread. *)
Definition response_of (t : Thread) : option Response :=
  match t with
  | TReq p => match view p with VRet r => Some r | _ => None end
  | TBg _ => None
  end.

(** A thread whose program has returned. *)
Definition thread_done (t : Thread) : bool :=
  match t with
  | TReq p => match view p with VRet _ => true | _ => false end
  | TBg p => match view p with VRet _ => true | _ => false end
  end.

Definition post_thread (c : string) : Thread :=
  TReq (links_index (post_req (JStr "https://a.io") (JStr c)) []).

(** Two redirects of a stored code, their increments committed in the
    order opposite to the one in which they read the clock. *)
Definition two_clicks_reversed : Sys :=
  run_sched [Some (0, Normal); Some (0, Normal); Some (2, Normal); None;
             Some (1, Normal); Some (1, Normal); Some (3, Normal);
             Some (3, Normal); Some (2, Normal)]
    (init w_example [TReq (redirect "abc123"); TReq (redirect "abc123")]).

(** A redirect, a delete, a later redirect and a later create of the same
    code. *)
Definition ghost_threads : list Thread :=
  [TReq (redirect "abc123"); TReq (links_code (delete_req "abc123"));
   TReq (redirect "abc123"); post_thread "abc123"].

Definition ghost_run : Sys :=
  run_sched [Some (0, Normal); Some (1, Normal); Some (1, Normal); Some (0, Normal);
             Some (4, Normal); Some (4, Normal); Some (2, Normal); Some (2, Normal);
             Some (3, Normal); Some (3, Normal)]
    (init w_example ghost_threads).

Lemma ghost_run_reachable : rtc step (init w_example ghost_threads) ghost_run.
Proof. apply run_sched_reachable. Qed.

(** C20: a redirect that reads a link, then a delete of that link, then the
    redirect's unawaited [incrementClick]: the upsert of [UpdateItem]
    recreates the record with a click count and no url.  A later redirect of
    the code answers 500 (its [Location] is [undefined]) and a later create
    of the code answers 409, so the deleted code can never be reused. *)
Theorem delete_race_resurrects_code :
  exists s, rtc step (init w_example ghost_threads) s /\
    take 4 (map response_of (s_threads s)) =
      [Some (RRedirect 302 ["https://example.com"]); Some (RJson 200 BSuccess);
       Some RServerError; Some (RJson 409 (BError "Code exists"))] /\
    w_table (s_world s) !! "abc123" = Some (mkItem None (Some 1%Z) None (Some 2000%Z)).
Proof.
  exists ghost_run. split; [apply ghost_run_reachable | vm_compute; split; reflexivity].
Qed.

(** C21: two DELETE requests for the same code, both reading the record
    before either deletes it, both answer [200 {success:true}]: the
    existence check of [src/pages/api/links/[code].js] is not atomic with
    the delete. *)
Theorem double_delete_both_succeed :
  exists s,
    rtc step (init w_example [TReq (links_code (delete_req "abc123"));
                              TReq (links_code (delete_req "abc123"))]) s /\
    map response_of (s_threads s) = [Some (RJson 200 BSuccess); Some (RJson 200 BSuccess)] /\
    w_table (s_world s) !! "abc123" = None.
Proof.
  exists (run_sched [Some (0, Normal); Some (1, Normal); Some (0, Normal); Some (1, Normal)]
    (init w_example [TReq (links_code (delete_req "abc123"));
                     TReq (links_code (delete_req "abc123"))])).
  split; [apply run_sched_reachable | vm_compute; split; reflexivity].
Qed.

(** C22: [lastClickedAt] is the time at which [incrementClick] read the
    clock, not the time of its write; two increments that commit in the
    opposite order leave [lastClickedAt] older than a click the record
    counts. *)
Theorem last_clicked_goes_backwards :
  exists s,
    rtc step (init w_example [TReq (redirect "abc123"); TReq (redirect "abc123")]) s /\
    w_table (s_world s) !! "abc123" =
      Some (mkItem (Some (AS "https://example.com")) (Some 2%Z) (Some 1000%Z) (Some 2000%Z)) /\
    In (ECommit (UpdateClick (AS "abc123") 2001%Z) (Ok ())) (s_log s).
Proof.
  exists two_clicks_reversed.
  split; [apply run_sched_reachable | vm_compute; split; [reflexivity | right; left; reflexivity]].
Qed.

(** C23: when the store fails the unawaited [incrementClick], the
    [.catch(() => {})] of [src/pages/[code].js] swallows the error: the
    visitor is redirected and the click is lost. *)
Theorem redirect_click_lost_on_fault :
  exists s,
    rtc step (init w_example [TReq (redirect "abc123")]) s /\
    head (map response_of (s_threads s)) = Some (Some (RRedirect 302 ["https://example.com"])) /\
    option_map it_clicks (w_table (s_world s) !! "abc123") = Some (Some 0%Z) /\
    forallb thread_done (s_threads s) = true.
Proof.
  exists (run_sched [Some (0, Normal); Some (0, Normal); Some (1, Normal); Some (1, Fault)]
    (init w_example [TReq (redirect "abc123")])).
  split; [apply run_sched_reachable | vm_compute; repeat split].
Qed.
