(* ===== verification/RaceApi.v ===== *)
(** * Concurrent API requests

    [Race] lets any programs run concurrently; its log invariants are
    facts about the store's commands.  This file runs the handlers of
    [Api] themselves: every request thread is one of the five requests the
    server answers ([POST] and [GET /api/links], [GET] and [DELETE
    /api/links/c], and the redirect of [/c]), on the DynamoDB adapter, and
    the theorems are about their answers and the table:
    - concurrent [POST]s of one code have a single winner: whatever the
      interleaving and the store faults, at most one thread answers 201
      for a code [c] that is not deleted, and none when [c] was stored;
    - no click of a redirect is lost when no store call fails: once every
      request and every spawned increment has finished, the click count of
      a stored code is its initial count plus the number of redirects of
      it.

    The proofs follow each thread's program: [never] says a program never
    commits a given kind of command, [guarded] that it can only return a
    given kind of answer until it commits one, and [incs] how many
    increments of a code it will still commit.  A ghost weight per thread
    carries the count across interleavings. *)

From S2P Require Import Prelude JsValue Validate Url Dynamo Api Race.

(** ** The requests *)

Inductive ApiCall :=
  | CPost (url code : JsValue) (rand : list Byte.byte)  (** [POST /api/links] *)
  | CList (rand : list Byte.byte)                       (** [GET /api/links] *)
  | CGet (c : string)                                   (** [GET /api/links/c] *)
  | CDelete (c : string)                                (** [DELETE /api/links/c] *)
  | CRedirect (c : string).                             (** [GET /c] *)

Definition call_prog (a : ApiCall) : Prog Response :=
  match a with
  | CPost url code rand => links_index (post_req url code) rand
  | CList rand => links_index (get_req "") rand
  | CGet c => links_code (get_req c)
  | CDelete c => links_code (delete_req c)
  | CRedirect c => redirect c
  end.

Definition call_thread (a : ApiCall) : Thread := TReq (call_prog a).

(** The thread has answered 201 for the code [c]. *)
Definition answered_created (c : string) (t : Thread) : bool :=
  match response_of t with
  | Some (RJson 201 (BCreated (JStr c') _)) => String.eqb c' c
  | _ => false
  end.

Definition is_redirect_of (c : string) (a : ApiCall) : bool :=
  match a with CRedirect c' => String.eqb c' c | _ => false end.

(** Steps without store faults. *)
Inductive nstep : Sys -> Sys -> Prop :=
  | nstep_thread i s s' : sys_step i Normal s = Some s' -> nstep s s'
  | nstep_tick s : nstep s (tick s).

(** ** Predicates on programs *)

(** [p] and every program it spawns never commit a command [bad] flags,
    whatever results they receive. *)
Fixpoint never (bad : Entry -> bool) {A} (p : Prog A) : Prop :=
  match p with
  | Ret _ => True
  | Call o k => (forall r, bad (ECommit o r) = false) /\ forall r, never bad (k r)
  | Spawn q k => never bad q /\ never bad k
  end.

(** Until [p] commits a command [E] flags, it can only return an answer
    satisfying [P]. *)
Fixpoint guarded (E : Entry -> bool) {A} (P : A -> Prop) (p : Prog A) : Prop :=
  match p in Prog A0 return (A0 -> Prop) -> Prop with
  | Ret a => fun P => P a
  | Call o k => fun P => forall r, E (ECommit o r) = false -> guarded E P (k r)
  | Spawn q k => fun P => guarded E P k
  end P.

Definition inc_count (c : string) (e : Entry) : nat :=
  match update_on c e with Some _ => 1 | None => 0 end.

(** Run without faults on tables that store [c], [p] and the programs it
    spawns commit exactly [n] increments of [c]. *)
Fixpoint incs (c : string) {A} (n : nat) (p : Prog A) : Prop :=
  match p with
  | Ret _ => n = 0
  | Call o k =>
      forall w, is_Some (w_table w !! c) ->
        inc_count c (ECommit o (exec_op o w).1) <= n /\
        incs c (n - inc_count c (ECommit o (exec_op o w).1)) (k (exec_op o w).1)
  | Spawn q k => exists n1 n2, n = n1 + n2 /\ incs c n1 q /\ incs c n2 k
  end.

Lemma never_bind bad {A B} (p : Prog A) (f : A -> Prog B) :
  never bad p -> (forall a, never bad (f a)) -> never bad (bind p f).
Proof.
  revert f. induction p as [A a|A R o k IH|A q IHq k IHk]; intros f Hp Hf; simpl in *.
  - apply Hf.
  - destruct Hp as [Ho Hk]. split; [exact Ho|]. intros r. apply IH; auto.
  - destruct Hp as [Hq Hk]. split; [exact Hq|]. apply IHk; auto.
Qed.

Lemma guarded_bind E {A B} (P' : A -> Prop) (P : B -> Prop) (p : Prog A) (f : A -> Prog B) :
  guarded E P' p -> (forall a, P' a -> guarded E P (f a)) -> guarded E P (bind p f).
Proof.
  revert P' f. induction p as [A a|A R o k IH|A q IHq k IHk]; intros P' f Hp Hf; simpl in *.
  - by apply Hf.
  - intros r Hr. eapply IH; eauto.
  - eapply IHk; eauto.
Qed.

Lemma incs_bind c {A B} n m (p : Prog A) (f : A -> Prog B) :
  incs c n p -> (forall a, incs c m (f a)) -> incs c (n + m) (bind p f).
Proof.
  revert n f. induction p as [A a|A R o k IH|A q IHq k IHk]; intros n f Hp Hf; simpl in *.
  - subst n. apply Hf.
  - intros w Hw. destruct (Hp w Hw) as [Hle Hk]. split; [lia|].
    replace (n + m - inc_count c (ECommit o (exec_op o w).1))
      with (n - inc_count c (ECommit o (exec_op o w).1) + m) by lia.
    apply IH; auto.
  - destruct Hp as (n1 & n2 & -> & Hq & Hk). exists n1, (n2 + m). split; [lia|]. split; [exact Hq|].
    apply IHk; auto.
Qed.

(** A program that never commits an increment of [c] owes none. *)
Lemma incs_never c {A} (p : Prog A) :
  never (fun e => bool_decide (is_Some (update_on c e))) p -> incs c 0 p.
Proof.
  induction p as [A a|A R o k IH|A q IHq k IHk]; cbn [never incs]; intros Hp.
  - done.
  - destruct Hp as [Ho Hk]. intros w _.
    assert (Hz : forall r, inc_count c (ECommit o r) = 0).
    { intros r. unfold inc_count. specialize (Ho r).
      destruct (update_on c (ECommit o r)) eqn:Eu; [|done].
      rewrite bool_decide_eq_false in Ho. exfalso. apply Ho. by eexists. }
    rewrite Hz. split; [lia|]. apply IH, Hk.
  - destruct Hp as [Hq Hk]. exists 0, 0. split; [done|]. split; [apply IHq | apply IHk]; done.
Qed.

(** ** What each request's program commits *)

(** The answer is not 201 for [c]. *)
Definition not201 (c : string) (r : Response) : Prop :=
  forall u, r <> RJson 201 (BCreated (JStr c) u).

Lemma key_is_self c : c <> "" -> key_is c (AS c) = true.
Proof. intros Hc. unfold key_is. simpl. rewrite (proj2 (String.eqb_neq _ _) Hc). apply String.eqb_refl. Qed.

Lemma key_is_AS_other c c' : c' <> c -> key_is c (AS c') = false.
Proof.
  intros Hne. unfold key_is. simpl. destruct (c' === "") eqn:E; [done|].
  by apply String.eqb_neq.
Qed.

(** Splits a handler's program at every test and every result. *)
Ltac prog_cases :=
  repeat (match goal with
          | |- _ /\ _ => split
          | |- forall _, _ => intros
          | |- True => exact I
          | |- context [match ?x with _ => _ end] => destruct x eqn:?
          | |- context [if ?x then _ else _] => destruct x eqn:?
          end; simpl in *).

(** Only a [DELETE] of [c] deletes it, and no request overwrites it: the
    only puts are conditional. *)
Lemma call_never_disturbs c a : a <> CDelete c -> never (disturbs c) (call_prog a).
Proof.
  intros Ha. destruct a as [url code rand|rand|c'|c'|c']; simpl; try unfold links_index; simpl;
    prog_cases; try reflexivity.
  apply key_is_AS_other. congruence.
Qed.

(** A request answers 201 for [c] only after its own conditional put of
    [c] has succeeded. *)
Lemma call_guarded c a : c <> "" -> guarded (put_ok_on c) (not201 c) (call_prog a).
Proof.
  intros Hc. destruct a as [url code rand|rand|c'|c'|c']; simpl; try unfold links_index; simpl;
    prog_cases; try (intros ? ?; discriminate);
    intros u [= Hcode _]; subst; simpl in *;
    match goal with H : Ok _ = Ok _ |- _ => injection H as <- | _ => idtac end;
    rewrite key_is_self in * by done; discriminate.
Qed.

(** The increment a redirect spawns. *)
Lemma incs_increment c : c <> "" -> incs c 1 (_ <- store_incrementClick c ;; Ret tt).
Proof.
  intros Hc. simpl. intros w _. split; [unfold inc_count; simpl; lia|].
  intros w' _. unfold inc_count. simpl. rewrite key_is_self, (proj2 (String.eqb_neq _ _) Hc) by done.
  simpl. split; [lia|]. done.
Qed.

(** A redirect of [c], on a table that stores [c], commits one increment
    of [c]; every other request commits none. *)
Lemma call_incs c a : c <> "" -> incs c (if is_redirect_of c a then 1 else 0) (call_prog a).
Proof.
  intros Hc. destruct (is_redirect_of c a) eqn:Ha.
  - destruct a as [| | | |c']; try discriminate. simpl in Ha. apply String.eqb_eq in Ha as ->.
    simpl. unfold redirect. simpl. intros w [it Hit].
    rewrite (proj2 (String.eqb_neq _ _) Hc). simpl. rewrite Hit.
    split; [unfold inc_count; simpl; lia|]. exists 1, 0. split; [done|]. split.
    + apply (incs_increment c Hc).
    + by destruct (location_value _) as [locs|]; [destruct (forallb _ _)|].
  - apply incs_never. destruct a as [url code rand|rand|c'|c'|c']; simpl in Ha |- *;
      try unfold links_index; simpl; prog_cases; try reflexivity.
    rewrite key_is_AS_other in Heqb; [done|]. intros ->. by rewrite String.eqb_refl in Ha.
Qed.

(** ** One step keeps the predicates *)

Lemma prog_step_never bad {A} m (p : Prog A) w p' sp w' e :
  never bad p -> prog_step m p w = Some (p', sp, w', e) ->
  never bad p' /\ (forall q, sp = Some q -> never bad q) /\ (forall e', e = Some e' -> bad e' = false).
Proof.
  destruct p as [? a|? R o k|? q k]; cbn [prog_step view]; [intros; discriminate| |].
  - intros [Ho Hk]. destruct m.
    + destruct (exec_op o w) as [r w'']. intros [= <- <- <- <-]. naive_solver.
    + destruct (fault_result o); [|discriminate]. intros [= <- <- <- <-]. naive_solver.
  - intros [Hq Hk] [= <- <- <- <-]. naive_solver.
Qed.

Section GuardedStep.
Variable E : Entry -> bool.
Hypothesis E_fault : forall R (o : Op R) r, fault_result o = Some r -> E (ECommit o r) = false.

  (** A guarded program stays guarded until it commits a command [E]
      flags; a failed store call commits nothing and [E] never flags the
      error it returns. *)
Lemma prog_step_guarded {A} (P : A -> Prop) m (p : Prog A) w p' sp w' e :
    guarded E P p -> prog_step m p w = Some (p', sp, w', e) ->
    (exists e', e = Some e' /\ E e' = true) \/ guarded E P p'.
  Proof.
    destruct p as [? a|? R o k|? q k]; cbn [prog_step view]; [intros; discriminate| |].
    - intros Hk. destruct m.
      + destruct (exec_op o w) as [r w'']. intros [= <- <- <- <-].
        destruct (E (ECommit o r)) eqn:He; [left; eauto | right; auto].
      + destruct (fault_result o) as [r|] eqn:Hf; [|discriminate]. intros [= <- <- <- <-].
        right. apply Hk, (E_fault _ _ _ Hf).
    - intros Hk [= <- <- <- <-]. by right.
  Qed.
End GuardedStep.

Definition entry_incs (c : string) (e : option Entry) : nat :=
  match e with Some e' => inc_count c e' | None => 0 end.

Definition spawn_incs (c : string) (nq : nat) (sp : option (Prog unit)) : Prop :=
  match sp with Some q => incs c nq q | None => nq = 0 end.

(** A step without faults, on a table that stores [c], passes the
    increments a program owes to what it becomes, to what it spawns and to
    the command it commits. *)
Lemma prog_step_incs c {A} n (p : Prog A) w p' sp w' e :
  incs c n p -> is_Some (w_table w !! c) -> prog_step Normal p w = Some (p', sp, w', e) ->
  exists n' nq, incs c n' p' /\ spawn_incs c nq sp /\ n = n' + nq + entry_incs c e.
Proof.
  destruct p as [? a|? R o k|? q k]; cbn [prog_step view]; [intros; discriminate| |].
  - intros Hk Hw. destruct (Hk w Hw) as [Hle Hk'].
    destruct (exec_op o w) as [r w'']; cbn [fst] in Hle, Hk'. intros [= <- <- <- <-].
    exists (n - inc_count c (ECommit o r)), 0. cbn [spawn_incs entry_incs]. split_and!; [exact Hk'|done|lia].
  - intros (n1 & n2 & -> & Hq & Hk) _ [= <- <- <- <-].
    exists n2, n1. cbn [spawn_incs entry_incs]. split_and!; [exact Hk|exact Hq|lia].
Qed.

(** ** Threads *)

Definition t_never (bad : Entry -> bool) (t : Thread) : Prop :=
  match t with TReq p => never bad p | TBg p => never bad p end.

(** A request thread that cannot answer 201 for [c] before its own
    conditional put of [c] succeeds; a spawned call answers nothing. *)
Definition t_guarded (c : string) (t : Thread) : Prop :=
  match t with TReq p => guarded (put_ok_on c) (not201 c) p | TBg _ => True end.

Definition t_incs (c : string) (n : nat) (t : Thread) : Prop :=
  match t with TReq p => incs c n p | TBg p => incs c n p end.

(** Reduces a thread step to the step of its program. *)
Ltac thread_step_cases t Ht :=
  destruct t as [?p|?p]; cbn [thread_step] in Ht;
  destruct (prog_step _ p _) as [[[[?p' ?sp] ?w''] ?e']|] eqn:?Hp; try discriminate;
  injection Ht as <- <- <- <-.

Lemma thread_step_never bad m t w t' sp w' e :
  t_never bad t -> thread_step m t w = Some (t', sp, w', e) ->
  t_never bad t' /\ Forall (t_never bad) (option_list sp) /\ (forall e', e = Some e' -> bad e' = false).
Proof.
  intros Hn Ht. thread_step_cases t Ht;
    destruct (prog_step_never _ _ _ _ _ _ _ _ Hn Hp) as (? & Hsp & ?);
    split_and!; auto; destruct sp0 as [q|]; simpl; repeat constructor; by apply Hsp.
Qed.

Lemma put_ok_on_fault c R (o : Op R) r : fault_result o = Some r -> put_ok_on c (ECommit o r) = false.
Proof. destruct o as [| ? ? []| | | |]; simpl; intros [=]; subst; simpl; by rewrite ?andb_false_r. Qed.

Lemma thread_step_guarded c m t w t' sp w' e :
  t_guarded c t -> thread_step m t w = Some (t', sp, w', e) ->
  ((exists e', e = Some e' /\ put_ok_on c e' = true) \/ t_guarded c t') /\
  Forall (t_guarded c) (option_list sp).
Proof.
  intros Hg Ht. thread_step_cases t Ht.
  - split; [exact (prog_step_guarded _ (put_ok_on_fault c) _ _ _ _ _ _ _ _ Hg Hp)|].
    destruct sp0; simpl; repeat constructor.
  - split; [by right|]. destruct sp0; simpl; repeat constructor.
Qed.

Lemma thread_step_incs c n t w t' sp w' e :
  t_incs c n t -> is_Some (w_table w !! c) -> thread_step Normal t w = Some (t', sp, w', e) ->
  exists n' nsp, t_incs c n' t' /\ Forall2 (t_incs c) nsp (option_list sp) /\
    n = n' + sum_list nsp + entry_incs c e.
Proof.
  intros Hn Hw Ht. thread_step_cases t Ht;
    destruct (prog_step_incs _ _ _ _ _ _ _ _ Hn Hw Hp) as (n' & nq & Hp' & Hsp & ->);
    exists n'; destruct sp0 as [q|]; cbn [spawn_incs] in Hsp;
    [exists [nq] | exists [] | exists [nq] | exists []]; simpl;
    split_and!; repeat constructor; auto; lia.
Qed.

(** ** Ghost weights across a system step *)

Lemma sum_list_insert (l : list nat) i x y :
  l !! i = Some y -> sum_list (<[i := x]> l) + y = sum_list l + x.
Proof.
  revert i. induction l as [|z l IH]; intros [|i] Hi; simpl in *; try discriminate.
  - injection Hi as ->. lia.
  - specialize (IH i Hi). lia.
Qed.

(** A system step replaces the thread it runs and appends what it spawns;
    the weight of the thread is replaced and the spawned threads get
    theirs. *)
Lemma ghost_update {X} (R : X -> Thread -> Prop) xs ts i t t' x x' xsp tsp :
  Forall2 R xs ts -> ts !! i = Some t -> xs !! i = Some x -> R x' t' -> Forall2 R xsp tsp ->
  Forall2 R (<[i := x']> xs ++ xsp) (<[i := t']> ts ++ tsp).
Proof. intros Hf _ _ Hx Hsp. apply Forall2_app; [by apply Forall2_insert|exact Hsp]. Qed.

Lemma sys_step_inv i m s s' :
  sys_step i m s = Some s' ->
  exists t t' sp e, s_threads s !! i = Some t /\
    thread_step m t (s_world s) = Some (t', sp, s_world s', e) /\
    s_threads s' = <[i := t']> (s_threads s) ++ option_list sp /\
    s_log s' = option_list e ++ s_log s.
Proof.
  unfold sys_step. destruct (s_threads s !! i) as [t|]; [|discriminate].
  destruct (thread_step m t (s_world s)) as [[[[t' sp] w'] e]|] eqn:Ht; [|discriminate].
  intros [= <-]. simpl. eauto 10.
Qed.

(** ** Threads that leave [c] in place *)

(** No thread can delete or overwrite [c], and none has. *)
Definition quiet_inv (c : string) (s : Sys) : Prop :=
  Forall (t_never (disturbs c)) (s_threads s) /\ no_disturb c (s_log s).

Lemma quiet_inv_step c s s' : quiet_inv c s -> step s s' -> quiet_inv c s'.
Proof.
  intros [Hn Hl] Hstep. destruct Hstep as [i m s s' Hs|s]; [|split; [exact Hn|by constructor]].
  destruct (sys_step_inv _ _ _ _ Hs) as (t & t' & sp & e & Hi & Ht & Hts & Hlog).
  destruct (thread_step_never _ _ _ _ _ _ _ _ (proj1 (Forall_lookup _ _) Hn i t Hi) Ht)
    as (Hnt' & Hnsp & He).
  unfold quiet_inv. rewrite Hts, Hlog. split.
  - apply Forall_app_2; [by apply Forall_insert|exact Hnsp].
  - destruct e; simpl; [constructor; auto|]; exact Hl.
Qed.

Lemma quiet_inv_init c w0 calls :
  Forall (fun a => a <> CDelete c) calls -> quiet_inv c (init w0 (map call_thread calls)).
Proof.
  intros Hcalls. split; [|constructor]. apply Forall_fmap.
  apply (Forall_impl _ _ _ Hcalls). intros a Ha. by apply call_never_disturbs.
Qed.

(** What a thread spawns is a background call. *)
Lemma thread_step_spawn_bg m t w t' sp w' e :
  thread_step m t w = Some (t', sp, w', e) -> Forall (fun t0 => exists q, t0 = TBg q) (option_list sp).
Proof. intros Ht. thread_step_cases t Ht; destruct sp0; simpl; repeat constructor; eauto. Qed.

Lemma sum_list_zeros {X} (l : list X) : sum_list (map (fun _ => 0) l) = 0.
Proof. induction l as [|x l IH]; simpl; [done|]. rewrite IH. done. Qed.

Lemma sum_list_reweigh (ns : list nat) i x x' (l : list Thread) :
  ns !! i = Some x -> sum_list (<[i := x']> ns ++ map (fun _ => 0) l) + x = sum_list ns + x'.
Proof.
  intros Hx. rewrite sum_list_with_app, sum_list_zeros. pose proof (sum_list_insert ns i x' x Hx). lia.
Qed.

(** ** Concurrent creates *)

Definition create_weight (c : string) (n : nat) (t : Thread) : Prop := 0 < n \/ t_guarded c t.

(** Each thread that may answer 201 for [c] is paid for by a successful
    conditional put of [c] in the log. *)
Definition create_inv (c : string) (s : Sys) : Prop :=
  exists ns, Forall2 (create_weight c) ns (s_threads s) /\
    sum_list ns <= length (List.filter (put_ok_on c) (s_log s)).

Lemma create_inv_step c s s' : create_inv c s -> step s s' -> create_inv c s'.
Proof.
  intros (ns & Hw & Hsum) Hstep. unfold create_inv.
  destruct Hstep as [i m s s' Hs|s]; [|exists ns; split; [exact Hw|exact Hsum]].
  destruct (sys_step_inv _ _ _ _ Hs) as (t & t' & sp & e & Hi & Ht & -> & ->).
  destruct (Forall2_lookup_r _ _ _ _ _ Hw Hi) as (x & Hx & Hxt).
  assert (Hsp : Forall2 (create_weight c) (map (fun _ => 0) (option_list sp)) (option_list sp)).
  { apply Forall2_fmap_l, Forall_Forall2_diag.
    apply (Forall_impl _ _ _ (thread_step_spawn_bg _ _ _ _ _ _ _ Ht)).
    intros ? [q ->]. unfold create_weight. by right. }
  assert (Hlen : length (List.filter (put_ok_on c) (option_list e ++ s_log s)) =
                 length (List.filter (put_ok_on c) (s_log s)) +
                 match e with Some e' => if put_ok_on c e' then 1 else 0 | None => 0 end)
    by (destruct e as [e'|]; simpl; [destruct (put_ok_on c e'); simpl|]; lia).
  assert (Hkeep : create_weight c x t' -> exists ns', Forall2 (create_weight c) ns'
              (<[i := t']> (s_threads s) ++ option_list sp) /\
              sum_list ns' <= length (List.filter (put_ok_on c) (option_list e ++ s_log s))).
  { intros Hk. exists (<[i := x]> ns ++ map (fun _ => 0) (option_list sp)).
    split; [exact (ghost_update _ _ _ _ _ _ _ _ _ _ Hw Hi Hx Hk Hsp)|].
    pose proof (sum_list_reweigh ns i x x (option_list sp) Hx). lia. }
  destruct Hxt as [Hx0|Hg]; [apply Hkeep; unfold create_weight; by left|].
  destruct (thread_step_guarded _ _ _ _ _ _ _ _ Hg Ht) as [[(e' & -> & Hput)|Hg'] _];
    [|apply Hkeep; unfold create_weight; by right].
  exists (<[i := 1]> ns ++ map (fun _ => 0) (option_list sp)).
  split; [exact (ghost_update _ _ _ _ _ _ _ _ _ _ Hw Hi Hx (or_introl Nat.lt_0_1) Hsp)|].
  pose proof (sum_list_reweigh ns i x 1 (option_list sp) Hx). rewrite Hput in Hlen. lia.
Qed.

Lemma create_inv_init c w0 calls :
  c <> "" -> create_inv c (init w0 (map call_thread calls)).
Proof.
  intros Hc. exists (map (fun _ => 0) calls). split; [|rewrite sum_list_zeros; lia].
  apply Forall2_fmap, Forall_Forall2_diag, Forall_forall. intros a _. right. by apply call_guarded.
Qed.

(** Both invariants hold in every reachable state. *)
Lemma create_inv_reachable c w0 calls s :
  c <> "" -> Forall (fun a => a <> CDelete c) calls ->
  rtc step (init w0 (map call_thread calls)) s -> quiet_inv c s /\ create_inv c s.
Proof.
  intros Hc Hcalls Hrtc. pattern s. revert s Hrtc. apply rtc_ind_r.
  - split; [by apply quiet_inv_init | by apply create_inv_init].
  - intros y z _ Hstep [Hq Hcr]. split; [exact (quiet_inv_step _ _ _ Hq Hstep)|exact (create_inv_step _ _ _ Hcr Hstep)].
Qed.

(** A guarded program that has returned satisfies [P]. *)
Lemma guarded_ret E {A} (P : A -> Prop) (p : Prog A) a : view p = VRet a -> guarded E P p -> P a.
Proof. destruct p as [? a'|? R o k|? q k]; simpl; intros [=]; by subst. Qed.

Lemma answered_created_not_guarded c t : answered_created c t = true -> ~ t_guarded c t.
Proof.
  destruct t as [p|p]; unfold answered_created, response_of, t_guarded; [|discriminate].
  destruct (view p) as [r| |] eqn:Hv; try discriminate. intros Ha Hg.
  apply (guarded_ret _ _ _ _ Hv) in Hg.
  repeat case_match; try discriminate. subst. bool_prop. subst. by eapply Hg.
Qed.

Lemma answered_le_weight c ns ts :
  Forall2 (create_weight c) ns ts -> length (List.filter (answered_created c) ts) <= sum_list ns.
Proof.
  induction 1 as [|n t ns ts Hw _ IH]; simpl; [lia|].
  destruct (answered_created c t) eqn:Ha; simpl; [|lia].
  destruct Hw as [Hn|Hg]; [lia|]. by destruct (answered_created_not_guarded _ _ Ha).
Qed.

(** C18: concurrent creates of a code have a single winner.  Run any
    requests concurrently, except a [DELETE] of [c], with any
    interleaving and any store faults: in every reachable state at most
    one request has answered 201 for the code [c], and none if [c] was
    stored at the start.  [createLink]'s put carries
    [attribute_not_exists(code)], an atomic insert-if-absent, and a
    handler answers 201 only after that put succeeded (spec section 5). *)
Theorem concurrent_creates_one_winner c w0 calls s :
  c <> "" -> Forall (fun a => a <> CDelete c) calls ->
  rtc step (init w0 (map call_thread calls)) s ->
  length (List.filter (answered_created c) (s_threads s)) + stored c w0 <= 1.
Proof.
  intros Hc Hcalls Hrtc.
  destruct (create_inv_reachable _ _ _ _ Hc Hcalls Hrtc) as ((_ & Hl) & ns & Hw & Hsum).
  pose proof (at_most_one_create c w0 _ s Hrtc Hl).
  pose proof (answered_le_weight _ _ _ Hw). lia.
Qed.

Definition post_call (c : string) : ApiCall := CPost (JStr "https://a.io") (JStr c) [].

(** Two creates of the same fresh code, interleaved so that both read the
    clock before either writes. *)
Definition two_creates_api : Sys :=
  run_sched [Some (0, Normal); Some (1, Normal); Some (1, Normal); Some (0, Normal)]
    (init w_example (map call_thread [post_call "new777"; post_call "new777"])).

Lemma concurrent_creates_one_winner_witness :
  length (List.filter (answered_created "new777") (s_threads two_creates_api)) +
    stored "new777" w_example <= 1 /\
  map response_of (s_threads two_creates_api) =
    [Some (RJson 409 (BError "Code exists"));
     Some (RJson 201 (BCreated (JStr "new777") (JStr "https://a.io")))].
Proof.
  split; [|vm_compute; reflexivity].
  apply (concurrent_creates_one_winner "new777" w_example [post_call "new777"; post_call "new777"]);
    [discriminate | repeat constructor; discriminate | apply run_sched_reachable].
Defined.

(** ** Concurrent redirects *)

(** [c] is stored, and the increments the threads still owe plus those
    committed make [N]. *)
Definition click_inv (c : string) (N : nat) (s : Sys) : Prop :=
  is_Some (w_table (s_world s) !! c) /\
  exists ns, Forall2 (t_incs c) ns (s_threads s) /\
    sum_list ns + length (omap (update_on c) (s_log s)) = N.

Lemma omap_update_on_app c e l :
  length (omap (update_on c) (option_list e ++ l)) = entry_incs c e + length (omap (update_on c) l).
Proof. destruct e as [e|]; simpl; [|done]. unfold inc_count. by destruct (update_on c e). Qed.

Lemma click_inv_step c N s s' :
  quiet_inv c s -> quiet_inv c s' -> click_inv c N s -> nstep s s' -> click_inv c N s'.
Proof.
  intros _ [_ Hl'] [Hst (ns & Hw & Hsum)] Hstep.
  destruct Hstep as [i s s' Hs|s]; [|split; [exact Hst|exists ns; by split]].
  split.
  - destruct (sys_step_world _ _ _ _ Hs) as [[_ ->] | (R & o & r & Hlog & He)]; [exact Hst|].
    rewrite Hlog in Hl'. inversion Hl' as [|? ? Hd _]; subst.
    exact (commit_keeps _ _ _ _ _ _ He Hd Hst).
  - destruct (sys_step_inv _ _ _ _ Hs) as (t & t' & sp & e & Hi & Ht & -> & ->).
    destruct (Forall2_lookup_r _ _ _ _ _ Hw Hi) as (x & Hx & Hxt).
    destruct (thread_step_incs _ _ _ _ _ _ _ _ Hxt Hst Ht) as (n' & nsp & Hn' & Hsp & ->).
    exists (<[i := n']> ns ++ nsp).
    split; [exact (ghost_update _ _ _ _ _ _ _ _ _ _ Hw Hi Hx Hn' Hsp)|].
    rewrite sum_list_with_app, omap_update_on_app.
    pose proof (sum_list_insert ns i n' _ Hx). lia.
Qed.

Lemma nstep_step s s' : nstep s s' -> step s s'.
Proof. destruct 1; [by econstructor | apply step_tick]. Qed.

Lemma sum_list_redirects c calls :
  sum_list (map (fun a => if is_redirect_of c a then 1 else 0) calls) =
  length (List.filter (is_redirect_of c) calls).
Proof. induction calls as [|a calls IH]; simpl; [done|]. destruct (is_redirect_of c a); simpl; lia. Qed.

Lemma click_inv_init c w0 calls :
  c <> "" -> is_Some (w_table w0 !! c) ->
  click_inv c (length (List.filter (is_redirect_of c) calls)) (init w0 (map call_thread calls)).
Proof.
  intros Hc Hst. split; [exact Hst|].
  exists (map (fun a => if is_redirect_of c a then 1 else 0) calls).
  split; [|rewrite sum_list_redirects; simpl; lia].
  apply Forall2_fmap, Forall_Forall2_diag, Forall_forall. intros a _. by apply call_incs.
Qed.

Lemma click_inv_reachable c w0 calls s :
  c <> "" -> Forall (fun a => a <> CDelete c) calls -> is_Some (w_table w0 !! c) ->
  rtc nstep (init w0 (map call_thread calls)) s ->
  quiet_inv c s /\ click_inv c (length (List.filter (is_redirect_of c) calls)) s.
Proof.
  intros Hc Hcalls Hst Hrtc. pattern s. revert s Hrtc. apply rtc_ind_r.
  - split; [by apply quiet_inv_init | by apply click_inv_init].
  - intros y z _ Hstep [Hq Hcl].
    pose proof (quiet_inv_step _ _ _ Hq (nstep_step _ _ Hstep)) as Hq'.
    split; [exact Hq'|exact (click_inv_step _ _ _ _ Hq Hq' Hcl Hstep)].
Qed.

(** A program that has returned owes nothing. *)
Lemma incs_ret c {A} n (p : Prog A) a : view p = VRet a -> incs c n p -> n = 0.
Proof. destruct p as [? a'|? R o k|? q k]; simpl; intros [=]; done. Qed.

Lemma t_incs_done c ns ts :
  Forall2 (t_incs c) ns ts -> Forall (fun t => thread_done t = true) ts -> sum_list ns = 0.
Proof.
  induction 1 as [|n t ns ts Hn _ IH]; intros Hd; [done|]. inversion Hd as [|? ? Ht Hts]; subst.
  simpl. rewrite (IH Hts).
  destruct t as [p|p]; unfold thread_done in Ht; destruct (view p) eqn:Hv; try discriminate;
    rewrite (incs_ret _ _ _ _ Hv Hn); done.
Qed.

(** Every state a schedule without faults reaches is reachable by
    [nstep]. *)
Lemma run_sched_nreachable sch s :
  Forall (fun x => match x with Some (_, Fault) => False | _ => True end) sch ->
  rtc nstep s (run_sched sch s).
Proof.
  revert s. induction sch as [|[[i m]|] sch IH]; intros s Hsch; simpl; [apply rtc_refl| |];
    inversion Hsch as [|? ? Hx Hsch']; subst.
  - destruct m; [|done]. destruct (sys_step i Normal s) as [s'|] eqn:E; [|by apply IH].
    eapply rtc_l; [by econstructor | by apply IH].
  - eapply rtc_l; [apply nstep_tick | by apply IH].
Qed.

(** C19: no click of a redirect is lost.  Run any requests concurrently,
    except a [DELETE] of a stored code [c], with any interleaving and no
    store fault: once every request and every increment it spawned has
    finished, the click count of [c] is its initial count plus the number
    of redirects of [c] among the requests, and its [url] and [createdAt]
    are unchanged.  Each redirect's [incrementClick] is one atomic [ADD]
    (spec section 8, fourth property). *)
Theorem redirects_all_counted c w0 calls s it0 n0 :
  c <> "" -> Forall (fun a => a <> CDelete c) calls ->
  w_table w0 !! c = Some it0 -> it_clicks it0 = Some n0 ->
  rtc nstep (init w0 (map call_thread calls)) s ->
  Forall (fun t => thread_done t = true) (s_threads s) ->
  exists it, w_table (s_world s) !! c = Some it /\
    it_clicks it = Some (n0 + Z.of_nat (length (List.filter (is_redirect_of c) calls)))%Z /\
    it_url it = it_url it0 /\ it_createdAt it = it_createdAt it0.
Proof.
  intros Hc Hcalls H0 Hn0 Hrtc Hdone.
  destruct (click_inv_reachable c w0 calls s Hc Hcalls ltac:(rewrite H0; eauto) Hrtc)
    as ([_ Hl] & _ & ns & Hw & Hsum).
  rewrite (t_incs_done _ _ _ Hw Hdone) in Hsum.
  assert (Hstep : rtc step (init w0 (map call_thread calls)) s)
    by (eapply rtc_subrel; [apply nstep_step | exact Hrtc]).
  destruct (increments_all_counted c w0 _ s it0 n0 Hstep H0 Hn0 Hl) as (it & Hit & Hcl & Hu & Hcr & _).
  exists it. rewrite <- Hsum. auto.
Qed.

Lemma redirects_all_counted_witness :
  exists it, w_table (s_world two_clicks_reversed) !! "abc123" = Some it /\
    it_clicks it = Some (0 + Z.of_nat (length (List.filter (is_redirect_of "abc123")
                                                  [CRedirect "abc123"; CRedirect "abc123"])))%Z /\
    it_url it = Some (AS "https://example.com") /\ it_createdAt it = Some 1000%Z.
Proof.
  apply (redirects_all_counted "abc123" w_example [CRedirect "abc123"; CRedirect "abc123"]
           two_clicks_reversed (new_item (AS "https://example.com") 1000) 0);
    [discriminate | repeat constructor; discriminate | reflexivity | reflexivity
    | apply run_sched_nreachable; repeat constructor | vm_compute; repeat constructor].
Defined.
