(* ===== verification/Csv.v ===== *)
(** * CSV export of the dashboard

    [downloadCsv] of [src/pages/index.js] (lines 50-62): the headers are the
    keys of the first row, every cell goes through [escape], which doubles
    each double-quote character of [String(v)] and wraps the result in
    double quotes; cells are joined by commas and lines by line feeds.  The text is what the model
    produces; the Blob, the object URL and the anchor click that hand it to
    the browser are not modelled.  A reference parser for fully quoted CSV
    (RFC 4180) reads the text back: the export is lossless, whatever quotes,
    commas or line breaks the cells contain. *)

From S2P Require Import Prelude JsValue.

(** ** Export *)

Definition quote : ascii := "034"%char.
Definition comma : ascii := ","%char.
Definition newline : ascii := "010"%char.

(** [s.replace(/QUOTE/g, QUOTE QUOTE)]: every double quote doubled. *)
Fixpoint double_quotes (s : string) : string :=
  match s with
  | EmptyString => EmptyString
  | String c r =>
      if decide (c = quote) then String quote (String quote (double_quotes r))
      else String c (double_quotes r)
  end.

(** [escape] on a string: the quoted, quote-doubled text. *)
Definition escape_str (s : string) : string :=
  String quote (double_quotes s +:+ String quote EmptyString).

(** The default parameter of [escape]: applied when [v] is [undefined]. *)
Definition default_empty (v : JsValue) : JsValue :=
  match v with JUndef => JStr EmptyString | _ => v end.

(** [escape(v)]: the default, then [String(v)], then the quoting. *)
Definition escape (v : JsValue) : string := escape_str (js_to_string (default_empty v)).

(** [arr.join(sep)] *)
Fixpoint js_join (sep : string) (l : list string) : string :=
  match l with
  | [] => EmptyString
  | [x] => x
  | x :: r => x +:+ (sep +:+ js_join sep r)
  end.

(** A row is a plain object: its own keys in insertion order. *)
Definition Row : Type := list (string * JsValue).

(** [r[h]]: [undefined] when [r] has no key [h]. *)
Fixpoint get_field (r : Row) (h : string) : JsValue :=
  match r with
  | [] => JUndef
  | (k, v) :: r' => if String.eqb k h then v else get_field r' h
  end.

Definition encode_line (cells : list string) : string := js_join "," (map escape_str cells).

(** [downloadCsv(rows)]: [None] is the early return on an empty list, in
    which case nothing is downloaded. *)
Definition downloadCsv (rows : list Row) : option string :=
  match rows with
  | [] => None
  | r0 :: _ =>
      let headers := map fst r0 in
      Some (js_join (String newline EmptyString)
              (js_join "," (map escape_str headers)
               :: map (fun r => js_join "," (map (fun h => escape (get_field r h)) headers)) rows))
  end.

(** The text of a table of cells, each quoted as [escape] quotes it. *)
Definition encode_csv (rows : list (list string)) : string :=
  js_join (String newline EmptyString) (map encode_line rows).

(** [String(v)] of a cell after the default parameter. *)
Definition cell_text (v : JsValue) : string := js_to_string (default_empty v).

(** ** Reference parser *)

(** The body of a quoted field up to its closing quote, a doubled quote
    standing for one quote; returns the field and the text after it. *)
Fixpoint parse_quoted (s : string) : option (string * string) :=
  match s with
  | EmptyString => None
  | String c r =>
      if decide (c = quote) then
        match r with
        | String c' r' =>
            if decide (c' = quote) then option_map (fun p => (String quote p.1, p.2)) (parse_quoted r')
            else Some (EmptyString, r)
        | EmptyString => Some (EmptyString, EmptyString)
        end
      else option_map (fun p => (String c p.1, p.2)) (parse_quoted r)
  end.

(** One record: quoted fields separated by commas, ended by a newline
    (the rest follows) or by the end of the text.  [fuel] bounds the number
    of fields. *)
Fixpoint parse_record (fuel : nat) (s : string) : option (list string * option string) :=
  match fuel with
  | O => None
  | S n =>
      match s with
      | String c r =>
          if decide (c = quote) then
            match parse_quoted r with
            | Some (f, EmptyString) => Some ([f], None)
            | Some (f, String d rest) =>
                if decide (d = comma) then option_map (fun p => (f :: p.1, p.2)) (parse_record n rest)
                else if decide (d = newline) then Some ([f], Some rest)
                else None
            | None => None
            end
          else None
      | EmptyString => None
      end
  end.

Fixpoint parse_rows (fuel : nat) (s : string) : option (list (list string)) :=
  match fuel with
  | O => None
  | S n =>
      match parse_record (S (String.length s)) s with
      | Some (fs, None) => Some [fs]
      | Some (fs, Some rest) => option_map (cons fs) (parse_rows n rest)
      | None => None
      end
  end.

(** Every record and every field takes at least one character, so the
    length of the text is enough fuel. *)
Definition parse_csv (s : string) : option (list (list string)) :=
  parse_rows (S (String.length s)) s.

(** ** Lemmas *)

(** The text after a closing quote does not start with a quote. *)
Definition quote_free_head (s : string) : Prop :=
  match s with String c _ => c <> quote | EmptyString => True end.

(** How a record ends: the end of the text, or a newline and the rest. *)
Definition line_end (rt : option string) : string :=
  match rt with None => EmptyString | Some rest => String newline rest end.

(** Evaluates the character tests of the parser whose outcome the
    context decides. *)
Ltac decide_simpl :=
  simpl; repeat first [rewrite decide_True by done | rewrite decide_False by done].

Lemma parse_quoted_escape f rest :
  quote_free_head rest ->
  parse_quoted (double_quotes f +:+ String quote rest) = Some (f, rest).
Proof.
  intros Hrest. induction f as [|c f IH]; simpl double_quotes.
  - rewrite string_app_nil_l. decide_simpl.
    destruct rest as [|c' r']; [done|]. simpl in Hrest. by decide_simpl.
  - case_decide as Hc; rewrite !string_app_cons; decide_simpl; rewrite IH; by subst.
Qed.

Lemma escape_str_app f t :
  escape_str f +:+ t = String quote (double_quotes f +:+ String quote t).
Proof. unfold escape_str. rewrite string_app_cons, <- string_app_assoc. done. Qed.

Lemma encode_line_cons f g fs :
  encode_line (f :: g :: fs) = escape_str f +:+ String comma (encode_line (g :: fs)).
Proof. reflexivity. Qed.

Lemma js_join_length_ge sep (l : list string) :
  Forall (fun x => 1 <= String.length x) l -> length l <= String.length (js_join sep l).
Proof.
  induction 1 as [|x l Hx Hl IH]; [simpl; lia|].
  destruct l as [|y l]; [simpl; lia|].
  change (js_join sep (x :: y :: l)) with (x +:+ (sep +:+ js_join sep (y :: l))).
  rewrite !string_app_length. simpl length in *. lia.
Qed.

Lemma escape_str_length f : 1 <= String.length (escape_str f).
Proof. simpl. lia. Qed.

Lemma encode_line_length fs : length fs <= String.length (encode_line fs).
Proof.
  unfold encode_line. rewrite <- (length_map escape_str fs). apply js_join_length_ge.
  apply Forall_forall. intros x Hx. apply list_elem_of_fmap_1 in Hx.
  destruct Hx as (f & -> & _). apply escape_str_length.
Qed.

Lemma parse_record_encode fs rt n :
  fs <> [] -> length fs <= n ->
  parse_record n (encode_line fs +:+ line_end rt) = Some (fs, rt).
Proof.
  revert n. induction fs as [|f fs IH]; intros n Hne Hn; [done|].
  destruct n as [|n]; [simpl in Hn; lia|].
  destruct fs as [|g fs].
  - change (encode_line [f]) with (escape_str f). rewrite escape_str_app. decide_simpl.
    rewrite parse_quoted_escape by (destruct rt; simpl; done).
    destruct rt; decide_simpl; done.
  - rewrite encode_line_cons, <- string_app_assoc, escape_str_app, string_app_cons.
    decide_simpl. rewrite parse_quoted_escape by done. decide_simpl.
    rewrite IH by (done || simpl in *; lia). done.
Qed.

Lemma encode_csv_cons fs gs rs :
  encode_csv (fs :: gs :: rs) = encode_line fs +:+ line_end (Some (encode_csv (gs :: rs))).
Proof. reflexivity. Qed.

Lemma encode_line_nonempty fs : fs <> [] -> 1 <= String.length (encode_line fs).
Proof. intros Hne. pose proof (encode_line_length fs). destruct fs; [done|simpl in *; lia]. Qed.

Lemma parse_rows_encode rows n :
  rows <> [] -> Forall (fun fs => fs <> []) rows -> length rows <= n ->
  parse_rows n (encode_csv rows) = Some rows.
Proof.
  revert n. induction rows as [|fs rows IH]; intros n Hne Hall Hn; [done|].
  apply Forall_cons in Hall as [Hfs Hall].
  destruct n as [|n]; [simpl in Hn; lia|].
  assert (Hfuel : forall t, length fs <= S (String.length (encode_line fs +:+ t))).
  { intros t. rewrite string_app_length. pose proof (encode_line_length fs). lia. }
  destruct rows as [|gs rs].
  - pose proof (parse_record_encode fs None _ Hfs (Hfuel (line_end None))) as E.
    simpl line_end in E. rewrite string_app_nil_r in E.
    change (encode_csv [fs]) with (encode_line fs). cbn [parse_rows]. rewrite E. done.
  - rewrite encode_csv_cons. cbn [parse_rows].
    rewrite parse_record_encode by auto. rewrite IH by (done || simpl in *; lia). done.
Qed.

Lemma csv_roundtrip rows :
  rows <> [] -> Forall (fun fs => fs <> []) rows -> parse_csv (encode_csv rows) = Some rows.
Proof.
  intros Hne Hall. apply parse_rows_encode; [done|done|].
  unfold encode_csv. rewrite <- (length_map encode_line rows).
  pose proof (js_join_length_ge (String newline EmptyString) (map encode_line rows)) as H.
  cut (length (map encode_line rows) <= String.length (js_join (String newline EmptyString) (map encode_line rows))); [lia|].
  apply H. apply Forall_fmap. eapply Forall_impl; [exact Hall|]. apply encode_line_nonempty.
Qed.

Lemma escape_line r hs :
  js_join "," (map (fun h => escape (get_field r h)) hs) =
  encode_line (map (fun h => cell_text (get_field r h)) hs).
Proof. unfold encode_line. rewrite map_map. reflexivity. Qed.

(** Each data line of [downloadCsv] is the encoding of its cell texts. *)
Lemma downloadCsv_encode r0 rows :
  downloadCsv (r0 :: rows) =
  Some (encode_csv (map fst r0 :: map (fun r => map (fun h => cell_text (get_field r h)) (map fst r0)) (r0 :: rows))).
Proof.
  unfold downloadCsv, encode_csv. cbn [map].
  setoid_rewrite escape_line. rewrite (map_map _ encode_line). reflexivity.
Qed.

(** ** Properties *)

(** C24: the CSV export is lossless: for any non-empty list of rows whose
    first row has at least one key, [downloadCsv] produces a text, and a
    standard CSV reader gives back the header line (the keys of the first
    row) and, for each row, the [String] of its value under each header,
    whatever quotes, commas and line breaks the values contain. *)
Theorem downloadCsv_roundtrip r0 rows :
  r0 <> [] ->
  exists csv, downloadCsv (r0 :: rows) = Some csv /\
    parse_csv csv =
      Some (map fst r0 :: map (fun r => map (fun h => cell_text (get_field r h)) (map fst r0)) (r0 :: rows)).
Proof.
  intros Hne. eexists. split; [apply downloadCsv_encode|].
  apply csv_roundtrip; [done|].
  assert (map fst r0 <> []) by (destruct r0; done).
  constructor; [done|]. apply Forall_forall. intros x Hx.
  apply list_elem_of_fmap_1 in Hx as (r & -> & _). rewrite <- length_zero_iff_nil, length_map.
  rewrite length_zero_iff_nil. done.
Qed.

Lemma downloadCsv_roundtrip_witness :
  [("code", JStr "ab12cd"); ("url", JStr (String quote "https://x.io/?q=a,b"))] <> [] /\
  exists csv,
    downloadCsv [[("code", JStr "ab12cd"); ("url", JStr (String quote "https://x.io/?q=a,b"))];
                 [("code", JStr "ef34gh"); ("clicks", JNum 3)]] = Some csv /\
    parse_csv csv = Some [["code"; "url"]; ["ab12cd"; String quote "https://x.io/?q=a,b"];
                          ["ef34gh"; ""]].
Proof.
  split; [discriminate|].
  exact (downloadCsv_roundtrip [("code", JStr "ab12cd"); ("url", JStr (String quote "https://x.io/?q=a,b"))]
           [[("code", JStr "ef34gh"); ("clicks", JNum 3)]] ltac:(discriminate)).
Defined.
