(* ===== verification/Dashboard.v ===== *)
(** * The dashboard's list view

    The derived data of [Dashboard] in [src/pages/index.js]: the links as
    [fetchLinks] normalizes them from [GET /api/links] (lines 94-112), the
    search filter and the column sort of [filtered] (lines 198-210), the
    page slice, the totals and the average of the stats cards (lines
    212-214 and 258), [handleRequestSort] (line 215), the visible-rows CSV
    export (line 216) and [relativeTimeFrom] (lines 30-41).

    Timestamps are the [Z] milliseconds of [Dynamo]; [new Date(iso)
    .getTime()] is the identity on them and their ISO text is a parameter
    [iso] of the export.  The server stores string urls, and array urls
    as DynamoDB lists ([validUrl] accepts both, see [Url.validUrl_scheme]);
    a normalized link keeps a string url and holds any other url as
    absent, a simplification of the array text the cells would render.
    Click counts are numeric, so a normalized link has an
    integral click count: the [NaN] of [Number(l.clicks || 0)] does not
    arise. *)

From S2P Require Import Prelude JsValue Dynamo Api Csv.
From Stdlib Require Import Sorted.

(** ** Normalized links *)

Record DLink := mkDLink {
  dl_code : string;
  dl_url : option string;          (** [undefined] for a record without url *)
  dl_clicks : Z;
  dl_lastClickedAt : option Z;     (** [null] when never clicked *)
  dl_createdAt : option Z
}.

#[export] Instance DLink_eq_dec : EqDecision DLink.
Proof. solve_decision. Defined.

(** The [url] field of the JSON object [unmarshall] builds. *)
Definition json_url (v : option AttrVal) : option string :=
  match v with Some (AS s) => Some s | _ => None end.

(** The [map] callback of [fetchLinks]: [clicks] is the number when there
    is one and [Number(undefined || 0) = 0] otherwise; the dates fall back
    to [null]. *)
Definition normalize (l : Link) : DLink :=
  mkDLink l.1 (json_url (it_url l.2))
    (match it_clicks l.2 with Some n => n | None => 0%Z end)
    (it_lastClickedAt l.2) (it_createdAt l.2).

(** [fetchLinks]: the normalized list when [res.ok], [None] when it throws
    (the list is then left as it was and an error snack is shown). *)
Definition fetch_links (r : Response) : option (list DLink) :=
  match r with
  | RJson s (BLinks l) => if ((200 <=? s) && (s <? 300))%Z then Some (map normalize l) else None
  | _ => None
  end.

(** ** Search, sort and pages *)

Inductive SortKey := ByCode | ByClicks | ByCreatedAt.
Inductive Dir := Asc | Desc.

#[export] Instance SortKey_eq_dec : EqDecision SortKey.
Proof. solve_decision. Defined.
#[export] Instance Dir_eq_dec : EqDecision Dir.
Proof. solve_decision. Defined.

(** [(debouncedSearch || "").trim().toLowerCase()] *)
Definition search_query (search : string) : string := js_to_lower (js_trim search).

(** The [filter] callback. *)
Definition matches (q : string) (l : DLink) : bool :=
  String.eqb q "" ||
  js_includes (js_to_lower (dl_code l)) q ||
  js_includes (js_to_lower (default "" (dl_url l))) q.

(** The value a link is sorted on: [a[orderBy] ?? 0], a date turned into
    its time, [null] into [0]. *)
Inductive SortVal := SNum (n : Z) | SStr (s : string).

Definition sort_val (k : SortKey) (l : DLink) : SortVal :=
  match k with
  | ByCode => SStr (dl_code l)
  | ByClicks => SNum (dl_clicks l)
  | ByCreatedAt => SNum (default 0%Z (dl_createdAt l))
  end.

(** [A < B]; the two sides are always of the same kind. *)
Definition sort_lt (a b : SortVal) : bool :=
  match a, b with
  | SNum x, SNum y => (x <? y)%Z
  | SStr x, SStr y => js_str_ltb x y
  | _, _ => false
  end.

(** The comparator of [.sort((a, b) => ...)]. *)
Definition compare_links (k : SortKey) (d : Dir) (a b : DLink) : Z :=
  let A := sort_val k a in
  let B := sort_val k b in
  if sort_lt A B then (if decide (d = Asc) then -1 else 1)%Z
  else if sort_lt B A then (if decide (d = Asc) then 1 else -1)%Z
  else 0%Z.




(** [Array.prototype.sort] with a consistent comparator is the stable sort:
    insertion after every element that does not compare greater. *)
Fixpoint insert_by {A} (cmp : A -> A -> Z) (x : A) (l : list A) : list A :=
  match l with
  | [] => [x]
  | y :: l' => if (0 <? cmp y x)%Z then x :: l else y :: insert_by cmp x l'
  end.

Definition js_sort {A} (cmp : A -> A -> Z) (l : list A) : list A :=
  fold_left (fun acc x => insert_by cmp x acc) l [].

(** The view state the derived data depends on. *)
Record View := mkView {
  v_search : string;      (** the debounced search text *)
  v_orderBy : SortKey;
  v_orderDir : Dir;
  v_page : nat;
  v_rowsPerPage : nat
}.

Definition initial_view : View := mkView "" ByCreatedAt Desc 0 8.

Definition filtered (v : View) (links : list DLink) : list DLink :=
  js_sort (compare_links (v_orderBy v) (v_orderDir v))
    (List.filter (matches (search_query (v_search v))) links).

Definition totalRows (v : View) (links : list DLink) : nat := length (filtered v links).

Definition pageData (v : View) (links : list DLink) : list DLink :=
  js_slice (v_page v * v_rowsPerPage v) (v_page v * v_rowsPerPage v + v_rowsPerPage v)
    (filtered v links).

(** [links.reduce((s, l) => s + (l.clicks || 0), 0)] *)
Definition totalClicks (links : list DLink) : Z :=
  fold_left (fun s l => s + dl_clicks l)%Z links 0%Z.

(** The "Avg. Clicks" card. *)
Definition avgClicks (links : list DLink) : Z :=
  if 0 <? length links then js_round_div (totalClicks links) (Z.of_nat (length links)) else 0%Z.

(** [handleRequestSort(property)] *)
Definition handleRequestSort (property : SortKey) (v : View) : View :=
  let isAsc := bool_decide (v_orderBy v = property) && bool_decide (v_orderDir v = Asc) in
  mkView (v_search v) property (if isAsc then Desc else Asc) (v_page v) (v_rowsPerPage v).

(** [exportVisibleCsv]: the rows of the current page as plain objects. *)
Definition export_row (iso : Z -> string) (r : DLink) : Row :=
  [("code", JStr (dl_code r));
   ("url", match dl_url r with Some u => JStr u | None => JUndef end);
   ("clicks", JNum (dl_clicks r));
   ("lastClickedAt", JStr (match dl_lastClickedAt r with Some t => iso t | None => "" end));
   ("createdAt", JStr (match dl_createdAt r with Some t => iso t | None => "" end))].

Definition exportVisibleCsv (iso : Z -> string) (v : View) (links : list DLink) : option string :=
  downloadCsv (map (export_row iso) (pageData v links)).

(** ** Relative time *)

Inductive TimeUnit := USec | UMin | UHour | UDay.

(** The cascade of [Math.round]s of [relativeTimeFrom] on the elapsed
    milliseconds [diff]. *)
Definition relative_parts (diff : Z) : Z * TimeUnit :=
  let s := js_round_div diff 1000 in
  if (s <? 60)%Z then (s, USec) else
  let m := js_round_div s 60 in
  if (m <? 60)%Z then (m, UMin) else
  let h := js_round_div m 60 in
  if (h <? 24)%Z then (h, UHour) else
  (js_round_div h 24, UDay).

Definition unit_suffix (u : TimeUnit) : string :=
  match u with USec => "s ago" | UMin => "m ago" | UHour => "h ago" | UDay => "d ago" end.

(** [relativeTimeFrom(iso)] at time [now] ([Date.now()]). *)
Definition relativeTimeFrom (now : Z) (iso : option Z) : string :=
  match iso with
  | None => "-"
  | Some t => let '(n, u) := relative_parts (now - t) in number_to_string n +:+ unit_suffix u
  end.

(** [setPage(p)] of [TablePagination]'s [onPageChange]. *)
Definition setPage (p : nat) (v : View) : View :=
  mkView (v_search v) (v_orderBy v) (v_orderDir v) p (v_rowsPerPage v).

(** The number of pages [TablePagination] offers:
    [Math.ceil(count / rowsPerPage)]. *)
Definition page_count (v : View) (links : list DLink) : nat :=
  (totalRows v links + v_rowsPerPage v - 1) / v_rowsPerPage v.

(** ** What the page renders *)

(** The three cards above the table: [links.length], [totalClicks] and the
    average. *)
Definition stats_cards (links : list DLink) : nat * Z * Z :=
  (length links, totalClicks links, avgClicks links).

(** What one row shows.  The last click is a relative time, or a dash
    in the table and "Never clicked" on the cards of the mobile layout. *)
Record RowView := mkRowView {
  rv_code : string;
  rv_url : option string;
  rv_clicks : Z;
  rv_last : string
}.

Inductive Layout := Mobile | Desktop.

(** A card of the mobile layout. *)
Definition card_view (now : Z) (l : DLink) : RowView :=
  mkRowView (dl_code l) (dl_url l) (dl_clicks l)
    (match dl_lastClickedAt l with Some t => relativeTimeFrom now (Some t) | None => "Never clicked" end).

(** A row of the table ([l.clicks ?? 0] is the click count: it is never
    [null]). *)
Definition row_view (now : Z) (l : DLink) : RowView :=
  mkRowView (dl_code l) (dl_url l) (dl_clicks l)
    (match dl_lastClickedAt l with Some t => relativeTimeFrom now (Some t) | None => "—" end).

Definition render_rows (lay : Layout) (now : Z) (v : View) (links : list DLink) : list RowView :=
  map (match lay with Mobile => card_view now | Desktop => row_view now end) (pageData v links).

(** [pageData.length===0]: the "No links yet" box. *)
Definition shows_empty_message (v : View) (links : list DLink) : bool :=
  Nat.eqb (length (pageData v links)) 0.

(** [totalRows > 0]: the pagination bar. *)
Definition pagination_shown (v : View) (links : list DLink) : bool := 0 <? totalRows v links.

(** The sortable headers of the desktop table (lines 335-338): the key
    each label's [TableSortLabel] passes to [handleRequestSort]. *)
Definition header_key (label : string) : option SortKey :=
  if label === "Code" then Some ByCode
  else if label === "Clicks" then Some ByClicks
  else if label === "Last clicked" then Some ByCreatedAt
  else None.

(** A click on a header's label. *)
Definition click_header (label : string) (v : View) : View :=
  match header_key label with Some k => handleRequestSort k v | None => v end.

(** ** The stable sort *)

Section StableSort.
Context {A : Type} (cmp : A -> A -> Z).

  (** The comparator never says both [a > b] and [b > a]. *)
Hypothesis cmp_anti : forall a b, (0 < cmp a b)%Z -> (cmp b a <= 0)%Z.






(** Stability: with a transitive comparator, the elements of a class [P]
    of ties keep their order. *)
Section Stable.
Hypothesis cmp_trans : forall a b c, (cmp a b <= 0)%Z -> (cmp b c <= 0)%Z -> (cmp a c <= 0)%Z.
Variable P : A -> bool.
Hypothesis P_tie : forall a b, P a = true -> P b = true -> (cmp a b <= 0)%Z.


End Stable.
End StableSort.

(** ** The comparator *)









(** ** The list the dashboard fetches *)

Section Fetch.
Context `{LinkStoreLaws}.

Lemma run_list_links rand w :
    run (links_index (get_req "") rand) w = (RJson 200 (BLinks (scan_page (map_to_list (w_table w)))), w).
  Proof. unfold links_index. simpl String.eqb. cbn iota. rewrite run_bind, law_list. done. Qed.
End Fetch.

Lemma normalize_code l : dl_code (normalize l) = l.1.
Proof. done. Qed.

Lemma codes_page (l : list Link) : map dl_code (map normalize l) = l.*1.
Proof. rewrite map_map, list_map_fmap. apply list_fmap_ext. intros. done. Qed.

Lemma codes_normalized (t : gmap string Item) :
  map dl_code (map normalize (map_to_list t)) = (map_to_list t).*1.
Proof. rewrite map_map, list_map_fmap. apply list_fmap_ext. intros. done. Qed.

Lemma totalClicks_acc (links : list DLink) acc :
  fold_left (fun s l => s + dl_clicks l)%Z links acc = (acc + totalClicks links)%Z.
Proof.
  unfold totalClicks. revert acc. induction links as [|l links IH]; intros acc; simpl; [lia|].
  rewrite IH, (IH (0 + dl_clicks l)%Z). lia.
Qed.

Lemma totalClicks_bounds links lo hi :
  Forall (fun l => lo <= dl_clicks l <= hi)%Z links ->
  (Z.of_nat (length links) * lo <= totalClicks links <= Z.of_nat (length links) * hi)%Z.
Proof.
  induction 1 as [|l links Hl _ IH]; [unfold totalClicks; simpl; lia|].
  unfold totalClicks. simpl fold_left. rewrite totalClicks_acc. simpl length.
  rewrite Nat2Z.inj_succ, !Z.mul_succ_l. simpl in Hl. lia.
Qed.

(** Consecutive page slices of a list concatenate to a prefix of it. *)
Lemma slices_concat {A} (r n : nat) (l : list A) :
  concat (map (fun p => js_slice (p * r) (p * r + r) l) (seq 0 n)) = take (n * r) l.
Proof.
  induction n as [|n IH]; [done|].
  rewrite seq_S, map_app, concat_app, IH. simpl. rewrite app_nil_r.
  unfold js_slice. replace (n * r + r - n * r) with r by lia.
  rewrite take_take_drop. f_equal. lia.
Qed.

(** The rounding bound of [Math.round(p / q)]. *)
Lemma js_round_div_close p q :
  (0 < q)%Z -> (- q <= 2 * (q * js_round_div p q - p) <= q)%Z.
Proof. intros Hq. pose proof (js_round_div_bounds p q Hq). lia. Qed.

(** [Math.ceil(n / r)] pages of [r] rows hold [n] rows. *)
Lemma page_count_enough n r : 0 < r -> n <= (n + r - 1) / r * r.
Proof.
  intros Hr. pose proof (Nat.div_mod (n + r - 1) r ltac:(lia)).
  pose proof (Nat.mod_upper_bound (n + r - 1) r ltac:(lia)). rewrite Nat.mul_comm. lia.
Qed.

(** Three links as [fetchLinks] could normalize them. *)
Definition dash_example : list DLink :=
  [mkDLink "abc123" (Some "https://example.com") 5 None (Some 10%Z);
   mkDLink "zz9999" (Some "https://b.io") 7 (Some 3%Z) (Some 30%Z);
   mkDLink "Mmm000" None 5 None None].

(** ** Properties *)

Section DashboardFetch.
Context `{LinkStoreLaws}.

(** C25: what the dashboard shows after loading is the table, when the
    table fits in one Scan page: [GET /api/links] leaves the store
    unchanged, and [fetchLinks] turns its answer into a list with one
    entry per stored code, no code twice, each stored record appearing as
    its normalization. *)
Theorem dashboard_lists_table rand w :
  (table_size (map_to_list (w_table w)) <= scan_limit)%Z ->
  exists ls,
    fetch_links (run (links_index (get_req "") rand) w).1 = Some ls /\
    (run (links_index (get_req "") rand) w).2 = w /\
    NoDup (map dl_code ls) /\
    (forall c, c ∈ map dl_code ls <-> is_Some (w_table w !! c)) /\
    (forall c it, w_table w !! c = Some it -> normalize (c, it) ∈ ls).
Proof.
  intros Hfit. rewrite run_list_links. unfold scan_page. rewrite scan_page_from_all by done.
  eexists. split; [reflexivity|]. split; [done|]. rewrite codes_normalized. split; [apply NoDup_fst_map_to_list|]. split.
  - intros c. rewrite list_elem_of_fmap. split.
    + intros ([c' it] & -> & Hx). apply elem_of_map_to_list in Hx. by exists it.
    + intros [it Hit]. exists (c, it). split; [done|]. by apply elem_of_map_to_list.
  - intros c it Hit. rewrite list_map_fmap. apply list_elem_of_fmap_2.
    by apply elem_of_map_to_list.
Qed.
End DashboardFetch.

Lemma dashboard_lists_table_witness :
  (table_size (map_to_list (w_table w_example)) <= scan_limit)%Z /\
  exists ls,
    fetch_links (run (links_index (get_req "") []) w_example).1 = Some ls /\
    (run (links_index (get_req "") []) w_example).2 = w_example /\
    NoDup (map dl_code ls) /\
    (forall c, c ∈ map dl_code ls <-> is_Some (w_table w_example !! c)) /\
    (forall c it, w_table w_example !! c = Some it -> normalize (c, it) ∈ ls).
Proof.
  assert (Hfit : (table_size (map_to_list (w_table w_example)) <= scan_limit)%Z) by (vm_compute; discriminate).
  split; [exact Hfit|]. exact (@dashboard_lists_table dynamo_store dynamo_store_laws [] w_example Hfit).
Defined.

(** C38: past one Scan page the dashboard misses stored links: when the
    table's items, each at most DynamoDB's 400 KB, add up to more than
    1 MB plus one item, [GET /api/links] answers only the first page, since
    [listLinks] ignores [LastEvaluatedKey], and a stored code is absent
    from what the dashboard lists. *)
Lemma dashboard_truncated rand w :
  Forall (fun x => link_size x <= item_limit)%Z (map_to_list (w_table w)) ->
  (scan_limit + item_limit <= table_size (map_to_list (w_table w)))%Z ->
  exists ls c, fetch_links (run (@links_index dynamo_store (get_req "") rand) w).1 = Some ls /\
    is_Some (w_table w !! c) /\ c ∉ map dl_code ls.
Proof.
  intros Hmax Hbig. rewrite (@run_list_links dynamo_store dynamo_store_laws). eexists. simpl.
  pose proof (scan_page_from_prefix scan_limit (map_to_list (w_table w))) as [rest Hl].
  pose proof (scan_page_from_size scan_limit _ item_limit ltac:(done) Hmax) as Hs.
  destruct rest as [|[c it] rest].
  { rewrite app_nil_r in Hl. rewrite <- Hl in Hs. unfold scan_limit, item_limit in *. lia. }
  exists c. split; [reflexivity|]. split.
  { exists it. apply elem_of_map_to_list. rewrite Hl. apply elem_of_app. right. by left. }
  unfold scan_page. rewrite codes_page. pose proof (NoDup_fst_map_to_list (w_table w)) as Hnd.
  rewrite Hl, fmap_app, NoDup_app in Hnd. destruct Hnd as (_ & Hdisj & _).
  intros Hin. apply (Hdisj c Hin). simpl. by left.
Qed.

(** Four links whose urls have 400 013 characters each. *)
Definition long_item : Item :=
  mkItem (Some (AS ("https://x.io/" +:+ Pos.iter (String "a") "" 400000))) (Some 0%Z) (Some 0%Z) None.

Definition w_long : World :=
  mkWorld (<["aaaaaa" := long_item]> (<["bbbbbb" := long_item]>
          (<["cccccc" := long_item]> (<["dddddd" := long_item]> ∅)))) 0.

Lemma dashboard_truncated_witness :
  Forall (fun x => link_size x <= item_limit)%Z (map_to_list (w_table w_long)) /\
  (scan_limit + item_limit <= table_size (map_to_list (w_table w_long)))%Z /\
  exists ls c, fetch_links (run (@links_index dynamo_store (get_req "") []) w_long).1 = Some ls /\
    is_Some (w_table w_long !! c) /\ c ∉ map dl_code ls.
Proof.
  assert (H1 : Forall (fun x => link_size x <= item_limit)%Z (map_to_list (w_table w_long)))
    by (apply items_within_limit_sound; vm_compute; reflexivity).
  assert (H2 : (scan_limit + item_limit <= table_size (map_to_list (w_table w_long)))%Z)
    by (apply Z.leb_le; vm_compute; reflexivity).
  split; [exact H1|]. split; [exact H2|]. exact (dashboard_truncated [] w_long H1 H2).
Defined.


(** C27: paging loses no row and shows none twice: the pages
    [0 .. Math.ceil(totalRows / rowsPerPage) - 1], one after the other, are
    the filtered and sorted rows. *)
Theorem pages_cover_filtered v links :
  0 < v_rowsPerPage v ->
  concat (map (fun p => pageData (setPage p v) links) (seq 0 (page_count v links))) =
  filtered v links.
Proof.
  intros Hr. unfold page_count, totalRows.
  set (r := v_rowsPerPage v). set (l := filtered v links).
  transitivity (concat (map (fun p => js_slice (p * r) (p * r + r) l)
                          (seq 0 ((length l + r - 1) / r)))); [reflexivity|].
  rewrite slices_concat. apply take_ge. by apply page_count_enough.
Qed.

(** C28: the "Avg. Clicks" card lies between the smallest and the largest
    click count of the links. *)
Theorem avgClicks_bounds links lo hi :
  links <> [] -> Forall (fun l => lo <= dl_clicks l <= hi)%Z links ->
  (lo <= avgClicks links <= hi)%Z.
Proof.
  intros Hne Hall. pose proof (totalClicks_bounds _ _ _ Hall) as Ht.
  assert (Hlen : 0 < length links) by (destruct links; simpl; [done|lia]).
  unfold avgClicks. rewrite (proj2 (Nat.ltb_lt _ _) Hlen).
  set (n := Z.of_nat (length links)) in *. assert (0 < n)%Z by lia.
  pose proof (js_round_div_bounds (totalClicks links) n ltac:(lia)) as Hr.
  set (r := js_round_div _ n) in *. split.
  - destruct (Z.le_gt_cases lo r); [done|].
    assert (n * r <= n * (lo - 1))%Z by (apply Z.mul_le_mono_nonneg_l; lia). lia.
  - destruct (Z.le_gt_cases r hi); [done|].
    assert (n * (hi + 1) <= n * r)%Z by (apply Z.mul_le_mono_nonneg_l; lia). lia.
Qed.

(** C29: [relativeTimeFrom] on a past date picks the unit whose range the
    printed number falls in (seconds [0..59], minutes [1..59], hours
    [1..23], days from [1]), and the number times the unit is within half a
    unit, plus the rounding of the smaller units, of the elapsed time. *)
Theorem relative_time_bounds diff :
  (0 <= diff)%Z ->
  match relative_parts diff with
  | (n, USec) => 0 <= n < 60 /\ Z.abs (1000 * n - diff) <= 500
  | (n, UMin) => 1 <= n < 60 /\ Z.abs (60000 * n - diff) <= 30500
  | (n, UHour) => 1 <= n < 24 /\ Z.abs (3600000 * n - diff) <= 1830500
  | (n, UDay) => 1 <= n /\ Z.abs (86400000 * n - diff) <= 45030500
  end%Z.
Proof.
  intros Hd. unfold relative_parts.
  pose proof (js_round_div_close diff 1000 ltac:(lia)) as Hs.
  set (s := js_round_div diff 1000) in *.
  destruct (Z.ltb_spec s 60); [lia|].
  pose proof (js_round_div_close s 60 ltac:(lia)) as Hm.
  set (m := js_round_div s 60) in *.
  destruct (Z.ltb_spec m 60); [lia|].
  pose proof (js_round_div_close m 60 ltac:(lia)) as Hh.
  set (h := js_round_div m 60) in *.
  destruct (Z.ltb_spec h 24); [lia|].
  pose proof (js_round_div_close h 24 ltac:(lia)) as Hday. lia.
Qed.

Lemma pages_cover_filtered_witness :
  0 < v_rowsPerPage (mkView "" ByClicks Desc 0 2) /\
  concat (map (fun p => pageData (setPage p (mkView "" ByClicks Desc 0 2)) dash_example)
            (seq 0 (page_count (mkView "" ByClicks Desc 0 2) dash_example))) =
  filtered (mkView "" ByClicks Desc 0 2) dash_example.
Proof. split; [simpl; lia | apply pages_cover_filtered; simpl; lia]. Defined.

Lemma avgClicks_bounds_witness :
  dash_example <> [] /\ Forall (fun l => 5 <= dl_clicks l <= 7)%Z dash_example /\
  (5 <= avgClicks dash_example <= 7)%Z.
Proof.
  assert (Hall : Forall (fun l => 5 <= dl_clicks l <= 7)%Z dash_example)
    by (repeat constructor; simpl; lia).
  split; [discriminate|]. split; [exact Hall|].
  apply avgClicks_bounds; [discriminate | exact Hall].
Defined.

Lemma relative_time_bounds_witness :
  (0 <= 3570000)%Z /\
  match relative_parts 3570000 with
  | (n, USec) => 0 <= n < 60 /\ Z.abs (1000 * n - 3570000) <= 500
  | (n, UMin) => 1 <= n < 60 /\ Z.abs (60000 * n - 3570000) <= 30500
  | (n, UHour) => 1 <= n < 24 /\ Z.abs (3600000 * n - 3570000) <= 1830500
  | (n, UDay) => 1 <= n /\ Z.abs (86400000 * n - 3570000) <= 45030500
  end%Z.
Proof. split; [lia | apply relative_time_bounds; lia]. Defined.

(** Two links: the older one was clicked last. *)
Definition last_clicked_example : list DLink :=
  [mkDLink "bbbbbb" (Some "https://b.io") 1 (Some 3000%Z) (Some 2000%Z);
   mkDLink "aaaaaa" (Some "https://a.io") 1 (Some 5000%Z) (Some 1000%Z)].

(** The header labelled Last clicked sorts by [createdAt]: a click on it
    from the initial view orders the table by ascending creation time,
    which lists the link clicked at 5000 above the one clicked at 3000, and
    its column shows the more recent click first. *)
Lemma last_clicked_header_sorts_by_created :
  header_key "Last clicked" = Some ByCreatedAt /\
  v_orderDir (click_header "Last clicked" initial_view) = Asc /\
  map (fun l => (dl_code l, dl_lastClickedAt l))
      (pageData (click_header "Last clicked" initial_view) last_clicked_example) =
    [("aaaaaa", Some 5000%Z); ("bbbbbb", Some 3000%Z)] /\
  map rv_last (render_rows Desktop 6000 (click_header "Last clicked" initial_view) last_clicked_example) =
    ["1s ago"; "3s ago"].
Proof. split; [reflexivity|]. split; [reflexivity|]. split; vm_compute; reflexivity. Qed.
