(* ===== verification/Client.v ===== *)
(** * The dashboard's handlers and their interleaving with the server

    The state of [Dashboard] in [src/pages/index.js] that its handlers
    change (the links, the view, the form, the delete target, the snack)
    and the handlers themselves: the form-error effect (lines 116-121),
    [handleAdd] (lines 143-168), [handleDeleteConfirm] (lines 171-187),
    [fetchLinks] (lines 94-112) and the setters the search box, the sort
    headers and the pagination call (lines 227, 215, 369).

    Each [async] handler is split at its [await fetch(...)]: the part
    before it returns the request it sends and a [Pending] continuation
    holding what its closure captured ([prev] for a delete); the part
    after it takes the response.  A [Session] pairs the browser's state with
    the store and the requests in flight; [deliver] lets the server answer
    any one of them (by the handlers of [Api] on the [Dynamo] world) and
    runs the continuation, so answers arrive in any order; [external] is
    another browser tab calling the API.  The search debounce is elided:
    a search event sets the debounced value. *)

From S2P Require Import Prelude JsValue Validate Url Dynamo Api Dashboard.

(** ** State *)

Inductive Severity := SevSuccess | SevError.

Record Snack := mkSnack { sn_severity : Severity; sn_message : string }.

Record Client := mkClient {
  c_links : list DLink;
  c_view : View;
  c_url : string;
  c_code : string;
  c_formError : string;
  c_submitting : bool;
  c_deleteTarget : option string;
  c_snack : option Snack;
  c_now : Z                       (** the browser clock, [new Date()] *)
}.

Definition set_links (ls : list DLink) (c : Client) : Client :=
  mkClient ls (c_view c) (c_url c) (c_code c) (c_formError c) (c_submitting c)
    (c_deleteTarget c) (c_snack c) (c_now c).
Definition set_view (v : View) (c : Client) : Client :=
  mkClient (c_links c) v (c_url c) (c_code c) (c_formError c) (c_submitting c)
    (c_deleteTarget c) (c_snack c) (c_now c).
Definition set_form (url code err : string) (c : Client) : Client :=
  mkClient (c_links c) (c_view c) url code err (c_submitting c)
    (c_deleteTarget c) (c_snack c) (c_now c).
Definition set_formError (err : string) (c : Client) : Client :=
  set_form (c_url c) (c_code c) err c.
Definition set_submitting (b : bool) (c : Client) : Client :=
  mkClient (c_links c) (c_view c) (c_url c) (c_code c) (c_formError c) b
    (c_deleteTarget c) (c_snack c) (c_now c).
Definition set_deleteTarget (t : option string) (c : Client) : Client :=
  mkClient (c_links c) (c_view c) (c_url c) (c_code c) (c_formError c) (c_submitting c)
    t (c_snack c) (c_now c).
Definition set_snack (sev : Severity) (msg : string) (c : Client) : Client :=
  mkClient (c_links c) (c_view c) (c_url c) (c_code c) (c_formError c) (c_submitting c)
    (c_deleteTarget c) (Some (mkSnack sev msg)) (c_now c).

Definition initial_client (now : Z) : Client :=
  mkClient [] initial_view "" "" "" false None None now.

(** ** The form *)

(** [isUrlValid = URL_REGEX.test(url.trim())] *)
Definition isUrlValid (url : string) : bool := URL_REGEX_test (js_trim url).

(** [isCodeValid]: an empty code is valid, otherwise
    [CODE_REGEX.test(code.trim())]. *)
Definition isCodeValid (code : string) : bool :=
  if String.eqb code "" then true else CODE_REGEX_test (js_trim code).

(** The effect that recomputes [formError] when [url] or [code] change. *)
Definition form_effect (c : Client) : Client :=
  if String.eqb (c_url c) "" then set_formError "" c
  else if negb (isUrlValid (c_url c)) then set_formError "URL must start with http:// or https://" c
  else if negb (String.eqb (c_code c) "") && negb (isCodeValid (c_code c))
  then set_formError "Code must be 6–8 alphanumeric characters." c
  else set_formError "" c.

(** [{ url: url.trim(), code: code.trim() || undefined }] as the request
    the server sees. *)
Definition add_payload (url code : string) : Request :=
  post_req (JStr (js_trim url))
    (if String.eqb (js_trim code) "" then JUndef else JStr (js_trim code)).

(** ** Responses as the browser reads them *)

Definition status_of (r : Response) : Z :=
  match r with
  | RJson s _ | REnd s | RRedirect s _ => s
  | RNotFoundPage => 404
  | RServerError => 500
  end.

(** [res.ok] *)
Definition res_ok (r : Response) : bool := ((200 <=? status_of r) && (status_of r <? 300))%Z.

(** [(await res.json().catch(() => ({}))).error || dflt] *)
Definition error_text (r : Response) (dflt : string) : string :=
  match r with
  | RJson _ (BError m) => if String.eqb m "" then dflt else m
  | _ => dflt
  end.

(** [String] of a JSON value the page shows as a code. *)
Definition created_link (code url : JsValue) (now : Z) : DLink :=
  mkDLink (js_to_string code) (match url with JStr u => Some u | _ => None end) 0 None (Some now).

(** ** Handlers *)

(** What an [await fetch(...)] waits on, with what the handler's closure
    captured. *)
Inductive Pending :=
  | PFetch (after_add : bool)            (** [fetchLinks()]; [true] when [handleAdd]'s
                                             [finally] waits for it *)
  | PAdd (req : Request)                 (** [handleAdd]'s [POST /api/links] *)
  | PDelete (code : string) (prev : list DLink).  (** [handleDeleteConfirm]'s [DELETE] *)

(** The rest of [fetchLinks] once the response (or a network error,
    [None]) is there. *)
Definition fetch_finish (after_add : bool) (r : option Response) (c : Client) : Client :=
  let c' := match option_map fetch_links r with
            | Some (Some ls) => set_links ls c
            | _ => set_snack SevError "Failed to load links from backend" c
            end in
  if after_add then set_submitting false c' else c'.

(** [handleAdd] up to its [fetch]. *)
Definition handleAdd_start (c : Client) : Client * list Pending :=
  if negb (isUrlValid (c_url c)) then (set_formError "Enter a valid URL (http/https)." c, [])
  else if negb (isCodeValid (c_code c)) then (set_formError "Custom code invalid (6-8 alphanumeric)." c, [])
  else (set_formError "" (set_submitting true c), [PAdd (add_payload (c_url c) (c_code c))]).

(** [created.code] and [created.url] of a [201] body. *)
Definition created_fields (r : Response) : JsValue * JsValue :=
  match r with RJson _ (BCreated code url) => (code, url) | _ => (JUndef, JUndef) end.

(** [handleAdd] after its [fetch]: on [201] the new link goes in front and
    the form is cleared (the effect then clears [formError]); otherwise the
    server's message is shown and the list is reloaded, [submitting]
    staying set until the reload is done. *)
Definition handleAdd_finish (r : option Response) (c : Client) : Client * list Pending :=
  match r with
  | Some r =>
      if (status_of r =? 201)%Z then
        let '(code, url) := created_fields r in
        let c1 := set_links (created_link code url (c_now c) :: c_links c) c in
        let c2 := form_effect (set_form "" "" (c_formError c1) c1) in
        (set_submitting false (set_snack SevSuccess ("Created " +:+ js_to_string code) c2), [])
      else (set_formError (error_text r "Failed to create link (server)") c, [PFetch true])
  | None => (set_formError "Network error creating link" c, [PFetch true])
  end.

(** [handleDeleteConfirm] up to its [fetch]: the row goes at once, the list
    as it was is kept in [prev]. *)
Definition handleDelete_start (c : Client) : Client * list Pending :=
  match c_deleteTarget c with
  | Some x =>
      if String.eqb x "" then (set_deleteTarget None c, [])
      else (set_links (List.filter (fun l => negb (dl_code l === x)) (c_links c))
              (set_deleteTarget None c),
            [PDelete x (c_links c)])
  | None => (set_deleteTarget None c, [])
  end.

(** [handleDeleteConfirm] after its [fetch]: on failure [setLinks(prev)]. *)
Definition handleDelete_finish (x : string) (prev : list DLink) (r : option Response) (c : Client)
    : Client * list Pending :=
  match r with
  | Some r =>
      if res_ok r then (set_snack SevSuccess (x +:+ " deleted") c, [])
      else (set_snack SevError (error_text r "Delete failed") (set_links prev c), [])
  | None => (set_snack SevError "Network error deleting" (set_links prev c), [])
  end.

(** The API call a pending continuation waits on, as the server runs it. *)
Definition server_call (p : Pending) (rand : list Byte.byte) : Prog Response :=
  match p with
  | PFetch _ => links_index (get_req "") rand
  | PAdd req => links_index req rand
  | PDelete x _ => links_code (delete_req x)
  end.

Definition resume (p : Pending) (r : option Response) (c : Client) : Client * list Pending :=
  match p with
  | PFetch a => (fetch_finish a r c, [])
  | PAdd _ => handleAdd_finish r c
  | PDelete x prev => handleDelete_finish x prev r c
  end.

(** ** User events *)

Inductive UEvent :=
  | EUrl (s : string)           (** typing in the url field *)
  | ECode (s : string)          (** typing in the code field *)
  | EReset                      (** the Reset button *)
  | EAdd                        (** submitting the form *)
  | ESearch (s : string)        (** typing in the search box *)
  | ESort (k : SortKey)         (** a column header *)
  | ESortSelect (k : SortKey) (d : Dir)  (** the Sort menu *)
  | EPage (p : nat)             (** the pagination arrows *)
  | ERowsPerPage (n : nat)      (** the rows-per-page menu *)
  | EAskDelete (code : string)  (** a row's delete button *)
  | ECancelDelete               (** the dialog's Cancel *)
  | EConfirmDelete              (** the dialog's Delete *)
  | ETick.                      (** the browser clock advances *)

(** Whether the page offers the event: the Create button is disabled
    while submitting or while a field is invalid, a delete button exists
    only on a shown row, the dialog only while [deleteTarget] is set. *)
Definition enabled (e : UEvent) (c : Client) : bool :=
  match e with
  | EAdd => negb (c_submitting c) && isUrlValid (c_url c) && isCodeValid (c_code c)
  | EAskDelete x => bool_decide (x ∈ map dl_code (pageData (c_view c) (c_links c)))
  | ECancelDelete | EConfirmDelete => bool_decide (is_Some (c_deleteTarget c))
  | _ => true
  end.

Definition with_view (f : View -> View) (c : Client) : Client := set_view (f (c_view c)) c.

Definition setSearch (s : string) (v : View) : View :=
  mkView s (v_orderBy v) (v_orderDir v) (v_page v) (v_rowsPerPage v).
Definition setRowsPerPage (n : nat) (v : View) : View :=
  mkView (v_search v) (v_orderBy v) (v_orderDir v) (v_page v) n.

(** The event's handler, then the form-error effect when [url] or [code]
    changed. *)
Definition on_event (e : UEvent) (c : Client) : Client * list Pending :=
  match e with
  | EUrl s => (form_effect (set_form s (c_code c) (c_formError c) c), [])
  | ECode s => (form_effect (set_form (c_url c) s (c_formError c) c), [])
  | EReset => (form_effect (set_form "" "" "" c), [])
  | EAdd => handleAdd_start c
  | ESearch s => (with_view (fun v => setPage 0 (setSearch s v)) c, [])
  | ESort k => (with_view (handleRequestSort k) c, [])
  | ESortSelect k d =>
      (with_view (fun v => mkView (v_search v) k d (v_page v) (v_rowsPerPage v)) c, [])
  | EPage p => (with_view (setPage p) c, [])
  | ERowsPerPage n => (with_view (fun v => setPage 0 (setRowsPerPage n v)) c, [])
  | EAskDelete x => (set_deleteTarget (Some x) c, [])
  | ECancelDelete => (set_deleteTarget None c, [])
  | EConfirmDelete => handleDelete_start c
  | ETick => (mkClient (c_links c) (c_view c) (c_url c) (c_code c) (c_formError c)
                (c_submitting c) (c_deleteTarget c) (c_snack c) (c_now c + 1), [])
  end.

(** ** The browser, the server and other tabs *)

Record Session := mkSession {
  y_client : Client;
  y_world : World;
  y_pending : list Pending      (** the requests in flight, oldest first *)
}.

(** A call another tab (or a visitor) makes. *)
Inductive ExtCall :=
  | XIndex (req : Request) (rand : list Byte.byte)
  | XCode (req : Request)
  | XRedirect (code : string).

Definition ext_prog (x : ExtCall) : Prog Response :=
  match x with
  | XIndex req rand => links_index req rand
  | XCode req => links_code req
  | XRedirect c => redirect c
  end.

Inductive Action :=
  | AUser (e : UEvent)                        (** the user acts *)
  | ADeliver (i : nat) (rand : list Byte.byte)  (** the server answers request [i] *)
  | ANetFail (i : nat)                        (** request [i] fails in the network *)
  | AExternal (x : ExtCall).                  (** another tab calls the API *)

(** One action; [None] when it is not possible in [s]. *)
Definition act (a : Action) (s : Session) : option Session :=
  match a with
  | AUser e =>
      if enabled e (y_client s) then
        let '(c', ps) := on_event e (y_client s) in Some (mkSession c' (y_world s) (y_pending s ++ ps))
      else None
  | ADeliver i rand =>
      match y_pending s !! i with
      | Some p =>
          let '(r, w') := run (server_call p rand) (y_world s) in
          let '(c', ps) := resume p (Some r) (y_client s) in
          Some (mkSession c' w' (delete i (y_pending s) ++ ps))
      | None => None
      end
  | ANetFail i =>
      match y_pending s !! i with
      | Some p =>
          let '(c', ps) := resume p None (y_client s) in
          Some (mkSession c' (y_world s) (delete i (y_pending s) ++ ps))
      | None => None
      end
  | AExternal x => Some (mkSession (y_client s) (run (ext_prog x) (y_world s)).2 (y_pending s))
  end.

Inductive cstep : Session -> Session -> Prop :=
  | cstep_act a s s' : act a s = Some s' -> cstep s s'.

(** The page as it mounts: its effect has sent [fetchLinks]. *)
Definition init_sys (w : World) (now : Z) : Session := mkSession (initial_client now) w [PFetch false].

(** A sequence of actions, the impossible ones skipped. *)
Fixpoint run_actions (l : list Action) (s : Session) : Session :=
  match l with
  | [] => s
  | a :: l' => match act a s with Some s' => run_actions l' s' | None => run_actions l' s end
  end.

Lemma run_actions_reachable l s : rtc cstep s (run_actions l s).
Proof.
  revert s. induction l as [|a l IH]; intros s; simpl; [done|].
  destruct (act a s) as [s'|] eqn:E; [|apply IH].
  eapply rtc_l; [by econstructor|]. apply IH.
Qed.

(** Nine links, created one millisecond apart. *)
Definition nine_links : World :=
  mkWorld (list_to_map (map (fun '(c, t) => (c, new_item (AS "https://a.io") t))
    [("lnk001", 1%Z); ("lnk002", 2%Z); ("lnk003", 3%Z); ("lnk004", 4%Z); ("lnk005", 5%Z);
     ("lnk006", 6%Z); ("lnk007", 7%Z); ("lnk008", 8%Z); ("lnk009", 9%Z)])) 100.

(** The dashboard loaded from [w_example], with a url typed in. *)
Definition typed_url : Session :=
  run_actions [ADeliver 0 []; AUser (EUrl " https://new.io ")] (init_sys w_example 5000).

(** ** Lemmas *)

Lemma js_trim_empty : js_trim "" = "".
Proof. reflexivity. Qed.

Lemma code_regex_nonempty s : code_regex_test s = true -> String.eqb s "" = false.
Proof. rewrite code_regex_test_spec. intros [Hlen _]. destruct s; simpl in *; [lia|done]. Qed.

Lemma enabled_add c :
  enabled EAdd c = true ->
  c_submitting c = false /\ isUrlValid (c_url c) = true /\ isCodeValid (c_code c) = true.
Proof. simpl. intros H. bool_prop. destruct (c_submitting c); naive_solver. Qed.

Lemma handleAdd_start_valid c :
  isUrlValid (c_url c) = true -> isCodeValid (c_code c) = true ->
  handleAdd_start c = (set_formError "" (set_submitting true c), [PAdd (add_payload (c_url c) (c_code c))]).
Proof. intros Hu Hc. unfold handleAdd_start. by rewrite Hu, Hc. Qed.

(** ** Properties *)

(** C30: a link created from the form appears at the top of the
    dashboard, with the code the server generated, the trimmed url, no
    clicks and the browser's time; the store holds the new record, the form
    is cleared and no request is left in flight. *)
Theorem add_shows_created_link s rand :
  y_pending s = [] ->
  enabled EAdd (y_client s) = true ->
  c_code (y_client s) = "" ->
  validUrl (JStr (js_trim (c_url (y_client s)))) = true ->
  length rand = 6 ->
  w_table (y_world s) !! genCode rand = None ->
  exists s1 s2,
    act (AUser EAdd) s = Some s1 /\ act (ADeliver 0 rand) s1 = Some s2 /\
    y_pending s2 = [] /\
    c_links (y_client s2) =
      (created_link (JStr (genCode rand)) (JStr (js_trim (c_url (y_client s)))) (c_now (y_client s))
        :: c_links (y_client s)) /\
    c_url (y_client s2) = "" /\ c_formError (y_client s2) = "" /\ c_submitting (y_client s2) = false /\
    w_table (y_world s2) =
      <[genCode rand := new_item (AS (js_trim (c_url (y_client s)))) (w_clock (y_world s))]>
        (w_table (y_world s)).
Proof.
  destruct s as [c w ps]; simpl. intros -> Hen Hcode Hurl Hlen Hfresh.
  destruct (enabled_add c Hen) as (_ & Hu & Hc).
  pose proof (run_post_fresh _ _ _ Hurl Hlen Hfresh) as Hrun.
  assert (Hp : add_payload (c_url c) "" = post_req (JStr (js_trim (c_url c))) JUndef) by reflexivity.
  eexists _, _. split.
  { unfold act. rewrite Hen. simpl on_event. rewrite handleAdd_start_valid by done. reflexivity. }
  split.
  { unfold act. simpl lookup. unfold server_call. cbn [y_world y_client y_pending].
    rewrite Hcode, Hp, Hrun. reflexivity. }
  repeat split.
Qed.

Lemma add_shows_created_link_witness :
  exists s1 s2,
    act (AUser EAdd) typed_url = Some s1 /\ act (ADeliver 0 rand_example) s1 = Some s2 /\
    y_pending s2 = [] /\
    c_links (y_client s2) =
      (created_link (JStr (genCode rand_example)) (JStr (js_trim (c_url (y_client typed_url))))
         (c_now (y_client typed_url)) :: c_links (y_client typed_url)) /\
    c_url (y_client s2) = "" /\ c_formError (y_client s2) = "" /\ c_submitting (y_client s2) = false /\
    w_table (y_world s2) =
      <[genCode rand_example := new_item (AS (js_trim (c_url (y_client typed_url))))
                                  (w_clock (y_world typed_url))]>
        (w_table (y_world typed_url)).
Proof. apply add_shows_created_link; vm_compute; reflexivity. Defined.

(** C31: the dashboard's code check implies the server's: a typed code
    that passes [isCodeValid] reaches the server trimmed and passes
    [validCode], so the server never answers ["Invalid code"] to the form. *)
Theorem client_code_check_sound url code :
  code <> "" -> isCodeValid code = true -> validCode (req_body_code (add_payload url code)) = true.
Proof.
  intros Hne. unfold isCodeValid. rewrite (proj2 (String.eqb_neq _ _) Hne). unfold CODE_REGEX_test.
  intros Hv. simpl. rewrite (code_regex_nonempty _ Hv). exact Hv.
Qed.

Lemma client_code_check_sound_witness :
  "  abc123" <> "" /\ isCodeValid "  abc123" = true /\
  validCode (req_body_code (add_payload "https://a.io" "  abc123")) = true.
Proof.
  assert (H1 : "  abc123" <> "") by discriminate.
  assert (H2 : isCodeValid "  abc123" = true) by reflexivity.
  split; [exact H1|]. split; [exact H2|]. exact (client_code_check_sound _ _ H1 H2).
Defined.

(** C32: the dashboard's url check is weaker than the server's: a url
    with a space in its host passes [URL_REGEX] and enables the Create
    button, and the server then rejects it with [400 "Invalid URL"]. *)
Theorem client_url_check_weaker :
  isUrlValid "http://a b" = true /\
  forall rand w,
    run (links_index (add_payload "http://a b" "") rand) w = (RJson 400 (BError "Invalid URL"), w).
Proof. split; [reflexivity | intros rand w; reflexivity]. Qed.

(** C33: the rollback of a failed delete restores the list captured when
    the delete was confirmed, dropping a link created in the meantime: after
    a delete whose request fails in the network while a create succeeds,
    the dashboard shows the deleted link and not the created one, though
    the store holds both. *)
Theorem delete_rollback_hides_created :
  exists s,
    rtc cstep (init_sys w_example 5000) s /\ y_pending s = [] /\
    map dl_code (c_links (y_client s)) = ["abc123"] /\
    is_Some (w_table (y_world s) !! "newcod1") /\ is_Some (w_table (y_world s) !! "abc123").
Proof.
  exists (run_actions [ADeliver 0 []; AUser (EAskDelete "abc123"); AUser EConfirmDelete;
    AUser (EUrl "https://new.io"); AUser (ECode "newcod1"); AUser EAdd; ADeliver 1 []; ANetFail 0]
    (init_sys w_example 5000)).
  split; [apply run_actions_reachable|]. vm_compute. repeat split; eexists; reflexivity.
Qed.

(** C34: a delete and a re-create of the same code, answered in the order
    create (409), reload, delete (200), leave the dashboard showing the
    code with a success message for its deletion while the store no longer
    has it: the reload does not know about the delete still in flight. *)
Theorem delete_recreate_stale :
  exists s,
    rtc cstep (init_sys w_example 5000) s /\ y_pending s = [] /\
    map dl_code (c_links (y_client s)) = ["abc123"] /\
    w_table (y_world s) !! "abc123" = None /\
    c_snack (y_client s) = Some (mkSnack SevSuccess "abc123 deleted").
Proof.
  exists (run_actions [ADeliver 0 []; AUser (EAskDelete "abc123"); AUser EConfirmDelete;
    AUser (EUrl "https://new.io"); AUser (ECode "abc123"); AUser EAdd;
    ADeliver 1 []; ADeliver 1 []; ADeliver 0 []] (init_sys w_example 5000)).
  split; [apply run_actions_reachable|]. vm_compute. repeat split.
Qed.

(** C35: deleting the only row of the last page leaves the page index
    where it was: the page is then empty and shows "No links yet" above a
    pagination bar that counts eight links. *)
Theorem delete_leaves_empty_page :
  exists s,
    rtc cstep (init_sys nine_links 5000) s /\ y_pending s = [] /\
    shows_empty_message (c_view (y_client s)) (c_links (y_client s)) = true /\
    pagination_shown (c_view (y_client s)) (c_links (y_client s)) = true /\
    totalRows (c_view (y_client s)) (c_links (y_client s)) = 8.
Proof.
  exists (run_actions [ADeliver 0 []; AUser (EPage 1); AUser (EAskDelete "lnk001");
    AUser EConfirmDelete; ADeliver 0 []] (init_sys nine_links 5000)).
  split; [apply run_actions_reachable|]. vm_compute. repeat split.
Qed.
