(* ===== verification/Stats.v ===== *)
(** * The stats page of one link

    [StatsPage] of [src/pages/code/[code].js]: [fetchLink] (lines 75-104),
    the effect that calls it when the route's code is known (lines
    107-110), [handleDelete] (lines 167-186) and [handleRefresh] (lines
    189-192), split at their [await fetch(...)] as in [Client].  The
    record is normalized as the dashboard normalizes its rows
    ([Dashboard.normalize]); [clickHistory] is never sent by the server and
    stays [null].  The QR code, the clipboard and [window.open] are not
    modelled. *)

From S2P Require Import Prelude JsValue Dynamo Api Dashboard Client.

Record Stats := mkStats {
  st_link : option DLink;
  st_loading : bool;
  st_fetchError : option string;
  st_deleting : bool;
  st_confirmOpen : bool;
  st_snack : option Snack;
  st_goHome : bool              (** [router.push("/")] is scheduled *)
}.

Definition initial_stats : Stats := mkStats None true None false false None false.

(** [fetchLink(c)] up to its [fetch]: nothing for an empty code. *)
Definition fetchLink_start (c : string) (st : Stats) : Stats * option Request :=
  if String.eqb c "" then (st, None)
  else (mkStats (st_link st) true None (st_deleting st) (st_confirmOpen st) (st_snack st) (st_goHome st),
        Some (get_req c)).

(** [fetchLink] after its [fetch]: a 404 is the error ["Not found"], any
    other failure the server's message or [Failed to load (status)], and a
    success the normalized record. *)
Definition fetchLink_finish (r : Response) (st : Stats) : Stats :=
  let fail msg := mkStats None false (Some msg) (st_deleting st) (st_confirmOpen st) (st_snack st) (st_goHome st) in
  if (status_of r =? 404)%Z then fail "Not found"
  else if negb (res_ok r) then
    fail (error_text r ("Failed to load (" +:+ number_to_string (status_of r) +:+ ")"))
  else
    match r with
    | RJson _ (BLink l) =>
        mkStats (Some (normalize l)) false None (st_deleting st) (st_confirmOpen st) (st_snack st) (st_goHome st)
    | _ => fail "Failed to load"
    end.

(** [handleRefresh]: [fetchLink] again for the route's code. *)
Definition handleRefresh (c : string) (st : Stats) : Stats * option Request := fetchLink_start c st.

(** [handleDelete] up to its [fetch]. *)
Definition stats_delete_start (st : Stats) : Stats * option Request :=
  match st_link st with
  | None => (st, None)
  | Some l =>
      (mkStats (st_link st) (st_loading st) (st_fetchError st) true (st_confirmOpen st) (st_snack st) (st_goHome st),
       Some (delete_req (dl_code l)))
  end.

(** [handleDelete] after its [fetch] ([None]: a network error); the
    [finally] clears [deleting] and closes the dialog. *)
Definition stats_delete_finish (r : option Response) (st : Stats) : Stats :=
  let '(snack, home) :=
    match r with
    | Some r => if res_ok r then (mkSnack SevSuccess "Deleted", true)
                else (mkSnack SevError (error_text r "Delete failed"), false)
    | None => (mkSnack SevError "Network error deleting", false)
    end in
  mkStats (st_link st) (st_loading st) (st_fetchError st) false false (Some snack) (st_goHome st || home).

(** What the page shows: the skeleton while loading, the error, or the
    details of the link (its code, url, click count, whether it was ever
    clicked and its creation date). *)
Inductive StatsScreen :=
  | SLoading
  | SFailed (msg : string)
  | SDetails (code : string) (url : option string) (clicks : Z)
             (lastClickedAt createdAt : option Z)
  | SBlank.

Definition stats_screen (st : Stats) : StatsScreen :=
  if st_loading st then SLoading
  else match st_fetchError st with
       | Some m => if String.eqb m "" then
                     match st_link st with
                     | Some l => SDetails (dl_code l) (dl_url l) (dl_clicks l) (dl_lastClickedAt l) (dl_createdAt l)
                     | None => SBlank
                     end
                   else SFailed m
       | None =>
           match st_link st with
           | Some l => SDetails (dl_code l) (dl_url l) (dl_clicks l) (dl_lastClickedAt l) (dl_createdAt l)
           | None => SBlank
           end
       end.

(** ** Properties *)

Section StatsProps.
Context `{LinkStoreLaws}.

(** C36: the stats page shows what the store holds: opening the page of a
    stored code shows its record normalized as the dashboard shows it, with
    no error, and opening the page of an absent code shows the error "Not
    found" and no link; loading never changes the store. *)
Theorem stats_page_shows_record c w :
  c <> "" ->
  exists req, fetchLink_start c initial_stats = (mkStats None true None false false None false, Some req) /\
  (run (links_code req) w).2 = w /\
  match w_table w !! c with
  | Some it => st_link (fetchLink_finish (run (links_code req) w).1 initial_stats) = Some (normalize (c, it)) /\
               st_fetchError (fetchLink_finish (run (links_code req) w).1 initial_stats) = None
  | None => st_link (fetchLink_finish (run (links_code req) w).1 initial_stats) = None /\
            st_fetchError (fetchLink_finish (run (links_code req) w).1 initial_stats) = Some "Not found"
  end.
Proof.
  intros Hc. exists (get_req c). unfold fetchLink_start.
  rewrite (proj2 (String.eqb_neq _ _) Hc). split; [done|].
  destruct (w_table w !! c) as [it|] eqn:E.
  - rewrite (run_get_present c it w) by done. done.
  - unfold get_req. rewrite run_code_absent by auto. done.
Qed.
End StatsProps.

Lemma stats_page_shows_record_witness :
  exists req, fetchLink_start "abc123" initial_stats = (mkStats None true None false false None false, Some req) /\
  (run (links_code req) w_example).2 = w_example /\
  match w_table w_example !! "abc123" with
  | Some it => st_link (fetchLink_finish (run (links_code req) w_example).1 initial_stats) = Some (normalize ("abc123", it)) /\
               st_fetchError (fetchLink_finish (run (links_code req) w_example).1 initial_stats) = None
  | None => st_link (fetchLink_finish (run (links_code req) w_example).1 initial_stats) = None /\
            st_fetchError (fetchLink_finish (run (links_code req) w_example).1 initial_stats) = Some "Not found"
  end.
Proof. exact (stats_page_shows_record "abc123" w_example ltac:(discriminate)). Defined.
