(* ===== verification/StatsQr.v ===== *)
(** * The QR preview, download, copy and share of the stats page

    [StatsPage] of [src/pages/code/[code].js] beyond the fetch and delete
    of [Stats]: the short url it shows, copies, encodes and shares (lines
    124, 151, 309, 465 and 494), the effect that generates the QR
    preview whenever [link] changes (lines 113-146), [handleCopy] (lines
    149-158), the [Download QR] buttons (lines 407-419 and 473-485) and
    the QR dialog's open flag (lines 58, 323 and 453).

    The effect is the one subtle piece.  Each run captures its own
    [cancelled] variable, and the cleanup of the previous run sets that
    run's variable before the next run starts; the generation a run starts
    settles later, in any order with the others, and only writes
    [qrDataUrl], [qrLoading] and [snack] if its run is not cancelled.  The
    state keeps every run's [cancelled] variable ([q_cancelled], by run
    number) and the generations not yet settled ([q_pending]); a page is
    the [Stats] record beside this QR state.  [QRCode.toDataURL] is the
    library's deterministic encoder, a parameter [qrgen] ([None]: it
    throws).  React reruns the effect when [setLink] stored a new object:
    every [setLink({...})] does, [setLink(null)] only when the link was
    not already [null]; [base] and [origin] are fixed for a page. *)

From S2P Require Import Prelude JsValue Dynamo Api Dashboard Client Stats.

(** ** The short url *)

(** [(base ? `${base}/` : `${origin}/`) + link.code] of the preview
    (line 124), the details (line 309), the dialog (line 465) and the
    share button (line 494); [base] is a string, truthy when not empty. *)
Definition short_url (base origin code : string) : string :=
  (if base === "" then origin +:+ "/" else base +:+ "/") +:+ code.

(** [handleCopy]'s text, [base ? `${base}/${link.code}` :
    `${origin}/${link.code}`] (line 151). *)
Definition copy_text (base origin code : string) : string :=
  if base === "" then origin +:+ "/" +:+ code else base +:+ "/" +:+ code.

(** The dialog's text uses [link?.code], or the empty string without a link (line 465). *)
Definition dialog_text (base origin : string) (link : option DLink) : string :=
  short_url base origin (match link with Some l => dl_code l | None => "" end).

(** ** State *)

(** A generation started by effect run [qg_effect], encoding [qg_text]. *)
Record QrGen := mkQrGen { qg_effect : nat; qg_text : string }.

Record Qr := mkQr {
  q_dataUrl : option string;      (** [qrDataUrl] *)
  q_loading : bool;               (** [qrLoading] *)
  q_open : bool;                  (** [qrOpen] *)
  q_cancelled : list bool;        (** the [cancelled] variable of each run *)
  q_pending : list QrGen          (** generations not yet settled *)
}.

Record Page := mkPage { pg_stats : Stats; pg_qr : Qr }.

(** [setSnack] on the stats page. *)
Definition stats_set_snack (sn : Snack) (st : Stats) : Stats :=
  mkStats (st_link st) (st_loading st) (st_fetchError st) (st_deleting st)
    (st_confirmOpen st) (Some sn) (st_goHome st).

(** ** The preview effect *)

(** The cleanup of the previous run: [cancelled = true] (lines 143-145). *)
Definition qr_cleanup (cs : list bool) : list bool := <[pred (length cs) := true]> cs.

(** One run of the effect after the previous run's cleanup: without a link
    it clears the preview (lines 116-120); with one it sets [qrLoading] and
    starts [QRCode.toDataURL] on the short url (lines 121-130). *)
Definition qr_effect (base origin : string) (link : option DLink) (q : Qr) : Qr :=
  let cs := qr_cleanup (q_cancelled q) in
  match link with
  | None => mkQr None false (q_open q) (cs ++ [false]) (q_pending q)
  | Some l =>
      mkQr (q_dataUrl q) true (q_open q) (cs ++ [false])
        (q_pending q ++ [mkQrGen (length cs) (short_url base origin (dl_code l))])
  end.

(** The [i]-th pending generation settles: on success [qrDataUrl] is set
    (line 131), on a throw the snack and [qrDataUrl] are (lines 132-137),
    and the [finally] clears [qrLoading] (lines 138-140), each only if its
    run is not cancelled. *)
Definition qr_settle (qrgen : string -> option string) (i : nat) (p : Page) : option Page :=
  let q := pg_qr p in
  g ← q_pending q !! i;
  let cancelled := default true (q_cancelled q !! qg_effect g) in
  let '(st, url) :=
    match qrgen (qg_text g) with
    | Some data => (pg_stats p, if cancelled then q_dataUrl q else Some data)
    | None =>
        if cancelled then (pg_stats p, q_dataUrl q)
        else (stats_set_snack (mkSnack SevError "Failed to generate QR") (pg_stats p), None)
    end in
  let loading := if cancelled then q_loading q else false in
  Some (mkPage st (mkQr url loading (q_open q) (q_cancelled q) (delete i (q_pending q)))).

(** [Object.is] of the old and the new [link]: every [setLink({...})]
    stores a new object. *)
Definition link_changed (old new : option DLink) : bool :=
  match old, new with None, None => false | _, _ => true end.

(** [fetchLink] after its [fetch], then the effect if [link] changed. *)
Definition page_fetch_finish (base origin : string) (r : Response) (p : Page) : Page :=
  let st := fetchLink_finish r (pg_stats p) in
  mkPage st (if link_changed (st_link (pg_stats p)) (st_link st)
             then qr_effect base origin (st_link st) (pg_qr p) else pg_qr p).

(** ** Handlers *)

Inductive DownloadResult :=
  | DLNotReady
  | DLSaved (name href : string)
  | DLTypeError.            (** [link.code] on [null] throws *)

(** The [Download QR] button (lines 407-419, and 473-485 in the dialog). *)
Definition download_qr (p : Page) : Page * DownloadResult :=
  match q_dataUrl (pg_qr p) with
  | None => (mkPage (stats_set_snack (mkSnack SevError "QR not ready") (pg_stats p)) (pg_qr p), DLNotReady)
  | Some d =>
      match st_link (pg_stats p) with
      | None => (p, DLTypeError)
      | Some l =>
          (mkPage (stats_set_snack (mkSnack SevSuccess "QR downloaded") (pg_stats p)) (pg_qr p),
           DLSaved ("tinylink-" +:+ dl_code l +:+ ".png") d)
      end
  end.

(** [handleCopy] (lines 149-158): the text written, if the clipboard
    accepts it ([ok]). *)
Definition handleCopy (base origin : string) (ok : bool) (p : Page) : Page * option string :=
  match st_link (pg_stats p) with
  | None => (p, None)
  | Some l =>
      if ok then (mkPage (stats_set_snack (mkSnack SevSuccess "Copied short link") (pg_stats p)) (pg_qr p),
                  Some (copy_text base origin (dl_code l)))
      else (mkPage (stats_set_snack (mkSnack SevError "Copy failed") (pg_stats p)) (pg_qr p), None)
  end.

(** The url [navigator.share] receives (line 494). *)
Definition share_url (base origin : string) (l : DLink) : string :=
  short_url base origin (dl_code l).

Definition set_qr_open (b : bool) (p : Page) : Page :=
  let q := pg_qr p in
  mkPage (pg_stats p) (mkQr (q_dataUrl q) (q_loading q) b (q_cancelled q) (q_pending q)).

(** ** The page as a system *)

(** The events of the page: the fetch of the route's code (on mount and
    on [Refresh]) and its answer, a generation settling, the dialog, the
    buttons, and the delete of [Stats] with its answer.  Answers are any
    responses, in any order. *)
Inductive PageEvent :=
  | EvFetchStart
  | EvFetchFinish (r : Response)
  | EvQrSettle (i : nat)
  | EvOpenQr
  | EvCloseQr
  | EvDownload
  | EvCopy (ok : bool)
  | EvDeleteStart
  | EvDeleteFinish (r : option Response).

Definition page_step (qrgen : string -> option string) (base origin code : string)
    (e : PageEvent) (p : Page) : option Page :=
  match e with
  | EvFetchStart => Some (mkPage (fetchLink_start code (pg_stats p)).1 (pg_qr p))
  | EvFetchFinish r => Some (page_fetch_finish base origin r p)
  | EvQrSettle i => qr_settle qrgen i p
  | EvOpenQr => Some (set_qr_open true p)
  | EvCloseQr => Some (set_qr_open false p)
  | EvDownload => Some (download_qr p).1
  | EvCopy ok => Some (handleCopy base origin ok p).1
  | EvDeleteStart => Some (mkPage (stats_delete_start (pg_stats p)).1 (pg_qr p))
  | EvDeleteFinish r => Some (mkPage (stats_delete_finish r (pg_stats p)) (pg_qr p))
  end.

(** On mount the effect runs once with [link = null]. *)
Definition init_page (base origin : string) : Page :=
  mkPage initial_stats (qr_effect base origin None (mkQr None false false [] [])).

Definition pstep qrgen base origin code (p p' : Page) : Prop :=
  exists e, page_step qrgen base origin code e p = Some p'.

(** A finite schedule of events; an event that cannot happen is skipped. *)
Fixpoint run_events qrgen base origin code (es : list PageEvent) (p : Page) : Page :=
  match es with
  | [] => p
  | e :: es =>
      match page_step qrgen base origin code e p with
      | Some p' => run_events qrgen base origin code es p'
      | None => run_events qrgen base origin code es p
      end
  end.

(** ** Lemmas *)

Lemma qr_cleanup_runs k :
  qr_cleanup (replicate k true ++ [false]) ++ [false] = replicate (S k) true ++ [false].
Proof.
  unfold qr_cleanup. rewrite length_app, length_replicate. cbn [length].
  replace (pred (k + 1)) with (k + 0) by lia.
  rewrite <- (length_replicate k true) at 1. rewrite insert_app_r.
  rewrite replicate_S_end, <- !app_assoc. reflexivity.
Qed.

Lemma qr_cleanup_length k : length (qr_cleanup (replicate k true ++ [false])) = S k.
Proof. unfold qr_cleanup. rewrite length_insert, length_app, length_replicate. simpl. lia. Qed.

Lemma runs_lookup_old k j : j < k -> (replicate k true ++ [false]) !! j = Some true.
Proof. intros Hj. rewrite lookup_app_l by (rewrite length_replicate; lia). by apply lookup_replicate_2. Qed.

Lemma runs_lookup_last k : (replicate k true ++ [false]) !! k = Some false.
Proof. rewrite lookup_app_r by (rewrite length_replicate; lia). by rewrite length_replicate, Nat.sub_diag. Qed.

Section FilterDelete.
Context {A} (P : A -> Prop) `{!forall x, Decision (P x)}.

Lemma filter_delete_split (l : list A) i g :
  l !! i = Some g ->
  filter P l = filter P (take i l) ++ filter P [g] ++ filter P (drop (S i) l) /\
  filter P (delete i l) = filter P (take i l) ++ filter P (drop (S i) l).
Proof.
  intros Hi. rewrite delete_take_drop, <- (take_drop_middle l i g Hi) at 1.
  split; [|by rewrite filter_app].
  change (g :: drop (S i) l) with ([g] ++ drop (S i) l). by rewrite !filter_app.
Qed.

(** Settling a generation of another run leaves the live ones. *)
Lemma filter_delete_other (l : list A) i g :
  l !! i = Some g -> ~ P g -> filter P (delete i l) = filter P l.
Proof.
  intros Hi Hg. destruct (filter_delete_split l i g Hi) as [-> ->].
  by rewrite filter_cons_False, filter_nil.
Qed.

(** Settling the only live generation leaves none. *)
Lemma filter_delete_single (l : list A) i g x :
  l !! i = Some g -> P g -> filter P l = [x] -> filter P (delete i l) = [] /\ g = x.
Proof.
  intros Hi Hg Hl. destruct (filter_delete_split l i g Hi) as [E ->].
  rewrite Hl, filter_cons_True, filter_nil in E by done.
  destruct (filter P (take i l)) eqn:?; [|destruct l0; discriminate].
  simpl in E. injection E as -> E. by rewrite <- E.
Qed.
End FilterDelete.

(** ** The preview invariant *)

Section Preview.
Context (qrgen : string -> option string) (base origin code : string).

(** After [k + 1] runs of the effect every run but the last is cancelled,
    and no pending generation belongs to a later run.  Without a link the
    preview is clear and no generation is live; with one, the live
    generation encodes its short url and exists exactly while [qrLoading]
    is set, and a preview shown when it is not loading is that url's QR. *)
Definition qr_inv (p : Page) : Prop :=
  let q := pg_qr p in
  exists k, q_cancelled q = replicate k true ++ [false] /\
    Forall (fun g => qg_effect g <= k) (q_pending q) /\
    match st_link (pg_stats p) with
    | None => q_dataUrl q = None /\ q_loading q = false /\
              filter (fun g => qg_effect g = k) (q_pending q) = []
    | Some l =>
        filter (fun g => qg_effect g = k) (q_pending q) =
          (if q_loading q then [mkQrGen k (short_url base origin (dl_code l))] else []) /\
        (q_loading q = false -> forall d, q_dataUrl q = Some d ->
           qrgen (short_url base origin (dl_code l)) = Some d)
    end.

Lemma qr_inv_link st st' q :
  st_link st' = st_link st -> qr_inv (mkPage st q) -> qr_inv (mkPage st' q).
Proof. intros E. unfold qr_inv. cbn [pg_stats pg_qr]. by rewrite E. Qed.

Lemma qr_inv_init : qr_inv (init_page base origin).
Proof. exists 0. cbn. repeat split; try constructor. Qed.

Lemma filter_runs_later k (l : list QrGen) :
  Forall (fun g => qg_effect g <= k) l -> filter (fun g => qg_effect g = S k) l = [].
Proof. induction 1 as [|g l Hg _ IH]; [done|]. rewrite filter_cons_False by lia. exact IH. Qed.

(** A run of the effect, for whatever link the page now holds. *)
Lemma qr_inv_effect st st' q :
  qr_inv (mkPage st q) -> qr_inv (mkPage st' (qr_effect base origin (st_link st') q)).
Proof.
  intros (k & Hc & Hle & _). cbn [pg_qr pg_stats] in Hc, Hle. exists (S k).
  cbn [pg_qr pg_stats]. unfold qr_effect. rewrite Hc, qr_cleanup_length.
  destruct (st_link st') as [l|]; cbn [q_cancelled q_pending q_loading q_dataUrl];
    rewrite qr_cleanup_runs; (split; [done|]).
  - split; [apply Forall_app; split; [eapply Forall_impl; [exact Hle|]; simpl; lia|]; by repeat constructor|].
    rewrite filter_app, (filter_runs_later k) by done. rewrite filter_cons_True by done.
    split; [done|discriminate].
  - split; [eapply Forall_impl; [exact Hle|]; simpl; lia|]. by rewrite (filter_runs_later k).
Qed.

Lemma live_in_filter (l : list QrGen) i g k :
  l !! i = Some g -> qg_effect g = k -> filter (fun g => qg_effect g = k) l <> [].
Proof. intros Hi Hg Hf. eapply filter_nil_not_elem_of; [exact Hf|exact Hg|]. by eapply list_elem_of_lookup_2. Qed.

(** A generation of a cancelled run settles: nothing but [q_pending]
    changes. *)
Lemma qr_inv_settle_cancelled st q i g k :
  q_cancelled q = replicate k true ++ [false] -> Forall (fun g => qg_effect g <= k) (q_pending q) ->
  q_pending q !! i = Some g -> qg_effect g < k ->
  qr_inv (mkPage st q) ->
  qr_inv (mkPage st (mkQr (q_dataUrl q) (q_loading q) (q_open q) (q_cancelled q) (delete i (q_pending q)))).
Proof.
  intros Hc Hle Hi Hg (k' & Hc' & _ & Hl). cbn [pg_qr pg_stats] in *.
  rewrite Hc in Hc'. apply app_inj_tail in Hc' as [Hk _].
  apply (f_equal length) in Hk. rewrite !length_replicate in Hk. subst k'.
  exists k. cbn [pg_qr pg_stats q_cancelled q_pending q_loading q_dataUrl].
  split; [done|]. split; [by apply Forall_delete|].
  rewrite (filter_delete_other _ _ _ g) by (done || lia). exact Hl.
Qed.

(** A generation settles: one of a cancelled run changes nothing shown;
    the live one is the current link's and sets or clears the preview. *)
Lemma qr_inv_settle i p p' : qr_inv p -> qr_settle qrgen i p = Some p' -> qr_inv p'.
Proof.
  destruct p as [st q]. intros Hinv. pose proof Hinv as (k & Hc & Hle & Hl).
  cbn [pg_qr pg_stats] in Hc, Hle, Hl. unfold qr_settle. cbn [pg_qr pg_stats].
  destruct (q_pending q !! i) as [g|] eqn:Hi; [|discriminate]. simpl.
  assert (qg_effect g <= k) as Hg by (eapply (Forall_lookup_1 (fun g => qg_effect g <= k)); eauto).
  destruct (decide (qg_effect g < k)) as [Hlt|Hge].
  { assert (q_cancelled q !! qg_effect g = Some true) as -> by (rewrite Hc; by apply runs_lookup_old). simpl.
    destruct (qrgen (qg_text g)); intros [= <-]; by eapply qr_inv_settle_cancelled. }
  assert (qg_effect g = k) as Hk by lia.
  assert (q_cancelled q !! qg_effect g = Some false) as -> by (rewrite Hc, Hk; apply runs_lookup_last). simpl.
  destruct (st_link st) as [l|] eqn:El;
    [destruct Hl as [Hf Hd]; destruct (q_loading q)|destruct Hl as (_ & _ & Hf)];
    try (exfalso; by eapply live_in_filter).
  destruct (filter_delete_single _ _ _ _ _ Hi Hk Hf) as [Hf' ->]. cbn [qg_text] in *.
  destruct (qrgen (short_url base origin (dl_code l))) as [d|] eqn:Eg; intros [= <-];
    exists k; cbn [pg_qr pg_stats q_cancelled q_pending q_loading q_dataUrl stats_set_snack st_link];
    rewrite El; (split; [done|]); (split; [by apply Forall_delete|]);
    (split; [done|]); congruence.
Qed.

Lemma download_qr_page p :
  exists st, (download_qr p).1 = mkPage st (pg_qr p) /\ st_link st = st_link (pg_stats p).
Proof. destruct p as [st q]. unfold download_qr. simpl. repeat case_match; eauto. Qed.

Lemma handleCopy_page ok p :
  exists st, (handleCopy base origin ok p).1 = mkPage st (pg_qr p) /\ st_link st = st_link (pg_stats p).
Proof. destruct p as [st q]. unfold handleCopy. simpl. repeat case_match; eauto. Qed.

Lemma qr_inv_step e p p' : qr_inv p -> page_step qrgen base origin code e p = Some p' -> qr_inv p'.
Proof.
  destruct p as [st q]. intros Hinv Hs.
  destruct e; simpl in Hs; try (injection Hs as <-).
  - eapply qr_inv_link; [|exact Hinv]. unfold fetchLink_start. by case_match.
  - unfold page_fetch_finish; cbn [pg_stats pg_qr].
    destruct (link_changed _ _) eqn:E; [by eapply qr_inv_effect|].
    eapply qr_inv_link; [|exact Hinv].
    destruct (st_link st), (st_link (fetchLink_finish r st)); done.
  - by eapply qr_inv_settle.
  - destruct q; exact Hinv.
  - destruct q; exact Hinv.
  - destruct (download_qr_page (mkPage st q)) as (st' & -> & E). by eapply qr_inv_link.
  - destruct (handleCopy_page ok (mkPage st q)) as (st' & -> & E). by eapply qr_inv_link.
  - eapply qr_inv_link; [|exact Hinv]. unfold stats_delete_start. by case_match.
  - eapply qr_inv_link; [|exact Hinv]. unfold stats_delete_finish. by repeat case_match.
Qed.

Lemma qr_inv_reachable p :
  rtc (pstep qrgen base origin code) (init_page base origin) p -> qr_inv p.
Proof.
  revert p. apply rtc_ind_r; [apply qr_inv_init|].
  intros y z _ [e Hs] IH. by eapply qr_inv_step.
Qed.

Lemma run_events_reachable es p :
  rtc (pstep qrgen base origin code) p (run_events qrgen base origin code es p).
Proof.
  revert p. induction es as [|e es IH]; intros p; [done|]. cbn [run_events].
  destruct (page_step _ _ _ _ e p) eqn:E; [|apply IH]. eapply rtc_l; [by exists e|apply IH].
Qed.
End Preview.

(** ** Properties *)

(** C40: the stats page never shows or saves a stale QR.  Whatever the
    server answers and in whatever order the generations settle, when the
    page is not generating, the QR it shows is the one for the short url of
    the link on screen, and Download saves that QR under that link's code.
    The Download button never reads the code of a missing link. *)
Theorem qr_preview_current qrgen base origin code p :
  rtc (pstep qrgen base origin code) (init_page base origin) p ->
  (q_loading (pg_qr p) = false -> forall d, q_dataUrl (pg_qr p) = Some d ->
     exists l, st_link (pg_stats p) = Some l /\ qrgen (short_url base origin (dl_code l)) = Some d) /\
  (q_loading (pg_qr p) = false -> forall name d, (download_qr p).2 = DLSaved name d ->
     exists l, st_link (pg_stats p) = Some l /\ name = "tinylink-" +:+ dl_code l +:+ ".png" /\
               qrgen (short_url base origin (dl_code l)) = Some d) /\
  (download_qr p).2 <> DLTypeError.
Proof.
  intros Hr. destruct (qr_inv_reachable _ _ _ _ _ Hr) as (k & _ & _ & Hl).
  destruct p as [st q]. unfold download_qr. cbn [pg_stats pg_qr snd] in *.
  destruct (st_link st) as [l|]; [destruct Hl as [_ Hd]|destruct Hl as (-> & _ & _)].
  - split; [eauto|]. split; [|by case_match].
    intros Hlo name d. destruct (q_dataUrl q) eqn:Eq; [|discriminate]. intros [= <- <-]. eauto.
  - split; [discriminate|]. split; discriminate.
Qed.

(** Two loads of [abc123] start two generations; the newer settles
    first and the cancelled older one after it. *)
Definition qr_example : Page :=
  run_events (fun s => Some ("qr:" +:+ s)) "" "https://t.ly" "abc123"
    [EvFetchFinish (RJson 200 (BLink ("abc123", new_item (AS "https://example.com") 1000)));
     EvFetchStart;
     EvFetchFinish (RJson 200 (BLink ("abc123", new_item (AS "https://example.com") 1000)));
     EvQrSettle 1; EvQrSettle 0; EvDownload]
    (init_page "" "https://t.ly").

Lemma qr_preview_current_witness :
  q_loading (pg_qr qr_example) = false /\
  (download_qr qr_example).2 = DLSaved "tinylink-abc123.png" "qr:https://t.ly/abc123" /\
  exists l, st_link (pg_stats qr_example) = Some l /\
    (fun s => Some ("qr:" +:+ s)) (short_url "" "https://t.ly" (dl_code l)) = Some "qr:https://t.ly/abc123".
Proof.
  assert (Hl : q_loading (pg_qr qr_example) = false) by (vm_compute; reflexivity).
  assert (Hd : (download_qr qr_example).2 = DLSaved "tinylink-abc123.png" "qr:https://t.ly/abc123")
    by (vm_compute; reflexivity).
  split; [exact Hl|]. split; [exact Hd|].
  destruct (qr_preview_current (fun s => Some ("qr:" +:+ s)) "" "https://t.ly" "abc123" qr_example
              (run_events_reachable _ _ _ _ _ _)) as (_ & Hs & _).
  destruct (Hs Hl _ _ Hd) as (l & El & _ & Eq). eauto.
Defined.
