(* ===== verification/Pages.v ===== *)
(** * Routes and the health page

    Next.js picks the page or API handler of a path from the files under
    [src/pages]: [index.js] is [/], [healthz.js] is [/healthz],
    [code/[code].js] is [/code/c], [[code].js] is [/c], and
    [api/links/index.js] and [api/links/[code].js] are [/api/links] and
    [/api/links/c]; a static segment wins over a dynamic one.  [route] is
    that table (paths as their segments).  [HealthPage] of
    [src/pages/healthz.js] (lines 4-33) fetches [/api/healthz] and shows
    the JSON it gets, or [{ok: false}] when [fetch] or [r.json()] throws. *)

From S2P Require Import Prelude JsValue Validate Url Dynamo Api.

Inductive Route :=
  | RDashboard
  | RHealth
  | RStats (c : string)
  | RRedirectPage (c : string)
  | RApiLinks
  | RApiLink (c : string)
  | RNoRoute.

Definition route (segs : list string) : Route :=
  match segs with
  | [] => RDashboard
  | [a] => if a === "healthz" then RHealth else RRedirectPage a
  | [a; b] =>
      if a === "code" then RStats b
      else if (a === "api") && (b === "links") then RApiLinks
      else RNoRoute
  | [a; b; c] => if (a === "api") && (b === "links") then RApiLink c else RNoRoute
  | _ => RNoRoute
  end.

(** A [GET] of an API path; a path no API file serves gets Next's 404
    page, which is HTML. *)
Definition api_get (segs : list string) (rand : list Byte.byte) : Prog Response :=
  match route segs with
  | RApiLinks => links_index (get_req "") rand
  | RApiLink c => links_code (get_req c)
  | _ => Ret RNotFoundPage
  end.

(** [status] once the effect has run: the parsed JSON body, or the
    [{ok: false, error}] object of the [catch] (an HTML page makes
    [r.json()] throw). *)
Inductive HealthStatus := HData (b : Body) | HFailed.

Definition health_status (r : Response) : HealthStatus :=
  match r with RJson _ b => HData b | _ => HFailed end.

(** [status.ok]: no JSON body of the API has an [ok] field. *)
Definition health_ok (h : HealthStatus) : bool := false.

(** The line the page prints. *)
Definition health_line (h : HealthStatus) : string :=
  if health_ok h then "ok: true" else "ok: false".

(** ** Properties *)

Section PagesProps.
Context `{LinkStoreLaws}.

(** C37: "healthz" is a valid custom code, and [POST /api/links] creates
    it when it is free, but the path [/healthz] is the health page, so the
    short link never redirects. *)
Theorem healthz_code_unreachable w rand :
  w_table w !! "healthz" = None ->
  validCode (JStr "healthz") = true /\
  (run (links_index (post_req (JStr "https://a.io") (JStr "healthz")) rand) w).1 =
    RJson 201 (BCreated (JStr "healthz") (JStr "https://a.io")) /\
  route ["healthz"] = RHealth.
Proof.
  intros Hfree. split; [reflexivity|]. split; [|reflexivity].
  unfold links_index. cbn -[validUrl validCode].
  change (validUrl (JStr "https://a.io")) with true. change (validCode (JStr "healthz")) with true.
  cbn -[validUrl validCode]. rewrite run_create_bind.
  rewrite create_outcome_fresh by (done || discriminate). reflexivity.
Qed.
End PagesProps.

Lemma healthz_code_unreachable_witness :
  validCode (JStr "healthz") = true /\
  (run (links_index (post_req (JStr "https://a.io") (JStr "healthz")) []) w_example).1 =
    RJson 201 (BCreated (JStr "healthz") (JStr "https://a.io")) /\
  route ["healthz"] = RHealth.
Proof. exact (@healthz_code_unreachable dynamo_store dynamo_store_laws w_example [] eq_refl). Defined.

(** The health page can never report a healthy server: no file
    serves [/api/healthz], the request gets the HTML 404 page whatever the
    store holds, [r.json()] throws, and the page prints "ok: false". *)
Theorem health_page_never_ok w :
  run (api_get ["api"; "healthz"] []) w = (RNotFoundPage, w) /\
  health_status RNotFoundPage = HFailed /\
  health_line (health_status (run (api_get ["api"; "healthz"] []) w).1) = "ok: false".
Proof. split; [reflexivity|]. split; reflexivity. Qed.
