(* ===== verification/Sync.v ===== *)
(** * The dashboard in step with the store, when nothing interleaves

    The positive counterpart of the races of [Client]: when the user waits
    for each request to be answered before acting again, and no other tab
    changes the store, the optimistic updates of [handleAdd] and
    [handleDeleteConfirm] keep the dashboard's list in step with the
    table.  Whenever no request is in flight, the dashboard shows exactly
    the codes the store holds, each once, as long as the table fits in
    one Scan page (past 1 MB [listLinks] returns a prefix, see
    [Dashboard.dashboard_truncated]).  [seq_step] is that discipline as a
    restriction of [Client.act]; [seq_inv] is the invariant it preserves,
    stated for each request that can be in flight. *)

From S2P Require Import Prelude JsValue Validate Url Dynamo Api Dashboard Client.

(** The dashboard lists the codes of the store, in some order. *)
Definition synced (ls : list DLink) (w : World) : Prop :=
  map dl_code ls ≡ₚ (map_to_list (w_table w)).*1.

(** A sequential session: the user acts only when no request is in
    flight, and the server answers the request in flight. *)
Inductive seq_step : Session -> Session -> Prop :=
  | seq_user e s s' : y_pending s = [] -> act (AUser e) s = Some s' -> seq_step s s'
  | seq_reply rand s s' :
      (table_size (map_to_list (w_table (y_world s))) <= scan_limit)%Z ->
      act (ADeliver 0 rand) s = Some s' -> seq_step s s'.

(** What is known while each kind of request is in flight. *)
Definition seq_inv (s : Session) : Prop :=
  match y_pending s with
  | [] => synced (c_links (y_client s)) (y_world s)
  | [PFetch _] => True
  | [PAdd req] => synced (c_links (y_client s)) (y_world s) /\ exists url code, req = add_payload url code
  | [PDelete x prev] =>
      synced prev (y_world s) /\ c_links (y_client s) = List.filter (fun l => negb (dl_code l === x)) prev
  | _ => False
  end.

(** A sequential session along an explicit list of moves, the impossible
    ones skipped. *)
Inductive SeqMove := SUser (e : UEvent) | SReply (rand : list Byte.byte).

Definition seq_move (m : SeqMove) (s : Session) : option Session :=
  match m with
  | SUser e => match y_pending s with [] => act (AUser e) s | _ => None end
  | SReply rand =>
      if decide (table_size (map_to_list (w_table (y_world s))) <= scan_limit)%Z
      then act (ADeliver 0 rand) s else None
  end.

Fixpoint run_seq (l : list SeqMove) (s : Session) : Session :=
  match l with
  | [] => s
  | m :: l' => match seq_move m s with Some s' => run_seq l' s' | None => run_seq l' s end
  end.

(** ** Lemmas on the list and the table *)

Lemma Permutation_list_filter {A} (f : A -> bool) (l l' : list A) :
  l ≡ₚ l' -> List.filter f l ≡ₚ List.filter f l'.
Proof.
  induction 1 as [|x l l' _ IH|x y l|l l' l'' _ IH1 _ IH2]; simpl.
  - done.
  - destruct (f x); [by constructor|done].
  - destruct (f x), (f y); try constructor; done.
  - by etrans.
Qed.

Lemma map_filter_codes x (ls : list DLink) :
  map dl_code (List.filter (fun l => negb (dl_code l === x)) ls) =
  List.filter (fun c => negb (c === x)) (map dl_code ls).
Proof. induction ls as [|l ls IH]; simpl; [done|]. destruct (negb _); simpl; by rewrite IH. Qed.

Lemma filter_keys_absent x (t : gmap string Item) :
  t !! x = None -> List.filter (fun c => negb (c === x)) (map_to_list t).*1 = (map_to_list t).*1.
Proof.
  intros Hx. apply filter_all, forallb_forall. intros c Hc.
  apply negb_true_iff, String.eqb_neq. intros ->. apply list_elem_of_In in Hc.
  apply list_elem_of_fmap in Hc as ([c' v] & -> & Hin).
  apply elem_of_map_to_list in Hin. simpl in *. congruence.
Qed.

Lemma synced_delete ls x w :
  synced ls w ->
  synced (List.filter (fun l => negb (dl_code l === x)) ls) (set_table (delete x (w_table w)) w).
Proof.
  unfold synced. rewrite map_filter_codes, set_table_table. intros Hp.
  etrans; [apply Permutation_list_filter, Hp|].
  destruct (w_table w !! x) as [v|] eqn:Hx.
  - assert (HK : (map_to_list (w_table w)).*1 ≡ₚ x :: (map_to_list (delete x (w_table w))).*1)
      by (rewrite <- (map_to_list_delete _ _ _ Hx); done).
    etrans; [apply Permutation_list_filter, HK|]. simpl. rewrite String.eqb_refl. simpl.
    rewrite filter_keys_absent by apply lookup_delete_eq. done.
  - rewrite delete_id by done. by rewrite filter_keys_absent.
Qed.

Lemma synced_insert l ls x v w :
  dl_code l = x -> w_table w !! x = None -> synced ls w ->
  synced (l :: ls) (set_table (<[x := v]> (w_table w)) w).
Proof.
  unfold synced. rewrite set_table_table. intros Hl Hx Hp. simpl. rewrite Hl.
  rewrite (map_to_list_insert _ _ _ Hx). simpl. by constructor.
Qed.

Lemma synced_fetch w : synced (map normalize (map_to_list (w_table w))) w.
Proof. unfold synced. by rewrite codes_normalized. Qed.

(** ** What the server does with the dashboard's requests *)

Lemma create_outcome_cases x u w :
  (exists e, create_outcome (JStr x) (JStr u) w = (Err e, w)) \/
  (w_table w !! x = None /\
   create_outcome (JStr x) (JStr u) w = (Ok tt, set_table (<[x := new_item (AS u) (w_clock w)]> (w_table w)) w)).
Proof.
  destruct (decide (x = "")) as [->|Hx]; [left; eexists; reflexivity|].
  destruct (w_table w !! x) as [it|] eqn:E.
  - left. eexists. exact (create_outcome_taken x u w it Hx E).
  - right. split; [done|]. exact (create_outcome_fresh x u w Hx E).
Qed.

(** The dashboard's [POST] either changes nothing and is not answered
    201, or stores a fresh code and answers 201 with it and the trimmed
    url. *)
Lemma post_outcome url code rand w :
  let '(r, w') := run (links_index (add_payload url code) rand) w in
  ((status_of r =? 201)%Z = false /\ w' = w) \/
  (exists x, (status_of r =? 201)%Z = true /\ created_fields r = (JStr x, JStr (js_trim url)) /\
     w_table w !! x = None /\
     w' = set_table (<[x := new_item (AS (js_trim url)) (w_clock w)]> (w_table w)) w).
Proof.
  unfold add_payload, post_req, links_index. cbn [req_method req_body_url req_body_code].
  change ("POST" === "GET") with false. change ("POST" === "POST") with true. cbv beta iota zeta.
  destruct (validUrl (JStr (js_trim url))); cbn [negb andb]; [|left; done].
  set (bc := if js_trim code === "" then JUndef else JStr (js_trim code)).
  destruct (truthy bc && negb (validCode bc)); cbn [negb andb]; [left; done|].
  assert (Hc : exists x, (if truthy bc then bc else JStr (genCode rand)) = JStr x).
  { unfold bc. destruct (js_trim code === ""); simpl; [eauto|]. case_match; eauto. }
  destruct Hc as [x Hx]. rewrite Hx, run_create_bind.
  destruct (create_outcome_cases x (js_trim url) w) as [[e He] | [Hn He]]; rewrite He; simpl.
  - destruct (js_includes _ _); simpl; left; done.
  - simpl. right. exists x. done.
Qed.

(** The dashboard's [DELETE] either fails and changes nothing, or
    succeeds and removes the code. *)
Lemma delete_outcome x w :
  let '(r, w') := run (links_code (delete_req x)) w in
  (res_ok r = false /\ w' = w) \/ (res_ok r = true /\ w' = set_table (delete x (w_table w)) w).
Proof.
  destruct (decide (x = "")) as [->|Hx]; [left; split; reflexivity|].
  destruct (w_table w !! x) as [it|] eqn:E.
  - rewrite (run_delete_present x it w) by done. right. done.
  - unfold delete_req. rewrite run_code_absent by auto. left. done.
Qed.

(** ** Steps *)

Lemma run_seq_reachable l s : rtc seq_step s (run_seq l s).
Proof.
  revert s. induction l as [|[e|rand] l IH]; intros s; cbn [run_seq seq_move]; [done| |].
  - destruct (y_pending s) eqn:Hp; [|apply IH].
    destruct (act (AUser e) s) as [s'|] eqn:E; [|apply IH].
    eapply rtc_l; [by apply seq_user with e|]. apply IH.
  - destruct (decide _) as [Hfit|]; [|apply IH].
    destruct (act (ADeliver 0 rand) s) as [s'|] eqn:E; [|apply IH].
    eapply rtc_l; [by apply seq_reply with rand|]. apply IH.
Qed.

Lemma act_user_inv e s s' :
  act (AUser e) s = Some s' ->
  exists c' ps, on_event e (y_client s) = (c', ps) /\ s' = mkSession c' (y_world s) (y_pending s ++ ps).
Proof.
  simpl. destruct (enabled e _); [|discriminate].
  destruct (on_event e _) as [c' ps]. intros [= <-]. eauto.
Qed.

Lemma act_deliver_inv rand s s' :
  act (ADeliver 0 rand) s = Some s' ->
  exists p rest r w' c' ps,
    y_pending s = p :: rest /\ run (server_call p rand) (y_world s) = (r, w') /\
    resume p (Some r) (y_client s) = (c', ps) /\ s' = mkSession c' w' (rest ++ ps).
Proof.
  simpl. destruct (y_pending s) as [|p rest] eqn:Hp; [discriminate|]. simpl.
  destruct (run (server_call p rand) (y_world s)) as [r w'] eqn:Hr.
  destruct (resume p (Some r) (y_client s)) as [c' ps] eqn:Hs. intros [= <-].
  exists p, rest, r, w', c', ps. done.
Qed.

(** A user event sends at most one request: the form's [POST] or the
    dialog's [DELETE], with the list it leaves. *)
Lemma on_event_cases e c c' ps :
  on_event e c = (c', ps) ->
  (ps = [] /\ c_links c' = c_links c) \/
  (exists url code, ps = [PAdd (add_payload url code)] /\ c_links c' = c_links c) \/
  (exists x, ps = [PDelete x (c_links c)] /\
             c_links c' = List.filter (fun l => negb (dl_code l === x)) (c_links c)).
Proof.
  destruct e; simpl; unfold form_effect, handleAdd_start, handleDelete_start, with_view;
    repeat case_match; intros [= <- <-]; simpl; eauto 10.
Qed.

(** ** The invariant *)

Lemma seq_inv_init w now : seq_inv (init_sys w now).
Proof. exact I. Qed.

Lemma seq_inv_user e s s' :
  y_pending s = [] -> seq_inv s -> act (AUser e) s = Some s' -> seq_inv s'.
Proof.
  intros Hp Hinv Hact. destruct (act_user_inv _ _ _ Hact) as (c' & ps & Hev & ->).
  unfold seq_inv in *. rewrite Hp in *. simpl.
  destruct (on_event_cases _ _ _ _ Hev) as [[-> Hl] | [(url & code & -> & Hl) | (x & -> & Hl)]];
    simpl; rewrite Hl; eauto.
Qed.

Lemma seq_inv_reply rand s s' :
  (table_size (map_to_list (w_table (y_world s))) <= scan_limit)%Z ->
  seq_inv s -> act (ADeliver 0 rand) s = Some s' -> seq_inv s'.
Proof.
  intros Hfit Hinv Hact.
  destruct (act_deliver_inv _ _ _ Hact) as (p & rest & r & w' & c' & ps & Hps & Hrun & Hres & ->).
  unfold seq_inv in *. rewrite Hps in Hinv.
  destruct p as [a | req | x prev]; destruct rest; try contradiction;
    cbn [server_call resume app] in Hrun, Hres |- *.
  - rewrite run_list_links in Hrun. unfold scan_page in Hrun. rewrite scan_page_from_all in Hrun by done. injection Hrun as <- <-. injection Hres as <- <-.
    unfold fetch_finish. simpl. destruct a; apply synced_fetch.
  - destruct Hinv as [Hs (url & code & ->)].
    pose proof (post_outcome url code rand (y_world s)) as Ho. rewrite Hrun in Ho.
    unfold handleAdd_finish in Hres.
    destruct Ho as [[H201 ->] | (x & H201 & Hf & Hn & ->)]; rewrite H201 in Hres.
    + by injection Hres as <- <-.
    + rewrite Hf in Hres. injection Hres as <- <-. simpl. by apply synced_insert.
  - destruct Hinv as [Hs Hl].
    pose proof (delete_outcome x (y_world s)) as Ho. rewrite Hrun in Ho.
    unfold handleDelete_finish in Hres.
    destruct Ho as [[Hok ->] | [Hok ->]]; rewrite Hok in Hres; injection Hres as <- <-; simpl.
    + exact Hs.
    + rewrite Hl. by apply synced_delete.
Qed.

Lemma seq_inv_reachable w now s : rtc seq_step (init_sys w now) s -> seq_inv s.
Proof.
  revert s. apply rtc_ind_r; [apply seq_inv_init|].
  intros y z _ Hst IH. destruct Hst as [e y' z' Hp Hact | rand y' z' Hfit Hact];
    eauto using seq_inv_user, seq_inv_reply.
Qed.

(** ** Properties *)

(** C39: without interleaving, the optimistic updates are safe: in a
    session where the user acts only when no request is in flight and no
    other tab changes the store, and where the table fits in one Scan
    page whenever the server answers, whenever no request is in flight
    the dashboard lists exactly the codes the store holds, each once. *)
Theorem dashboard_synced_sequential w now s :
  rtc seq_step (init_sys w now) s -> y_pending s = [] ->
  map dl_code (c_links (y_client s)) ≡ₚ (map_to_list (w_table (y_world s))).*1 /\
  NoDup (map dl_code (c_links (y_client s))).
Proof.
  intros Hr Hp. pose proof (seq_inv_reachable _ _ _ Hr) as Hinv.
  unfold seq_inv in Hinv. rewrite Hp in Hinv. split; [exact Hinv|].
  unfold synced in Hinv. rewrite Hinv. apply NoDup_fst_map_to_list.
Qed.

(** Load, create a link, then delete [abc123], each answered in turn. *)
Definition seq_example : Session :=
  run_seq [SReply []; SUser (EUrl "https://new.io"); SUser EAdd; SReply rand_example;
           SUser (EAskDelete "abc123"); SUser EConfirmDelete; SReply []]
    (init_sys w_example 5000).

Lemma dashboard_synced_sequential_witness :
  rtc seq_step (init_sys w_example 5000) seq_example /\ y_pending seq_example = [] /\
  map dl_code (c_links (y_client seq_example)) ≡ₚ (map_to_list (w_table (y_world seq_example))).*1 /\
  NoDup (map dl_code (c_links (y_client seq_example))).
Proof.
  assert (H1 : rtc seq_step (init_sys w_example 5000) seq_example) by apply run_seq_reachable.
  assert (H2 : y_pending seq_example = []) by (vm_compute; reflexivity).
  split; [exact H1|]. split; [exact H2|]. exact (dashboard_synced_sequential _ _ _ H1 H2).
Defined.
